(** * Authentication and session lifecycle of the Express backend template

    A shallow embedding of [services/authService.ts] (class [AuthService]),
    [common/middlewares/authMiddleware.ts], [common/errors/ApiErrors.ts],
    [models/auth.ts] and [models/user.ts], followed by the properties of
    the authentication flow.

    Conventions of the embedding:
    - the relational store reached through Prisma is a record of tables,
      each table a list of rows in table order;
    - an [async] method is a computation in the monad [M]: it threads the
      world (store, clock, randomness, outage schedule) and either returns
      a value or throws;
    - [bcryptjs] and [jsonwebtoken] are external libraries: their
      primitives are the fields of the classes [Bcrypt] and [JwtCodec];
    - logging through [logger] has no effect on the modelled state and is
      left out. *)

From Stdlib Require Import String Ascii List ZArith Bool Lia.
From Stdlib Require SpecFloat.
Import ListNotations.

Local Open Scope string_scope.
Local Open Scope Z_scope.

(* ===================================================================== *)
(** ** common/constants/HttpStatusCodes.ts *)
(* ===================================================================== *)

Module HttpStatusCodes.
Definition BAD_REQUEST : Z := 400.
Definition UNAUTHORIZED : Z := 401.
Definition FORBIDDEN : Z := 403.
Definition NOT_FOUND : Z := 404.
Definition METHOD_NOT_ALLOWED : Z := 405.
Definition CONFLICT : Z := 409.
Definition UNPROCESSABLE_ENTITY : Z := 422.
Definition TOO_MANY_REQUESTS : Z := 429.
Definition INTERNAL_SERVER_ERROR : Z := 500.
Definition SERVICE_UNAVAILABLE : Z := 503.
End HttpStatusCodes.

(* ===================================================================== *)
(** ** common/errors/ApiErrors.ts *)
(* ===================================================================== *)

(** An [ApiError] instance: [name] is [this.constructor.name]; [details]
    is never supplied by the authentication flow and is left out. *)
Record ApiError := mkApiError {
  name : string;
  message : string;
  statusCode : Z;
  code : string
}.

Definition BadRequestError (msg : string) : ApiError :=
  mkApiError "BadRequestError" msg HttpStatusCodes.BAD_REQUEST "BAD_REQUEST".

Definition UnauthorizedError (msg : string) : ApiError :=
  mkApiError "UnauthorizedError" msg HttpStatusCodes.UNAUTHORIZED "UNAUTHORIZED".

Definition ForbiddenError (msg : string) : ApiError :=
  mkApiError "ForbiddenError" msg HttpStatusCodes.FORBIDDEN "FORBIDDEN".

Definition NotFoundError (msg : string) : ApiError :=
  mkApiError "NotFoundError" msg HttpStatusCodes.NOT_FOUND "NOT_FOUND".

Definition ConflictError (msg : string) : ApiError :=
  mkApiError "ConflictError" msg HttpStatusCodes.CONFLICT "CONFLICT".

Definition InternalServerError (msg : string) : ApiError :=
  mkApiError "InternalServerError" msg
             HttpStatusCodes.INTERNAL_SERVER_ERROR "INTERNAL_SERVER_ERROR".

(** The three error classes exported by [jsonwebtoken].  In the library
    [TokenExpiredError] and [NotBeforeError] are built on
    [JsonWebTokenError.prototype], so both are instances of
    [JsonWebTokenError]. *)
Inductive JwtErrorClass :=
| JsonWebTokenError
| TokenExpiredError
| NotBeforeError.

(** Everything a method of the flow can throw. *)
Inductive Exn :=
| EApi (e : ApiError)                        (* ApiError and subclasses *)
| EJwt (c : JwtErrorClass) (msg : string)    (* thrown by jwt.verify *)
| EPrisma (prismaCode : string)              (* thrown by the Prisma client *)
| ETypeError (msg : string)                  (* property read on null *)
| EError (msg : string).                     (* a plain Error *)

Definition instanceof_JsonWebTokenError (e : Exn) : bool :=
  match e with
  | EJwt _ _ => true
  | _ => false
  end.

Definition instanceof_TokenExpiredError (e : Exn) : bool :=
  match e with
  | EJwt TokenExpiredError _ => true
  | _ => false
  end.

Definition instanceof_ApiError (e : Exn) : bool :=
  match e with
  | EApi _ => true
  | _ => false
  end.

(* ===================================================================== *)
(** ** models/auth.ts: constants *)
(* ===================================================================== *)

Module JWT_CONFIG.
(** ['15m'], which [jsonwebtoken] reads as 900 seconds. *)
Definition ACCESS_TOKEN_EXPIRES_IN : Z := 15 * 60.
End JWT_CONFIG.

Module SESSION_EXPIRY.
Definition DEFAULT : Z := 7 * 24 * 60 * 60.
Definition REMEMBER_ME : Z := 30 * 24 * 60 * 60.
End SESSION_EXPIRY.

Module AUTH_ERRORS.
Definition INVALID_CREDENTIALS := "Invalid email or password".
Definition USER_NOT_FOUND := "User not found".
Definition USER_INACTIVE := "Account is deactivated".
Definition INVALID_TOKEN := "Invalid or expired token".
Definition TOKEN_EXPIRED := "Token has expired".
Definition SESSION_EXPIRED := "Session has expired".
Definition UNAUTHORIZED := "Unauthorized access".
Definition INSUFFICIENT_PERMISSIONS := "Insufficient permissions".
Definition EMAIL_ALREADY_EXISTS := "Email already exists".
Definition USERNAME_ALREADY_EXISTS := "Username already exists".
End AUTH_ERRORS.

(* ===================================================================== *)
(** ** Data model (rows of the Prisma schema, models/user.ts, models/auth.ts) *)
(* ===================================================================== *)

Record Role := mkRole {
  role_id : string;
  role_name : string;
  role_displayName : string
}.

(** A [UserRole] assignment row joined with its role
    ([include: { userRoles: { include: { role: true } } }]). *)
Record UserRole := mkUserRole {
  role : Role
}.

(** [UserWithRoles]: a user row together with its joined role
    assignments.  The authentication flow only reads the assignments, so
    the user table stores the joined view. *)
Record User := mkUser {
  id : string;
  email : string;
  username : option string;
  password : string;              (* bcrypt hash *)
  firstName : option string;
  lastName : option string;
  isActive : bool;
  createdAt : Z;
  updatedAt : Z;
  lastLogin : option Z;
  userRoles : list UserRole
}.

Record Session := mkSession {
  session_id : string;
  userId : string;
  refreshToken : string;
  expiresAt : Z;
  isRevoked : bool;
  session_createdAt : Z;
  session_updatedAt : Z
}.

Record AuditLog := mkAuditLog {
  audit_userId : string;
  action : string;
  audit_createdAt : Z
}.

Record Database := mkDatabase {
  users : list User;
  sessions : list Session;
  auditLogs : list AuditLog
}.

(** Request bodies, after validation by the Zod schemas. *)
Record RegisterRequest := mkRegisterRequest {
  reg_email : string;
  reg_password : string;
  reg_firstName : option string;
  reg_lastName : option string;
  reg_username : option string
}.

Record LoginRequest := mkLoginRequest {
  login_email : string;
  login_password : string;
  rememberMe : bool
}.

Record RefreshTokenRequest := mkRefreshTokenRequest {
  req_refreshToken : string
}.

Record ChangePasswordRequest := mkChangePasswordRequest {
  currentPassword : string;
  newPassword : string
}.

(** The claims of an access token ([JwtPayload]); [iat] and [exp] are in
    seconds and are filled in by [jwt.sign]. *)
Record JwtPayload := mkJwtPayload {
  sub : option string;
  jwt_email : string;
  roles : list string;
  iat : option Z;
  exp : option Z
}.

Record RoleResponse := mkRoleResponse {
  rr_id : string;
  rr_name : string;
  rr_displayName : string
}.

Record UserResponse := mkUserResponse {
  ur_id : string;
  ur_email : string;
  ur_username : option string;
  ur_firstName : option string;
  ur_lastName : option string;
  ur_isActive : bool;
  ur_createdAt : Z;
  ur_updatedAt : Z;
  ur_lastLogin : option Z;
  ur_roles : list RoleResponse
}.

Record Tokens := mkTokens {
  accessToken : string;
  tok_refreshToken : string;
  expiresIn : Z
}.

Record AuthResponse := mkAuthResponse {
  user : UserResponse;
  tokens : Tokens
}.

(* ===================================================================== *)
(** ** models/user.ts: utility functions *)
(* ===================================================================== *)

Definition transformUserToResponse (u : User) : UserResponse :=
  {| ur_id := id u;
     ur_email := email u;
     ur_username := username u;
     ur_firstName := firstName u;
     ur_lastName := lastName u;
     ur_isActive := isActive u;
     ur_createdAt := createdAt u;
     ur_updatedAt := updatedAt u;
     ur_lastLogin := lastLogin u;
     ur_roles := map (fun ur => {| rr_id := role_id (role ur);
                                   rr_name := role_name (role ur);
                                   rr_displayName := role_displayName (role ur) |})
                     (userRoles u) |}.

(** [roleNames.includes(x)] *)
Definition includes (roleNames : list string) (x : string) : bool :=
  existsb (String.eqb x) roleNames.

Definition userHasRole (u : User) (roleName : string) : bool :=
  existsb (fun ur => String.eqb (role_name (role ur)) roleName) (userRoles u).

Definition userHasAnyRole (u : User) (roleNames : list string) : bool :=
  existsb (fun ur => includes roleNames (role_name (role ur))) (userRoles u).

(* ===================================================================== *)
(** ** The world of a request, and the monad of [async] methods *)
(* ===================================================================== *)

(** Everything outside the process that a method reads or writes:
    - [db]: the relational store;
    - [clock]: [Date.now()], milliseconds since the epoch;
    - [faults]: the outage schedule of the store, one flag per round
      trip, consumed from the head; [true] makes that round trip throw,
      and an exhausted schedule means no further outage;
    - [entropy], [drawn]: the blocks returned by the system's random
      generator ([randomBytes], bcrypt salts) and how many were used;
    - [idgen], [issued]: the default ids the store assigns to new rows. *)
Record World := mkWorld {
  db : Database;
  clock : Z;
  faults : list bool;
  entropy : nat -> string;
  drawn : nat;
  idgen : nat -> string;
  issued : nat
}.

Definition set_db (d : Database) (w : World) : World :=
  mkWorld d (clock w) (faults w) (entropy w) (drawn w) (idgen w) (issued w).

Definition set_faults (fs : list bool) (w : World) : World :=
  mkWorld (db w) (clock w) fs (entropy w) (drawn w) (idgen w) (issued w).

Definition set_drawn (n : nat) (w : World) : World :=
  mkWorld (db w) (clock w) (faults w) (entropy w) n (idgen w) (issued w).

Definition set_issued (n : nat) (w : World) : World :=
  mkWorld (db w) (clock w) (faults w) (entropy w) (drawn w) (idgen w) n.

Inductive Result (A : Type) :=
| Ok (a : A)
| Throw (e : Exn).

Arguments Ok {A} a.
Arguments Throw {A} e.

Definition M (A : Type) : Type := World -> Result A * World.

Definition ret {A} (a : A) : M A := fun w => (Ok a, w).

Definition throw {A} (e : Exn) : M A := fun w => (Throw e, w).

Definition bind {A B} (m : M A) (k : A -> M B) : M B :=
  fun w =>
    match m w with
    | (Ok a, w') => k a w'
    | (Throw e, w') => (Throw e, w')
    end.

(** [try { body } catch (error) { handler(error) }] *)
Definition try_catch {A} (body : M A) (handler : Exn -> M A) : M A :=
  fun w =>
    match body w with
    | (Ok a, w') => (Ok a, w')
    | (Throw e, w') => handler e w'
    end.

Declare Scope async_scope.
Delimit Scope async_scope with async.

Notation "x <- c ;; k" := (bind c (fun x => k))
  (at level 61, c at next level, right associativity) : async_scope.
Notation "c ;; k" := (bind c (fun _ => k))
  (at level 61, right associativity) : async_scope.

Local Open Scope async_scope.

(** [new Date()] *)
Definition newDate : M Z := fun w => (Ok (clock w), w).

(** The next block of the random generator. *)
Definition draw : M string :=
  fun w => (Ok (entropy w (drawn w)), set_drawn (S (drawn w)) w).

(** [randomBytes(64).toString('hex')] *)
Definition randomBytes64Hex : M string := draw.

(** JavaScript truthiness of a string and of an optional string. *)
Definition truthy (s : string) : bool := negb (String.eqb s "").

Definition truthy_opt (o : option string) : bool :=
  match o with
  | Some s => truthy s
  | None => false
  end.

(* ===================================================================== *)
(** ** The Prisma client *)
(* ===================================================================== *)

Module Prisma.

(** Error codes of the client: unique constraint violation, record to
    update not found, and the store being unreachable. *)
Definition P2002 := "P2002".
Definition P2025 := "P2025".
Definition P1001 := "P1001".

(** One round trip to the store: it throws when the outage schedule
    says so, and otherwise runs the query on the tables. *)
Definition roundTrip {A} (q : Database -> Result (A * Database)) : M A :=
  fun w =>
    match faults w with
    | true :: fs => (Throw (EPrisma P1001), set_faults fs w)
    | fs =>
        let w0 := set_faults (tl fs) w in
        match q (db w) with
        | Ok (a, d) => (Ok a, set_db d w0)
        | Throw e => (Throw e, w0)
        end
    end.

(** A read-only round trip. *)
Definition query {A} (f : Database -> A) : M A :=
  roundTrip (fun d => Ok (f d, d)).

(** [prisma.$transaction(async (tx) => body)]: the writes of [body]
    are committed together; when [body] throws, or the commit round
    trip fails, the tables are rolled back to their state at the
    start and the error is rethrown. *)
Definition transaction {A} (body : M A) : M A :=
  fun w =>
    match body w with
    | (Ok a, w') =>
        match faults w' with
        | true :: fs => (Throw (EPrisma P1001), set_db (db w) (set_faults fs w'))
        | fs => (Ok a, set_faults (tl fs) w')
        end
    | (Throw e, w') => (Throw e, set_db (db w) w')
    end.

(** The default id of a new row. *)
Definition nextId : M string :=
  fun w => (Ok (idgen w (issued w)), set_issued (S (issued w)) w).

(** *** [where] clauses *)

Definition emailIs (e : string) (u : User) : bool := String.eqb (email u) e.

Definition usernameIs (n : string) (u : User) : bool :=
  match username u with
  | Some x => String.eqb x n
  | None => false
  end.

Definition idIs (i : string) (u : User) : bool := String.eqb (id u) i.

Definition whereOr (clauses : list (User -> bool)) (u : User) : bool :=
  existsb (fun c => c u) clauses.

Definition refreshTokenIs (t : string) (s : Session) : bool :=
  String.eqb (refreshToken s) t.

Definition sessionIdIs (i : string) (s : Session) : bool :=
  String.eqb (session_id s) i.

(** *** [prisma.user] *)

Definition user_findFirst (cond : User -> bool) : M (option User) :=
  query (fun d => find cond (users d)).

Definition user_findUnique_email (e : string) : M (option User) :=
  query (fun d => find (emailIs e) (users d)).

Definition user_findUnique_id (i : string) : M (option User) :=
  query (fun d => find (idIs i) (users d)).

Definition set_users (us : list User) (d : Database) : Database :=
  mkDatabase us (sessions d) (auditLogs d).

Definition set_sessions (ss : list Session) (d : Database) : Database :=
  mkDatabase (users d) ss (auditLogs d).

Definition set_auditLogs (ls : list AuditLog) (d : Database) : Database :=
  mkDatabase (users d) (sessions d) ls.

(** Modelled from the spec: the Prisma schema is not part of the
    sources.  Per the data model of the spec a user has a unique id, a
    unique email and an optional unique username, is created active,
    and has no last login and no role assignment yet. *)
Definition user_create (i : string) (now : Z)
           (e : string) (un : option string) (pw : string)
           (fn ln : option string) : Database -> Result (User * Database) :=
  fun d =>
    if existsb (idIs i) (users d)
       || existsb (emailIs e) (users d)
       || match un with
          | Some n => existsb (usernameIs n) (users d)
          | None => false
          end
    then Throw (EPrisma P2002)
    else
      let u := mkUser i e un pw fn ln true now now None [] in
      Ok (u, set_users (users d ++ [u]) d).

(** [update({ where: { id }, data })] on a table: the row with that id
    is rewritten in place; no such row is error P2025. *)
Definition user_update (i : string) (f : User -> User)
  : Database -> Result (User * Database) :=
  fun d =>
    match find (idIs i) (users d) with
    | None => Throw (EPrisma P2025)
    | Some u =>
        Ok (f u, set_users (map (fun x => if idIs i x then f x else x) (users d)) d)
    end.

Definition set_lastLogin (t : Z) (u : User) : User :=
  mkUser (id u) (email u) (username u) (password u) (firstName u) (lastName u)
         (isActive u) (createdAt u) (updatedAt u) (Some t) (userRoles u).

Definition set_password (h : string) (u : User) : User :=
  mkUser (id u) (email u) (username u) h (firstName u) (lastName u)
         (isActive u) (createdAt u) (updatedAt u) (lastLogin u) (userRoles u).

(** *** [prisma.session] *)

Definition session_findUnique_refreshToken (t : string) : M (option Session) :=
  query (fun d => find (refreshTokenIs t) (sessions d)).

(** The same lookup with [include: { user: ... }]: the session row
    joined with its owner ([null] when the owner row is missing). *)
Definition session_findUnique_refreshToken_include_user (t : string)
  : M (option (Session * option User)) :=
  query (fun d =>
           match find (refreshTokenIs t) (sessions d) with
           | Some s => Some (s, find (idIs (userId s)) (users d))
           | None => None
           end).

Definition set_refreshToken (t : string) (now : Z) (s : Session) : Session :=
  mkSession (session_id s) (userId s) t (expiresAt s) (isRevoked s)
            (session_createdAt s) now.

Definition set_isRevoked (b : bool) (s : Session) : Session :=
  mkSession (session_id s) (userId s) (refreshToken s) (expiresAt s) b
            (session_createdAt s) (session_updatedAt s).

Definition session_rewrite (i : string) (f : Session -> Session)
           (ss : list Session) : list Session :=
  map (fun x => if sessionIdIs i x then f x else x) ss.

(** Modelled from the spec: the Prisma schema is not part of the
    sources.  Per the data model of the spec the refresh-token string
    of a session is unique, so writing a value that another row holds
    is error P2002. *)
Definition session_update_refreshToken (i : string) (t : string) (now : Z)
  : Database -> Result (Session * Database) :=
  fun d =>
    match find (sessionIdIs i) (sessions d) with
    | None => Throw (EPrisma P2025)
    | Some s =>
        if existsb (fun x => refreshTokenIs t x && negb (sessionIdIs i x)) (sessions d)
        then Throw (EPrisma P2002)
        else Ok (set_refreshToken t now s,
                 set_sessions (session_rewrite i (set_refreshToken t now) (sessions d)) d)
    end.

Definition session_update_isRevoked (i : string) (b : bool)
  : Database -> Result (Session * Database) :=
  fun d =>
    match find (sessionIdIs i) (sessions d) with
    | None => Throw (EPrisma P2025)
    | Some s =>
        Ok (set_isRevoked b s,
            set_sessions (session_rewrite i (set_isRevoked b) (sessions d)) d)
    end.

(** [updateMany({ where: { userId, isRevoked: false },
                  data: { isRevoked: true } })] *)
Definition session_updateMany_revoke (uid : string)
  : Database -> Result (nat * Database) :=
  fun d =>
    let hit s := String.eqb (userId s) uid && negb (isRevoked s) in
    Ok (length (filter hit (sessions d)),
        set_sessions (map (fun s => if hit s then set_isRevoked true s else s)
                          (sessions d)) d).

(** Modelled from the spec: the Prisma schema is not part of the
    sources.  A new session has a fresh unique id, a unique
    refresh-token string, is not revoked, and references an existing
    user. *)
Definition session_create (i : string) (now : Z)
           (uid : string) (t : string) (expires : Z)
  : Database -> Result (Session * Database) :=
  fun d =>
    if existsb (sessionIdIs i) (sessions d) || existsb (refreshTokenIs t) (sessions d)
    then Throw (EPrisma P2002)
    else if negb (existsb (idIs uid) (users d))
    then Throw (EPrisma "P2003")
    else
      let s := mkSession i uid t expires false now now in
      Ok (s, set_sessions (sessions d ++ [s]) d).

(** [deleteMany({ where: { OR: [{ expiresAt: { lt: now } },
                                { isRevoked: true }] } })] *)
Definition session_deleteMany_expired_or_revoked (now : Z)
  : Database -> Result (nat * Database) :=
  fun d =>
    let hit s := (expiresAt s <? now) || isRevoked s in
    Ok (length (filter hit (sessions d)),
        set_sessions (filter (fun s => negb (hit s)) (sessions d)) d).

(** *** [prisma.auditLog] *)

Definition auditLog_create (uid : string) (act : string) (now : Z)
  : Database -> Result (AuditLog * Database) :=
  fun d =>
    let l := mkAuditLog uid act now in
    Ok (l, set_auditLogs (auditLogs d ++ [l]) d).

End Prisma.

(* ===================================================================== *)
(** ** External libraries: bcryptjs and jsonwebtoken *)
(* ===================================================================== *)

(** The two primitives of [bcryptjs]: hashing a password with a cost
    factor and a salt, and checking a password against a hash. *)
Class Bcrypt := {
  bcrypt_hash : string -> nat -> string -> string;
  bcrypt_compare : string -> string -> bool
}.

(** The wire format of [jsonwebtoken]: [jwt_encode p k] serialises the
    claims [p] and signs them with the key [k]; [jwt_decode t k] parses
    [t] and checks its signature under [k], and is [None] for a
    malformed token or a wrong signature. *)
Class JwtCodec := {
  jwt_encode : JwtPayload -> string -> string;
  jwt_decode : string -> string -> option JwtPayload
}.

(** The contract of the wire format: a token signed with a key decodes
    under that key to the claims that were signed. *)
Class JwtCodecLaws (J : JwtCodec) : Prop := {
  jwt_decode_encode : forall p k, jwt_decode (jwt_encode p k) k = Some p
}.

Module bcrypt.
Section WithBcrypt.
Context {B : Bcrypt}.

(** [bcrypt.hash(password, rounds)]: the salt is drawn from the
    random generator. *)
Definition hash (pw : string) (rounds : nat) : M string :=
  salt <- draw ;;
  ret (bcrypt_hash pw rounds salt).

(** [bcrypt.compare(password, hash)] *)
Definition compare (pw h : string) : M bool :=
  ret (bcrypt_compare pw h).
End WithBcrypt.
End bcrypt.

Module jwt.
Section WithCodec.
Context {J : JwtCodec}.

Definition set_iat_exp (i e : Z) (p : JwtPayload) : JwtPayload :=
  mkJwtPayload (sub p) (jwt_email p) (roles p) (Some i) (Some e).

(** [jwt.sign(payload, secret, { expiresIn })]: the issue time is the
    clock in whole seconds, the expiry is [expiresIn] seconds later. *)
Definition sign (payload : JwtPayload) (secret : string) (expiresInS : Z)
  : M string :=
  now <- newDate ;;
  let issuedAt := now / 1000 in
  ret (jwt_encode (set_iat_exp issuedAt (issuedAt + expiresInS) payload) secret).

(** [jwt.verify(token, secret)]: a token that does not decode under
    the secret is a [JsonWebTokenError]; a decoded token whose [exp]
    is not after the clock (in whole seconds) is a
    [TokenExpiredError].  The tokens of this service carry no [nbf]
    claim, so the not-before check of the library never fires. *)
Definition verify (token secret : string) : M JwtPayload :=
  match jwt_decode token secret with
  | None => throw (EJwt JsonWebTokenError "invalid token")
  | Some p =>
      now <- newDate ;;
      match exp p with
      | Some e =>
          if e <=? now / 1000
          then throw (EJwt TokenExpiredError "jwt expired")
          else ret p
      | None => ret p
      end
  end.
End WithCodec.
End jwt.

(* ===================================================================== *)
(** ** services/authService.ts: class AuthService *)
(* ===================================================================== *)

Record AuthService := mkAuthService {
  jwtSecret : string;
  saltRounds : nat
}.

Module AuthService.

Definition defaultSecret := "your-secret-key".

(** The constructor, from the environment variables [JWT_SECRET] and
    [NODE_ENV]. *)
Definition new (JWT_SECRET NODE_ENV : option string) : Result AuthService :=
  let secret := match JWT_SECRET with
                | Some s => if truthy s then s else defaultSecret
                | None => defaultSecret
                end in
  if match NODE_ENV with
     | Some e => String.eqb e "production"
     | None => false
     end && String.eqb secret defaultSecret
  then Throw (EError "JWT_SECRET must be set in production")
  else Ok (mkAuthService secret 12).

Section Methods.
Context {B : Bcrypt} {J : JwtCodec}.
Variable this : AuthService.

(** [existingUser.username === data.username]: a [null] column is
    never strictly equal to an absent field. *)
Definition username_strict_eq (a b : option string) : bool :=
  match a, b with
  | Some x, Some y => String.eqb x y
  | _, _ => false
  end.

Definition generateTokens (u : User) : M Tokens :=
  let payload :=
    {| sub := Some (id u);
       jwt_email := email u;
       roles := map (fun ur => role_name (role ur)) (userRoles u);
       iat := None;
       exp := None |} in
  accessToken <- jwt.sign payload (jwtSecret this)
                          JWT_CONFIG.ACCESS_TOKEN_EXPIRES_IN ;;
  refreshToken <- randomBytes64Hex ;;
  ret {| accessToken := accessToken;
         tok_refreshToken := refreshToken;
         expiresIn := 15 * 60 |}.

Definition createSession (uid : string) (refreshToken : string)
           (rememberMe : bool) : M unit :=
  let expirySeconds :=
    if rememberMe then SESSION_EXPIRY.REMEMBER_ME else SESSION_EXPIRY.DEFAULT in
  now <- newDate ;;
  let expiresAt := now + expirySeconds * 1000 in
  i <- Prisma.nextId ;;
  Prisma.roundTrip (Prisma.session_create i now uid refreshToken expiresAt) ;;
  ret tt.

(** Failures of audit logging are swallowed. *)
Definition logAuditEvent (uid : string) (act : string) : M unit :=
  try_catch
    (now <- newDate ;;
     Prisma.roundTrip (Prisma.auditLog_create uid act now) ;;
     ret tt)
    (fun _ => ret tt).

Definition register (data : RegisterRequest) : M AuthResponse :=
  existingUser <-
    Prisma.user_findFirst
      (Prisma.whereOr
         (Prisma.emailIs (reg_email data)
          :: match reg_username data with
             | Some n => if truthy n then [Prisma.usernameIs n] else []
             | None => []
             end)) ;;
  match existingUser with
  | Some eu =>
      if String.eqb (email eu) (reg_email data)
      then throw (EApi (UnauthorizedError AUTH_ERRORS.EMAIL_ALREADY_EXISTS))
      else if username_strict_eq (username eu) (reg_username data)
      then throw (EApi (UnauthorizedError AUTH_ERRORS.USERNAME_ALREADY_EXISTS))
      else ret tt
  | None => ret tt
  end ;;
  hashedPassword <- bcrypt.hash (reg_password data) (saltRounds this) ;;
  i <- Prisma.nextId ;;
  now <- newDate ;;
  u <- Prisma.roundTrip
         (Prisma.user_create i now (reg_email data) (reg_username data)
                             hashedPassword
                             (reg_firstName data) (reg_lastName data)) ;;
  tokens <- generateTokens u ;;
  createSession (id u) (tok_refreshToken tokens) false ;;
  logAuditEvent (id u) "register" ;;
  ret {| user := transformUserToResponse u; tokens := tokens |}.

Definition login (data : LoginRequest) : M AuthResponse :=
  found <- Prisma.user_findUnique_email (login_email data) ;;
  match found with
  | None => throw (EApi (UnauthorizedError AUTH_ERRORS.INVALID_CREDENTIALS))
  | Some u =>
      if negb (isActive u)
      then throw (EApi (UnauthorizedError AUTH_ERRORS.USER_INACTIVE))
      else
        isValidPassword <- bcrypt.compare (login_password data) (password u) ;;
        if negb isValidPassword
        then throw (EApi (UnauthorizedError AUTH_ERRORS.INVALID_CREDENTIALS))
        else
          now <- newDate ;;
          Prisma.roundTrip (Prisma.user_update (id u) (Prisma.set_lastLogin now)) ;;
          tokens <- generateTokens u ;;
          createSession (id u) (tok_refreshToken tokens) (rememberMe data) ;;
          logAuditEvent (id u) "login" ;;
          ret {| user := transformUserToResponse u; tokens := tokens |}
  end.

Definition refreshToken (data : RefreshTokenRequest) : M AuthResponse :=
  found <- Prisma.session_findUnique_refreshToken_include_user
             (req_refreshToken data) ;;
  now <- newDate ;;
  match found with
  | None => throw (EApi (UnauthorizedError AUTH_ERRORS.INVALID_TOKEN))
  | Some (session, owner) =>
      if isRevoked session || (expiresAt session <? now)
      then throw (EApi (UnauthorizedError AUTH_ERRORS.INVALID_TOKEN))
      else
        match owner with
        | None => throw (ETypeError "session.user is null")
        | Some u =>
            if negb (isActive u)
            then throw (EApi (UnauthorizedError AUTH_ERRORS.USER_INACTIVE))
            else
              tokens <- generateTokens u ;;
              updatedAt <- newDate ;;
              Prisma.roundTrip
                (Prisma.session_update_refreshToken
                   (session_id session) (tok_refreshToken tokens) updatedAt) ;;
              ret {| user := transformUserToResponse u; tokens := tokens |}
        end
  end.

Definition logout (refreshToken : string) : M unit :=
  found <- Prisma.session_findUnique_refreshToken refreshToken ;;
  match found with
  | Some session =>
      Prisma.roundTrip (Prisma.session_update_isRevoked (session_id session) true) ;;
      logAuditEvent (userId session) "logout"
  | None => ret tt
  end.

Definition changePassword (uid : string) (data : ChangePasswordRequest)
  : M unit :=
  found <- Prisma.user_findUnique_id uid ;;
  match found with
  | None => throw (EApi (NotFoundError AUTH_ERRORS.USER_NOT_FOUND))
  | Some u =>
      isValidPassword <- bcrypt.compare (currentPassword data) (password u) ;;
      if negb isValidPassword
      then throw (EApi (UnauthorizedError "Current password is incorrect"))
      else
        hashedPassword <- bcrypt.hash (newPassword data) (saltRounds this) ;;
        Prisma.transaction
          (Prisma.roundTrip
             (Prisma.user_update uid (Prisma.set_password hashedPassword)) ;;
           Prisma.roundTrip (Prisma.session_updateMany_revoke uid) ;;
           ret tt) ;;
        logAuditEvent uid "password_change"
  end.

Definition verifyToken (token : string) : M User :=
  try_catch
    (decoded <- jwt.verify token (jwtSecret this) ;;
     match sub decoded with
     | Some subject =>
         if negb (truthy subject)
         then throw (EApi (UnauthorizedError AUTH_ERRORS.INVALID_TOKEN))
         else
           found <- Prisma.user_findUnique_id subject ;;
           match found with
           | Some u =>
               if negb (isActive u)
               then throw (EApi (UnauthorizedError AUTH_ERRORS.USER_NOT_FOUND))
               else ret u
           | None => throw (EApi (UnauthorizedError AUTH_ERRORS.USER_NOT_FOUND))
           end
     | None => throw (EApi (UnauthorizedError AUTH_ERRORS.INVALID_TOKEN))
     end)
    (fun error =>
       if instanceof_JsonWebTokenError error
       then throw (EApi (UnauthorizedError AUTH_ERRORS.INVALID_TOKEN))
       else if instanceof_TokenExpiredError error
       then throw (EApi (UnauthorizedError AUTH_ERRORS.TOKEN_EXPIRED))
       else throw error).

Definition cleanExpiredSessions : M unit :=
  now <- newDate ;;
  Prisma.roundTrip (Prisma.session_deleteMany_expired_or_revoked now) ;;
  ret tt.

End Methods.
End AuthService.

(* ===================================================================== *)
(** ** common/middlewares/authMiddleware.ts *)
(* ===================================================================== *)

(** The part of an Express request the middlewares touch: the
    [Authorization] header and the attached user.  A middleware returns
    the request it hands to [next()], or throws the error it hands to
    [next(error)]. *)
Record Request := mkRequest {
  authorization : option string;
  req_user : option User
}.

Module AuthMiddleware.

Definition attach (u : User) (req : Request) : Request :=
  mkRequest (authorization req) (Some u).

(** [authHeader.substring(7)] *)
Definition substring7 (s : string) : string :=
  String.substring 7 (String.length s - 7) s.

Section Middlewares.
Context {J : JwtCodec}.
Variable authService : AuthService.

Definition authenticate (req : Request) : M Request :=
  match authorization req with
  | Some authHeader =>
      if negb (truthy authHeader) || negb (String.prefix "Bearer " authHeader)
      then throw (EApi (UnauthorizedError AUTH_ERRORS.UNAUTHORIZED))
      else
        let token := substring7 authHeader in
        if negb (truthy token)
        then throw (EApi (UnauthorizedError AUTH_ERRORS.UNAUTHORIZED))
        else
          u <- AuthService.verifyToken authService token ;;
          ret (attach u req)
  | None => throw (EApi (UnauthorizedError AUTH_ERRORS.UNAUTHORIZED))
  end.

Definition authorize (roles : list string) (req : Request) : Result Request :=
  match req_user req with
  | None => Throw (EApi (UnauthorizedError AUTH_ERRORS.UNAUTHORIZED))
  | Some u =>
      if negb (userHasAnyRole u roles)
      then Throw (EApi (UnauthorizedError AUTH_ERRORS.INSUFFICIENT_PERMISSIONS))
      else Ok req
  end.

Definition adminOnly : Request -> Result Request := authorize ["admin"].

Definition optionalAuth (req : Request) : M Request :=
  match authorization req with
  | Some authHeader =>
      if truthy authHeader && String.prefix "Bearer " authHeader
      then
        let token := substring7 authHeader in
        if truthy token
        then try_catch
               (u <- AuthService.verifyToken authService token ;;
                ret (attach u req))
               (fun _ => ret req)
        else ret req
      else ret req
  | None => ret req
  end.

Definition isAdmin (req : Request) : Result bool :=
  match req_user req with
  | Some u => Ok (userHasAnyRole u ["admin"])
  | None => Throw (ETypeError "user is undefined")
  end.

Definition getCurrentUser (req : Request) : option User := req_user req.

End Middlewares.
End AuthMiddleware.

(* ===================================================================== *)
(** ** common/middlewares/errorHandlers.ts and common/types/ApiResponse.ts *)
(* ===================================================================== *)

(** The error envelope of [ApiResponse] ([timestamp] and [details] left
    out). *)
Record ApiResponse := mkApiResponse {
  success : bool;
  resp_message : string;
  error_code : string
}.

Definition createErrorResponse (msg code : string) : ApiResponse :=
  mkApiResponse false msg code.

(** What [res.status(...).json(...)] sends. *)
Record HttpResponse := mkHttpResponse {
  status : Z;
  body : ApiResponse
}.

(** The centralized responder: a [ValidationError] is answered with 400,
    any other [ApiError] with its own status, message and code, and
    everything else the flow can throw with 500. *)
Definition errorHandler (err : Exn) : HttpResponse :=
  match err with
  | EApi e =>
      if String.eqb (name e) "ValidationError"
      then mkHttpResponse HttpStatusCodes.BAD_REQUEST
             (createErrorResponse "Validation failed" "VALIDATION_ERROR")
      else mkHttpResponse (statusCode e)
             (createErrorResponse (message e) (code e))
  | _ =>
      mkHttpResponse HttpStatusCodes.INTERNAL_SERVER_ERROR
        (createErrorResponse "Internal server error" "INTERNAL_SERVER_ERROR")
  end.

(* ===================================================================== *)
(** ** A reference implementation of the external libraries

    A small length-prefixed wire format that satisfies [JwtCodecLaws],
    and a salted hash.  It shows that the contract assumed of the
    libraries is consistent, and lets the methods run on concrete
    worlds. *)
(* ===================================================================== *)

Module Reference.

Local Open Scope string_scope.

(** [n] in unary: [n] ones and a closing zero. *)
Fixpoint unary (n : nat) : string :=
  match n with
  | O => "0"
  | S k => String "1" (unary k)
  end.

Fixpoint read_unary (s : string) : option (nat * string) :=
  match s with
  | EmptyString => None
  | String c r =>
      if Ascii.eqb c "1"
      then match read_unary r with
           | Some (n, r') => Some (S n, r')
           | None => None
           end
      else if Ascii.eqb c "0" then Some (O, r) else None
  end.

Fixpoint read_chars (n : nat) (s : string) : option (string * string) :=
  match n with
  | O => Some ("", s)
  | S k =>
      match s with
      | EmptyString => None
      | String c r =>
          match read_chars k r with
          | Some (a, r') => Some (String c a, r')
          | None => None
          end
      end
  end.

(** A string, prefixed with its length. *)
Definition frame (s : string) : string := unary (String.length s) ++ s.

Definition read_frame (s : string) : option (string * string) :=
  match read_unary s with
  | Some (n, r) => read_chars n r
  | None => None
  end.

Definition write_Z (z : Z) : string :=
  (if (z <? 0)%Z then "-" else "+") ++ unary (Z.abs_nat z).

Definition read_Z (s : string) : option (Z * string) :=
  match s with
  | EmptyString => None
  | String c r =>
      match read_unary r with
      | Some (n, r') =>
          if Ascii.eqb c "-" then Some ((- Z.of_nat n)%Z, r')
          else if Ascii.eqb c "+" then Some (Z.of_nat n, r')
          else None
      | None => None
      end
  end.

Definition write_opt {A} (wr : A -> string) (o : option A) : string :=
  match o with
  | Some a => String "S" (wr a)
  | None => "N"
  end.

Definition read_opt {A} (rd : string -> option (A * string)) (s : string)
  : option (option A * string) :=
  match s with
  | EmptyString => None
  | String c r =>
      if Ascii.eqb c "S"
      then match rd r with
           | Some (a, r') => Some (Some a, r')
           | None => None
           end
      else if Ascii.eqb c "N" then Some (None, r) else None
  end.

Fixpoint write_frames (l : list string) : string :=
  match l with
  | [] => ""
  | x :: t => frame x ++ write_frames t
  end.

Fixpoint read_frames (n : nat) (s : string) : option (list string * string) :=
  match n with
  | O => Some ([], s)
  | S k =>
      match read_frame s with
      | Some (x, r) =>
          match read_frames k r with
          | Some (t, r') => Some (x :: t, r')
          | None => None
          end
      | None => None
      end
  end.

Definition write_list (l : list string) : string :=
  unary (List.length l) ++ write_frames l.

Definition read_list (s : string) : option (list string * string) :=
  match read_unary s with
  | Some (n, r) => read_frames n r
  | None => None
  end.

(** The token: the key, then the claims in order. *)
Definition encode (p : JwtPayload) (k : string) : string :=
  frame k ++ write_opt frame (sub p) ++ frame (jwt_email p)
    ++ write_list (roles p) ++ write_opt write_Z (iat p)
    ++ write_opt write_Z (exp p).

Definition decode (t k : string) : option JwtPayload :=
  match read_frame t with
  | Some (k', r1) =>
      if String.eqb k' k then
        match read_opt read_frame r1 with
        | Some (s, r2) =>
            match read_frame r2 with
            | Some (e, r3) =>
                match read_list r3 with
                | Some (rs, r4) =>
                    match read_opt read_Z r4 with
                    | Some (i, r5) =>
                        match read_opt read_Z r5 with
                        | Some (x, EmptyString) => Some (mkJwtPayload s e rs i x)
                        | _ => None
                        end
                    | None => None
                    end
                | None => None
                end
            | None => None
            end
        | None => None
        end
      else None
  | None => None
  end.

Definition codec : JwtCodec :=
  {| jwt_encode := encode; jwt_decode := decode |}.

(** A salted hash: the salt in a frame, then the password. *)
Definition hasher : Bcrypt :=
  {| bcrypt_hash := fun pw _ salt => frame salt ++ pw;
     bcrypt_compare := fun pw h =>
       match read_frame h with
       | Some (_, rest) => String.eqb rest pw
       | None => false
       end |}.

End Reference.

(* ===================================================================== *)
(** ** Vocabulary of the properties *)
(* ===================================================================== *)

(** The store answers every round trip of the request. *)
Definition healthy (w : World) : Prop :=
  Forall (fun b => b = false) (faults w).

(** The world once a round trip has been answered. *)
Definition answered (w : World) : World := set_faults (tl (faults w)) w.

(** The role names an identity holds. *)
Definition roleNames (u : User) : list string :=
  map (fun ur => role_name (role ur)) (userRoles u).

(** The uniqueness constraints of the session table: the id is the
    primary key, and the refresh-token string is unique, as
    [findUnique({ where: { refreshToken } })] presupposes. *)
Definition sessions_unique (d : Database) : Prop :=
  NoDup (map session_id (sessions d)) /\ NoDup (map refreshToken (sessions d)).

(** A computation keeps a property of the tables: it holds of the store
    it leaves, whatever the outcome, when it held of the store it
    found. *)
Definition preserves {A} (P : Database -> Prop) (m : M A) : Prop :=
  forall w, P (db w) -> P (db (snd (m w))).

(** A result is an [UnauthorizedError] (401, code UNAUTHORIZED). *)
Definition is_unauthorized {A} (r : Result A) : Prop :=
  exists msg, r = Throw (EApi (UnauthorizedError msg)).

(** A result is a [ConflictError] (409, code CONFLICT). *)
Definition is_conflict {A} (r : Result A) : Prop :=
  exists msg, r = Throw (EApi (ConflictError msg)).

(** The password change applied to the user table and the revocation
    applied to the session table. *)
Definition with_password (uid h : string) (us : list User) : list User :=
  map (fun x => if Prisma.idIs uid x then Prisma.set_password h x else x) us.

Definition revoke_all (uid : string) (ss : list Session) : list Session :=
  map (fun s => if String.eqb (userId s) uid && negb (isRevoked s)
                then Prisma.set_isRevoked true s else s) ss.

(** The response of a successful refresh for owner [u] in world [w]. *)
Definition refreshed {J : JwtCodec} (svc : AuthService) (u : User) (w : World)
  : AuthResponse :=
  {| user := transformUserToResponse u;
     tokens :=
       {| accessToken :=
            jwt_encode
              (mkJwtPayload (Some (id u)) (email u) (roleNames u)
                            (Some (clock w / 1000))
                            (Some (clock w / 1000 + 900)))
              (jwtSecret svc);
          tok_refreshToken := entropy w (drawn w);
          expiresIn := 900 |} |}.

(** When [refreshToken] rejects a token, the reason is one of these. *)
Definition refresh_rejected (token : string) (w : World) : Prop :=
  find (Prisma.refreshTokenIs token) (sessions (db w)) = None
  \/ exists s,
       find (Prisma.refreshTokenIs token) (sessions (db w)) = Some s
       /\ (isRevoked s = true
           \/ expiresAt s < clock w
           \/ exists u, find (Prisma.idIs (userId s)) (users (db w)) = Some u
                        /\ isActive u = false).

(** The two writes of [changePassword], as run inside the
    transaction. *)
Definition password_writes (uid h : string) : M unit :=
  (Prisma.roundTrip (Prisma.user_update uid (Prisma.set_password h)) ;;
   Prisma.roundTrip (Prisma.session_updateMany_revoke uid) ;;
   ret tt)%async.

(** The [where] clause of the lookup in [register]. *)
Definition taken_clause (data : RegisterRequest) : User -> bool :=
  Prisma.whereOr
    (Prisma.emailIs (reg_email data)
     :: match reg_username data with
        | Some n => if truthy n then [Prisma.usernameIs n] else []
        | None => []
        end).

(** The email of the request, or its non-empty username, is already
    held by a stored identity. *)
Definition already_taken (data : RegisterRequest) (d : Database) : Prop :=
  existsb (Prisma.emailIs (reg_email data)) (users d) = true
  \/ exists n, reg_username data = Some n /\ n <> ""
               /\ existsb (Prisma.usernameIs n) (users d) = true.

(* ===================================================================== *)
(** ** Sample data *)
(* ===================================================================== *)

Module Sample.

Local Open Scope string_scope.

Definition admin : Role := mkRole "r1" "admin" "Administrator".
Definition member : Role := mkRole "r2" "user" "User".

Definition service : AuthService := mkAuthService "s3cret" 12.

Definition alice : User :=
  mkUser "u1" "alice@example.com" (Some "alice")
         (@bcrypt_hash Reference.hasher "password123!" 12 "salt")
         (Some "Alice") None true 10 10 None [mkUserRole admin].

Definition bob : User :=
  mkUser "u2" "bob@example.com" None
         (@bcrypt_hash Reference.hasher "hunter2hunter2" 12 "pepper")
         None None false 20 20 None [mkUserRole member].

Definition carol : User :=
  mkUser "u3" "carol@example.com" (Some "carol")
         (@bcrypt_hash Reference.hasher "correct horse" 12 "sugar")
         None None true 30 30 None [mkUserRole member].

Definition s1 : Session := mkSession "s1" "u1" "rt-alice" 5000 false 100 100.
Definition s2 : Session := mkSession "s2" "u3" "rt-carol" 9000 false 200 200.
Definition s3 : Session := mkSession "s3" "u1" "rt-alice-old" 7000 true 50 60.

Definition tables : Database := mkDatabase [alice; bob; carol] [s1; s2; s3] [].

(** Clock at 4000 ms, the store always up. *)
Definition world : World :=
  mkWorld tables 4000 []
          (fun n => "rnd-" ++ Reference.unary n) 0
          (fun n => "id-" ++ Reference.unary n) 0.

(** The same world at the very millisecond session [s1] expires. *)
Definition world_at_expiry : World :=
  mkWorld tables 5000 []
          (fun n => "rnd-" ++ Reference.unary n) 0
          (fun n => "id-" ++ Reference.unary n) 0.

(** The same world with an outage schedule. *)
Definition world_with_faults (fs : list bool) : World := set_faults fs world.

Definition claims_of (u : User) (i e : Z) : JwtPayload :=
  mkJwtPayload (Some (id u)) (email u) (roleNames u) (Some i) (Some e).

(** An access token of carol issued at second 4 of the clock. *)
Definition carol_token : string :=
  @jwt_encode Reference.codec (claims_of carol 4 904) "s3cret".

(** An access token of alice that expired at second 3. *)
Definition stale_token : string :=
  @jwt_encode Reference.codec (claims_of alice (-897) 3) "s3cret".

Definition bearer (t : string) : Request :=
  mkRequest (Some ("Bearer " ++ t)) None.

(** The methods of the sample service over the reference libraries. *)
Definition register := @AuthService.register Reference.hasher Reference.codec service.
Definition login := @AuthService.login Reference.hasher Reference.codec service.
Definition refreshToken := @AuthService.refreshToken Reference.codec service.
Definition changePassword := @AuthService.changePassword Reference.hasher service.
Definition verifyToken := @AuthService.verifyToken Reference.codec service.
Definition generateTokens := @AuthService.generateTokens Reference.codec service.
Definition authenticate := @AuthMiddleware.authenticate Reference.codec service.

(** A registration that reuses the email of alice. *)
Definition duplicate_email : RegisterRequest :=
  mkRegisterRequest "alice@example.com" "a-new-password" None None (Some "alice2").

(** A registration with an email and a username nobody holds. *)
Definition newcomer : RegisterRequest :=
  mkRegisterRequest "dave@example.com" "davespassword" (Some "Dave") None (Some "dave").

End Sample.

(* ===================================================================== *)
(** ** Further vocabulary: the session ledger over time *)
(* ===================================================================== *)

(** A session that [cleanExpiredSessions] deletes when the clock shows
    [now]. *)
Definition swept (now : Z) (s : Session) : bool :=
  (expiresAt s <? now) || isRevoked s.

(** The verdict of [refreshToken] on a token, read off the tables:
    [true] when the token matches no session, or the session is revoked
    or expired, or its owner is inactive. *)
Definition refresh_refused (token : string) (now : Z) (d : Database) : bool :=
  match find (Prisma.refreshTokenIs token) (sessions d) with
  | None => true
  | Some s =>
      isRevoked s || (expiresAt s <? now)
      || match find (Prisma.idIs (userId s)) (users d) with
         | Some u => negb (isActive u)
         | None => false
         end
  end.

(** The same world over other tables. *)
Definition on_tables (d : Database) (w : World) : World := set_db d w.

(** The lifetime of a session in milliseconds: 7 days, or 30 with
    remember-me. *)
Definition session_lifetime (rememberMe : bool) : Z :=
  (if rememberMe then SESSION_EXPIRY.REMEMBER_ME else SESSION_EXPIRY.DEFAULT) * 1000.

(** The session row that [createSession] inserts in world [w]. *)
Definition opened_session (uid token : string) (rememberMe : bool) (w : World)
  : Session :=
  mkSession (idgen w (issued w)) uid token
            (clock w + session_lifetime rememberMe) false (clock w) (clock w).

(** The next default id and the next refresh token collide with no
    stored session. *)
Definition session_slot_free (w : World) : Prop :=
  existsb (Prisma.sessionIdIs (idgen w (issued w))) (sessions (db w)) = false
  /\ existsb (Prisma.refreshTokenIs (entropy w (drawn w))) (sessions (db w)) = false.

(** The user table after [login] stamped the last login of [u]. *)
Definition stamped (u : User) (now : Z) (us : list User) : list User :=
  map (fun x => if Prisma.idIs (id u) x then Prisma.set_lastLogin now x else x) us.

(** The contract of [bcryptjs] used below: a password checks against
    any hash made from it. *)
Class BcryptLaws (B : Bcrypt) : Prop := {
  bcrypt_compare_hash :
    forall pw rounds salt, bcrypt_compare pw (bcrypt_hash pw rounds salt) = true
}.

(** The user row that [register] inserts in world [w]: the first block
    of the random generator is the salt of the hash. *)
Definition registered_user {B : Bcrypt} (svc : AuthService)
           (data : RegisterRequest) (w : World) : User :=
  mkUser (idgen w (issued w)) (reg_email data) (reg_username data)
         (bcrypt_hash (reg_password data) (saltRounds svc) (entropy w (drawn w)))
         (reg_firstName data) (reg_lastName data)
         true (clock w) (clock w) None [].

(** The session row that [register] inserts in world [w]: the second
    default id, the second block of the random generator. *)
Definition registered_session (w : World) : Session :=
  mkSession (idgen w (S (issued w))) (idgen w (issued w))
            (entropy w (S (drawn w)))
            (clock w + session_lifetime false) false (clock w) (clock w).

(** Nothing stored stands in the way of the registration [data] in
    world [w]: email and username are not held, and the ids and the
    token about to be used are not stored. *)
Definition registration_free (data : RegisterRequest) (w : World) : Prop :=
  existsb (Prisma.emailIs (reg_email data)) (users (db w)) = false
  /\ match reg_username data with
     | Some n => existsb (Prisma.usernameIs n) (users (db w))
     | None => false
     end = false
  /\ existsb (Prisma.idIs (idgen w (issued w))) (users (db w)) = false
  /\ existsb (Prisma.sessionIdIs (idgen w (S (issued w)))) (sessions (db w)) = false
  /\ existsb (Prisma.refreshTokenIs (entropy w (S (drawn w)))) (sessions (db w)) = false.

(** A table grows: its rows are still there, in order, each one evolved
    by [E], and rows may have been added at the end. *)
Definition grows {A} (E : A -> A -> Prop) (l l' : list A) : Prop :=
  exists kept added, l' = (kept ++ added)%list /\ Forall2 E l kept.

(** What may happen to a session row: the token and the update time may
    change and the row may become revoked; id, owner, expiry and
    creation time stay, and a revoked row stays revoked. *)
Definition session_evolves (s s' : Session) : Prop :=
  session_id s' = session_id s
  /\ userId s' = userId s
  /\ expiresAt s' = expiresAt s
  /\ session_createdAt s' = session_createdAt s
  /\ (isRevoked s = true -> isRevoked s' = true).

(** What may happen to a user row: only the password hash and the last
    login may change. *)
Definition user_evolves (u u' : User) : Prop :=
  id u' = id u
  /\ email u' = email u
  /\ username u' = username u
  /\ firstName u' = firstName u
  /\ lastName u' = lastName u
  /\ isActive u' = isActive u
  /\ createdAt u' = createdAt u
  /\ updatedAt u' = updatedAt u
  /\ userRoles u' = userRoles u.

(** The store evolves: users and sessions grow, and the audit log is
    extended. *)
Definition store_evolves (d d' : Database) : Prop :=
  grows user_evolves (users d) (users d')
  /\ grows session_evolves (sessions d) (sessions d')
  /\ exists added, auditLogs d' = (auditLogs d ++ added)%list.

(** Every exception a computation can throw is of the kind [C]. *)
Definition throws_only {A} (C : Exn -> Prop) (m : M A) : Prop :=
  forall w e, fst (m w) = Throw e -> C e.

(** The kinds of exception of the service. *)
Definition unauthorized_error (e : Exn) : Prop :=
  exists msg, e = EApi (UnauthorizedError msg).

Definition not_found_error (e : Exn) : Prop :=
  exists msg, e = EApi (NotFoundError msg).

Definition store_error (e : Exn) : Prop :=
  exists c, e = EPrisma c.

Definition type_error (e : Exn) : Prop :=
  exists msg, e = ETypeError msg.

Definition jwt_error (e : Exn) : Prop :=
  exists c msg, e = EJwt c msg.

(** The same world at another time of the clock. *)
Definition at_time (now : Z) (w : World) : World :=
  mkWorld (db w) now (faults w) (entropy w) (drawn w) (idgen w) (issued w).

(* ===================================================================== *)
(** ** routes/AuthRoutes.ts: the routes without body validation *)
(* ===================================================================== *)

(** A value as JavaScript holds it after [express.json()] parsed the
    body; [JsUndefined] is a body that was not parsed, or a property
    that is not there.  The own properties of an object are listed
    once each. *)
#[warnings="-register-all"]
Inductive JsValue :=
| JsUndefined
| JsNull
| JsBoolean (b : bool)
| JsNumber (x : SpecFloat.spec_float)
| JsString (s : string)
| JsArray (items : list JsValue)
| JsObject (fields : list (string * JsValue)).

(** The test of [if (v)]: [undefined], [null], [false], zero, [NaN] and
    the empty string are falsy, everything else is truthy. *)
Definition js_truthy (v : JsValue) : bool :=
  match v with
  | JsUndefined | JsNull => false
  | JsBoolean b => b
  | JsNumber (SpecFloat.S754_zero _) | JsNumber SpecFloat.S754_nan => false
  | JsNumber _ => true
  | JsString s => truthy s
  | JsArray _ | JsObject _ => true
  end.

Module AuthRoutes.

(** The [data] of a success envelope. *)
Inductive Payload :=
| DataNull
| DataUser (u : User)
| DataAuth (r : AuthResponse).

(** [createSuccessResponse(data, message)] of common/types/ApiResponse.ts
    ([timestamp] left out). *)
Record SuccessResponse := mkSuccessResponse {
  sr_success : bool;
  sr_message : string;
  sr_data : Payload
}.

Definition createSuccessResponse (data : Payload) (msg : string)
  : SuccessResponse :=
  mkSuccessResponse true msg data.

(** What the client receives: the status and envelope a handler sent,
    or the answer of [errorHandler]. *)
Inductive Reply :=
| Sent (st : Z) (b : SuccessResponse)
| Failed (r : HttpResponse).

(** The chain of a route: an error a middleware hands to [next], or one
    that [asyncHandler] catches, ends at [errorHandler]. *)
Definition respond (chain : M Reply) (w : World) : Reply * World :=
  match chain w with
  | (Ok r, w') => (r, w')
  | (Throw e, w') => (Failed (errorHandler e), w')
  end.

(** [req.body.refreshToken]: reading the property of [undefined] or
    [null] is a [TypeError]; an object gives the property, or
    [undefined] when it has none of that name; strings, numbers,
    booleans and arrays have no property of that name. *)
Definition body_refreshToken (body : JsValue) : M JsValue :=
  match body with
  | JsUndefined | JsNull =>
      throw (ETypeError "Cannot read properties of undefined")
  | JsObject fields =>
      match find (fun kv => String.eqb (fst kv) "refreshToken") fields with
      | Some (_, v) => ret v
      | None => ret JsUndefined
      end
  | _ => ret JsUndefined
  end.

(** The error of the Prisma client for a [where] value of the wrong
    type: an [Error] that is no [ApiError]. *)
Definition PrismaClientValidationError : Exn :=
  EError "PrismaClientValidationError".

Section Routes.
Context {J : JwtCodec}.
Variable authService : AuthService.

(** POST /auth/logout, behind [authenticate].  The route validates
    nothing: [body] is [req.body] as it came, and whatever truthy value
    its [refreshToken] holds is handed to [authService.logout], where
    [prisma.session.findUnique] takes a string and rejects anything
    else. *)
Definition logout (body : JsValue) (req : Request)
  : World -> Reply * World :=
  respond
    (AuthMiddleware.authenticate authService req ;;
     refreshToken <- body_refreshToken body ;;
     (if js_truthy refreshToken
      then match refreshToken with
           | JsString t => AuthService.logout t
           | _ => throw PrismaClientValidationError
           end
      else ret tt) ;;
     ret (Sent 200 (createSuccessResponse DataNull "Logout successful"))).

(** GET /auth/me, behind [authenticate]. *)
Definition me (req : Request) : World -> Reply * World :=
  respond
    (req' <- AuthMiddleware.authenticate authService req ;;
     match AuthMiddleware.getCurrentUser req' with
     | Some user =>
         ret (Sent 200 (createSuccessResponse
                          (DataUser user) "Profile retrieved successfully"))
     | None => throw (ETypeError "user is undefined")
     end).

End Routes.
End AuthRoutes.

(* ===================================================================== *)
(** ** Round trips on a healthy store *)
(* ===================================================================== *)

Lemma healthy_answered w : healthy w -> healthy (answered w).
Proof.
  unfold healthy, answered. destruct w as [d c fs en dr ig isd]; simpl.
  intros H. destruct H; simpl; auto.
Qed.

Lemma healthy_set_db d w : healthy w -> healthy (set_db d w).
Proof. unfold healthy; destruct w; simpl; auto. Qed.

Lemma healthy_set_drawn n w : healthy w -> healthy (set_drawn n w).
Proof. unfold healthy; destruct w; simpl; auto. Qed.

Lemma healthy_set_issued n w : healthy w -> healthy (set_issued n w).
Proof. unfold healthy; destruct w; simpl; auto. Qed.

Create HintDb healthy.

#[local] Hint Resolve healthy_answered healthy_set_db healthy_set_drawn
  healthy_set_issued : healthy.

Lemma roundTrip_healthy {A} (q : Database -> Result (A * Database)) w :
  healthy w ->
  Prisma.roundTrip q w =
    match q (db w) with
    | Ok (a, d) => (Ok a, set_db d (answered w))
    | Throw e => (Throw e, answered w)
    end.
Proof.
  unfold healthy, Prisma.roundTrip, answered. intros H.
  destruct (faults w) as [|[|] fs] eqn:E; try reflexivity.
  inversion H; discriminate.
Qed.

Lemma query_healthy {A} (f : Database -> A) w :
  healthy w -> Prisma.query f w = (Ok (f (db w)), set_db (db w) (answered w)).
Proof. intros H. unfold Prisma.query. now rewrite roundTrip_healthy. Qed.

Lemma db_set_db d w : db (set_db d w) = d.
Proof. reflexivity. Qed.

Lemma db_answered w : db (answered w) = db w.
Proof. reflexivity. Qed.

Lemma set_db_same w : set_db (db w) w = w.
Proof. now destruct w. Qed.

(* ===================================================================== *)
(** ** login *)
(* ===================================================================== *)

Section LoginProperties.
Context {B : Bcrypt} {J : JwtCodec}.
Variable svc : AuthService.

Lemma login_unknown_email data w :
  healthy w ->
  find (Prisma.emailIs (login_email data)) (users (db w)) = None ->
  AuthService.login svc data w =
    (Throw (EApi (UnauthorizedError AUTH_ERRORS.INVALID_CREDENTIALS)),
     set_db (db w) (answered w)).
Proof.
  intros Hw Hnone.
  unfold AuthService.login, bind, Prisma.user_findUnique_email.
  rewrite query_healthy by assumption. now rewrite Hnone.
Qed.

Lemma login_inactive data w u :
  healthy w ->
  find (Prisma.emailIs (login_email data)) (users (db w)) = Some u ->
  isActive u = false ->
  AuthService.login svc data w =
    (Throw (EApi (UnauthorizedError AUTH_ERRORS.USER_INACTIVE)),
     set_db (db w) (answered w)).
Proof.
  intros Hw Hsome Hoff.
  unfold AuthService.login, bind, Prisma.user_findUnique_email.
  rewrite query_healthy by assumption. rewrite Hsome, Hoff. reflexivity.
Qed.

Lemma login_wrong_password data w u :
  healthy w ->
  find (Prisma.emailIs (login_email data)) (users (db w)) = Some u ->
  isActive u = true ->
  bcrypt_compare (login_password data) (password u) = false ->
  AuthService.login svc data w =
    (Throw (EApi (UnauthorizedError AUTH_ERRORS.INVALID_CREDENTIALS)),
     set_db (db w) (answered w)).
Proof.
  intros Hw Hsome Hon Hbad.
  unfold AuthService.login, bind, Prisma.user_findUnique_email.
  rewrite query_healthy by assumption. rewrite Hsome, Hon. simpl.
  unfold bcrypt.compare, ret. now rewrite Hbad.
Qed.

(** C5. A login with an unknown email and a login with a known, active
    email but a password that does not match fail with the same
    error: an [UnauthorizedError] with the same status, code and
    message, and hence the same response to the client. *)
Theorem login_unknown_email_and_wrong_password_indistinguishable
        (d1 d2 : LoginRequest) (w1 w2 : World) (u : User) :
  healthy w1 -> healthy w2 ->
  find (Prisma.emailIs (login_email d1)) (users (db w1)) = None ->
  find (Prisma.emailIs (login_email d2)) (users (db w2)) = Some u ->
  isActive u = true ->
  bcrypt_compare (login_password d2) (password u) = false ->
  exists e : ApiError,
    fst (AuthService.login svc d1 w1) = Throw (EApi e)
    /\ fst (AuthService.login svc d2 w2) = Throw (EApi e)
    /\ name e = "UnauthorizedError"
    /\ statusCode e = 401
    /\ code e = "UNAUTHORIZED"
    /\ message e = "Invalid email or password"
    /\ errorHandler (EApi e)
       = mkHttpResponse 401 (createErrorResponse "Invalid email or password"
                                                 "UNAUTHORIZED").
Proof.
  intros H1 H2 Hnone Hsome Hon Hbad.
  exists (UnauthorizedError AUTH_ERRORS.INVALID_CREDENTIALS).
  rewrite (login_unknown_email d1 w1 H1 Hnone).
  rewrite (login_wrong_password d2 w2 u H2 Hsome Hon Hbad).
  repeat split.
Qed.

(** C10. For an identity whose active flag is false, login fails with
    the [UnauthorizedError] 'Account is deactivated' whatever password
    is supplied: the check of the flag precedes the check of the
    password, so two logins that differ only in the password have the
    same outcome, and that outcome differs from the one for bad
    credentials. *)
Theorem login_inactive_account_ignores_password
        (e : string) (pw1 pw2 : string) (rm : bool) (w : World) (u : User) :
  healthy w ->
  find (Prisma.emailIs e) (users (db w)) = Some u ->
  isActive u = false ->
  fst (AuthService.login svc (mkLoginRequest e pw1 rm) w)
    = Throw (EApi (UnauthorizedError "Account is deactivated"))
  /\ AuthService.login svc (mkLoginRequest e pw1 rm) w
     = AuthService.login svc (mkLoginRequest e pw2 rm) w
  /\ db (snd (AuthService.login svc (mkLoginRequest e pw1 rm) w)) = db w
  /\ UnauthorizedError "Account is deactivated"
     <> UnauthorizedError AUTH_ERRORS.INVALID_CREDENTIALS.
Proof.
  intros Hw Hsome Hoff.
  rewrite (login_inactive (mkLoginRequest e pw1 rm) w u Hw Hsome Hoff).
  rewrite (login_inactive (mkLoginRequest e pw2 rm) w u Hw Hsome Hoff).
  repeat split. discriminate.
Qed.

End LoginProperties.

(* ===================================================================== *)
(** ** verifyToken and generateTokens *)
(* ===================================================================== *)

Section TokenProperties.
Context {J : JwtCodec}.
Variable svc : AuthService.

Lemma verifyToken_malformed token w :
  jwt_decode token (jwtSecret svc) = None ->
  AuthService.verifyToken svc token w =
    (Throw (EApi (UnauthorizedError AUTH_ERRORS.INVALID_TOKEN)), w).
Proof.
  intros Hdec.
  unfold AuthService.verifyToken, try_catch, bind, jwt.verify.
  rewrite Hdec. reflexivity.
Qed.

Lemma verifyToken_expired token w p e :
  jwt_decode token (jwtSecret svc) = Some p ->
  exp p = Some e ->
  e <= clock w / 1000 ->
  AuthService.verifyToken svc token w =
    (Throw (EApi (UnauthorizedError AUTH_ERRORS.INVALID_TOKEN)), w).
Proof.
  intros Hdec Hexp Hle.
  unfold AuthService.verifyToken, try_catch, bind, jwt.verify.
  rewrite Hdec. unfold bind, newDate. rewrite Hexp.
  apply Z.leb_le in Hle. rewrite Hle. reflexivity.
Qed.

Lemma verifyToken_valid token w p subject u :
  healthy w ->
  jwt_decode token (jwtSecret svc) = Some p ->
  (forall e, exp p = Some e -> clock w / 1000 < e) ->
  sub p = Some subject ->
  subject <> "" ->
  find (Prisma.idIs subject) (users (db w)) = Some u ->
  isActive u = true ->
  AuthService.verifyToken svc token w = (Ok u, set_db (db w) (answered w)).
Proof.
  intros Hw Hdec Hfresh Hsub Hne Hfind Hon.
  unfold AuthService.verifyToken, try_catch, bind, jwt.verify.
  rewrite Hdec. unfold bind, newDate.
  assert (Hv : match exp p with
               | Some e => if e <=? clock w / 1000
                           then throw (EJwt TokenExpiredError "jwt expired")
                           else ret p
               | None => ret p
               end w = (Ok p, w)).
  { destruct (exp p) as [e|] eqn:E; [|reflexivity].
    specialize (Hfresh e eq_refl).
    apply Z.leb_gt in Hfresh. now rewrite Hfresh. }
  rewrite Hv, Hsub.
  assert (Ht : truthy subject = true).
  { unfold truthy. apply negb_true_iff. now apply String.eqb_neq. }
  rewrite Ht. simpl. unfold Prisma.user_findUnique_id.
  rewrite query_healthy by assumption. rewrite Hfind, Hon. reflexivity.
Qed.

Lemma query_throws {A} (f : Database -> A) w ex w' :
  Prisma.query f w = (Throw ex, w') -> ex = EPrisma Prisma.P1001.
Proof.
  unfold Prisma.query, Prisma.roundTrip.
  destruct (faults w) as [|[|] fs]; simpl; intros H; now inversion H.
Qed.

(** The expiry branch of the handler in [verifyToken] is never taken:
    whatever token is presented, the outcome is not the error with
    message 'Token has expired'. *)
Lemma verifyToken_never_reports_expired token w :
  fst (AuthService.verifyToken svc token w)
    <> Throw (EApi (UnauthorizedError AUTH_ERRORS.TOKEN_EXPIRED)).
Proof.
  unfold AuthService.verifyToken, try_catch, bind, jwt.verify.
  destruct (jwt_decode token (jwtSecret svc)) as [p|]; [|simpl; discriminate].
  unfold bind, newDate.
  assert (Hrest : forall w0,
    fst (match
          match sub p with
          | Some subject =>
              if negb (truthy subject)
              then throw (EApi (UnauthorizedError AUTH_ERRORS.INVALID_TOKEN))
              else
                fun w1 =>
                  match Prisma.user_findUnique_id subject w1 with
                  | (Ok a, w2) =>
                      match a with
                      | Some u =>
                          if negb (isActive u)
                          then throw (EApi (UnauthorizedError AUTH_ERRORS.USER_NOT_FOUND))
                          else ret u
                      | None => throw (EApi (UnauthorizedError AUTH_ERRORS.USER_NOT_FOUND))
                      end w2
                  | (Throw e, w2) => (Throw e, w2)
                  end
          | None => throw (EApi (UnauthorizedError AUTH_ERRORS.INVALID_TOKEN))
          end w0
        with
        | (Ok a, w1) => (Ok a, w1)
        | (Throw e, w1) =>
            (if instanceof_JsonWebTokenError e
             then throw (EApi (UnauthorizedError AUTH_ERRORS.INVALID_TOKEN))
             else if instanceof_TokenExpiredError e
             then throw (EApi (UnauthorizedError AUTH_ERRORS.TOKEN_EXPIRED))
             else throw e) w1
        end)
    <> Throw (EApi (UnauthorizedError AUTH_ERRORS.TOKEN_EXPIRED))).
  { intros w0. destruct (sub p) as [s|]; simpl; [|discriminate].
    destruct (truthy s); simpl; [|discriminate].
    unfold Prisma.user_findUnique_id.
    destruct (Prisma.query _ w0) as [[[u|]|ex] w1] eqn:Q; simpl;
      try discriminate.
    - destruct (isActive u); simpl; discriminate.
    - apply query_throws in Q. subst ex. simpl. discriminate. }
  destruct (exp p) as [e|].
  - destruct (e <=? clock w / 1000); simpl; [discriminate|]. apply Hrest.
  - apply Hrest.
Qed.

(** C4. An access token that decodes under the secret but whose expiry
    has elapsed makes [verifyToken] throw the [UnauthorizedError]
    'Invalid or expired token', the very error thrown for a malformed
    token, and not the one with message 'Token has expired'. *)
Theorem verifyToken_expired_token_reported_as_invalid
        (token : string) (w : World) (p : JwtPayload) (e : Z) :
  jwt_decode token (jwtSecret svc) = Some p ->
  exp p = Some e ->
  e <= clock w / 1000 ->
  fst (AuthService.verifyToken svc token w)
    = Throw (EApi (UnauthorizedError "Invalid or expired token"))
  /\ (forall bad, jwt_decode bad (jwtSecret svc) = None ->
        AuthService.verifyToken svc bad w = AuthService.verifyToken svc token w)
  /\ fst (AuthService.verifyToken svc token w)
     <> Throw (EApi (UnauthorizedError "Token has expired")).
Proof.
  intros Hdec Hexp Hle.
  rewrite (verifyToken_expired token w p e Hdec Hexp Hle).
  split; [reflexivity|]. split; [|simpl; discriminate].
  intros bad Hbad. now apply verifyToken_malformed.
Qed.

Lemma generateTokens_run u w :
  AuthService.generateTokens svc u w =
    (Ok {| accessToken :=
             jwt_encode
               (mkJwtPayload (Some (id u)) (email u) (roleNames u)
                             (Some (clock w / 1000))
                             (Some (clock w / 1000 + 900)))
               (jwtSecret svc);
           tok_refreshToken := entropy w (drawn w);
           expiresIn := 900 |},
     set_drawn (S (drawn w)) w).
Proof. reflexivity. Qed.

(** C8. Round trip: when an identity that is stored and active is given
    a token pair by [generateTokens], verifying the access token on
    the same store, before the token expires, returns an identity with
    the id and the role names that were written into the claims of the
    token. *)
Theorem generateTokens_verifyToken_roundtrip
        {L : JwtCodecLaws J}
        (u stored : User) (w w1 w2 : World) (issuedTokens : Tokens) :
  AuthService.generateTokens svc u w = (Ok issuedTokens, w1) ->
  find (Prisma.idIs (id u)) (users (db w)) = Some stored ->
  isActive stored = true ->
  userRoles stored = userRoles u ->
  id u <> "" ->
  db w2 = db w1 ->
  healthy w2 ->
  clock w2 / 1000 < clock w / 1000 + JWT_CONFIG.ACCESS_TOKEN_EXPIRES_IN ->
  exists (claims : JwtPayload) (verified : User),
    jwt_decode (accessToken issuedTokens) (jwtSecret svc) = Some claims
    /\ fst (AuthService.verifyToken svc (accessToken issuedTokens) w2) = Ok verified
    /\ sub claims = Some (id u)
    /\ roles claims = roleNames u
    /\ id verified = id u
    /\ roleNames verified = roleNames u.
Proof.
  intros Hgen Hfind Hon Hroles Hid Hdb Hw Hclock.
  rewrite generateTokens_run in Hgen. inversion Hgen; subst; clear Hgen.
  simpl accessToken.
  set (claims := mkJwtPayload (Some (id u)) (email u) (roleNames u)
                              (Some (clock w / 1000))
                              (Some (clock w / 1000 + 900))).
  exists claims, stored.
  assert (Hdec : jwt_decode (jwt_encode claims (jwtSecret svc)) (jwtSecret svc)
                 = Some claims) by apply jwt_decode_encode.
  split; [exact Hdec|].
  assert (Hfind2 : find (Prisma.idIs (id u)) (users (db w2)) = Some stored).
  { rewrite Hdb. exact Hfind. }
  rewrite (verifyToken_valid _ w2 claims (id u) stored Hw Hdec); auto.
  - repeat split.
    + apply find_some in Hfind. destruct Hfind as [_ Heq].
      unfold Prisma.idIs in Heq. now apply String.eqb_eq in Heq.
    + unfold roleNames. now rewrite Hroles.
  - intros e He. inversion He; subst.
    unfold JWT_CONFIG.ACCESS_TOKEN_EXPIRES_IN in Hclock. lia.
Qed.

End TokenProperties.

(* ===================================================================== *)
(** ** authenticate and authorize *)
(* ===================================================================== *)

Section MiddlewareProperties.
Context {J : JwtCodec}.
Variable svc : AuthService.

Lemma includes_In (roleNames : list string) (x : string) :
  includes roleNames x = true <-> In x roleNames.
Proof.
  unfold includes. rewrite existsb_exists. split.
  - intros [y [Hin Heq]]. apply String.eqb_eq in Heq. now subst.
  - intros Hin. exists x. split; [assumption | apply String.eqb_refl].
Qed.

Lemma userHasAnyRole_spec (u : User) (required : list string) :
  userHasAnyRole u required = true
  <-> exists r, In r required /\ In r (roleNames u).
Proof.
  unfold userHasAnyRole, roleNames. rewrite existsb_exists. split.
  - intros [ur [Hin Hinc]]. apply includes_In in Hinc.
    exists (role_name (role ur)). split; [assumption|].
    apply in_map_iff. now exists ur.
  - intros [r [Hreq Hheld]]. apply in_map_iff in Hheld.
    destruct Hheld as [ur [Heq Hin]]. exists ur. split; [assumption|].
    apply includes_In. now rewrite Heq.
Qed.

(** A request that [authenticate] lets through carries the identity
    that [verifyToken] returned. *)
Lemma authenticate_attaches req w req' w' :
  AuthMiddleware.authenticate svc req w = (Ok req', w') ->
  exists token u,
    AuthService.verifyToken svc token w = (Ok u, w')
    /\ req' = AuthMiddleware.attach u req.
Proof.
  unfold AuthMiddleware.authenticate.
  destruct (authorization req) as [h|]; [|discriminate].
  destruct (negb (truthy h) || negb (String.prefix "Bearer " h)); [discriminate|].
  destruct (negb (truthy (AuthMiddleware.substring7 h))); [discriminate|].
  unfold bind.
  destruct (AuthService.verifyToken svc (AuthMiddleware.substring7 h) w)
    as [[u|ex] w1] eqn:V; [|discriminate].
  unfold ret. intros H. inversion H; subst.
  now exists (AuthMiddleware.substring7 h), u.
Qed.

Lemma authorize_attached (required : list string) (u : User) (req : Request) :
  AuthMiddleware.authorize required (AuthMiddleware.attach u req) =
    if userHasAnyRole u required
    then Ok (AuthMiddleware.attach u req)
    else Throw (EApi (UnauthorizedError AUTH_ERRORS.INSUFFICIENT_PERMISSIONS)).
Proof.
  unfold AuthMiddleware.authorize, AuthMiddleware.attach. cbn [req_user].
  now destruct (userHasAnyRole u required).
Qed.

(** C9. After [authenticate], [authorize required] passes the request
    on exactly when the attached identity holds at least one of the
    required role names, and otherwise throws the [UnauthorizedError]
    'Insufficient permissions' (401). *)
Theorem authorize_passes_iff_some_required_role
        (required : list string) (req req' : Request) (w w' : World) :
  AuthMiddleware.authenticate svc req w = (Ok req', w') ->
  exists u : User,
    req_user req' = Some u
    /\ (AuthMiddleware.authorize required req' = Ok req'
        <-> exists r, In r required /\ In r (roleNames u))
    /\ (~ (exists r, In r required /\ In r (roleNames u)) ->
        AuthMiddleware.authorize required req'
          = Throw (EApi (UnauthorizedError "Insufficient permissions"))
        /\ status (errorHandler (EApi (UnauthorizedError "Insufficient permissions")))
           = 401).
Proof.
  intros Hauth.
  destruct (authenticate_attaches req w req' w' Hauth) as [token [u [_ Hreq]]].
  exists u. subst req'. split; [reflexivity|].
  rewrite authorize_attached.
  destruct (userHasAnyRole u required) eqn:Hany.
  - apply userHasAnyRole_spec in Hany.
    split; [split; [intros _; exact Hany | reflexivity]|].
    intros Hno. contradiction.
  - assert (Hno : ~ (exists r, In r required /\ In r (roleNames u))).
    { intros Hyes. apply userHasAnyRole_spec in Hyes. congruence. }
    split.
    + split; [discriminate | intros Hyes; contradiction].
    + intros _. split; reflexivity.
Qed.

End MiddlewareProperties.

(* ===================================================================== *)
(** ** Lookups in a table *)
(* ===================================================================== *)

Section TableLemmas.
Context {A : Type}.

Lemma find_map_stable (f : A -> bool) (g : A -> A) (l : list A) :
  (forall x, f (g x) = f x) ->
  find f (map g l) = option_map g (find f l).
Proof.
  intros Hfg. induction l as [|x l IH]; simpl; [reflexivity|].
  rewrite Hfg. destruct (f x); [reflexivity | exact IH].
Qed.

Lemma find_exists (f : A -> bool) (l : list A) (x : A) :
  In x l -> f x = true -> exists y, find f l = Some y.
Proof.
  intros Hin Hfx. destruct (find f l) as [y|] eqn:E; [now exists y|].
  now rewrite (find_none f l E x Hin) in Hfx.
Qed.

Lemma find_none_iff (f : A -> bool) (l : list A) :
  find f l = None <-> existsb f l = false.
Proof.
  induction l as [|x l IH]; simpl; [tauto|].
  destruct (f x); simpl; [split; discriminate | exact IH].
Qed.

Lemma NoDup_map_eq {K : Type} (key : A -> K) (l : list A) (x y : A) :
  NoDup (map key l) -> In x l -> In y l -> key x = key y -> x = y.
Proof.
  induction l as [|a l IH]; simpl; [tauto|].
  intros Hnd Hx Hy Hk. inversion Hnd as [|? ? Hnotin Hnd']; subst.
  destruct Hx as [Hx|Hx], Hy as [Hy|Hy]; subst.
  - reflexivity.
  - exfalso. apply Hnotin. rewrite Hk. now apply in_map.
  - exfalso. apply Hnotin. rewrite <- Hk. now apply in_map.
  - now apply IH.
Qed.
End TableLemmas.

Lemma find_session_by_id_unique (l : list Session) (s : Session) :
  NoDup (map session_id l) -> In s l ->
  find (Prisma.sessionIdIs (session_id s)) l = Some s.
Proof.
  intros Hnd Hin.
  destruct (find_exists (Prisma.sessionIdIs (session_id s)) l s Hin) as [y Hy].
  { unfold Prisma.sessionIdIs. apply String.eqb_refl. }
  rewrite Hy. f_equal.
  apply find_some in Hy. destruct Hy as [Hyin Hyid].
  unfold Prisma.sessionIdIs in Hyid. apply String.eqb_eq in Hyid.
  now apply (NoDup_map_eq session_id l y s).
Qed.

Lemma session_rewrite_ids (i : string) (f : Session -> Session) (l : list Session) :
  (forall x, session_id (f x) = session_id x) ->
  map session_id (Prisma.session_rewrite i f l) = map session_id l.
Proof.
  intros Hf. unfold Prisma.session_rewrite. rewrite map_map.
  apply map_ext. intros x. destruct (Prisma.sessionIdIs i x); auto.
Qed.

(* ===================================================================== *)
(** ** Round trips on any store *)
(* ===================================================================== *)

Lemma roundTrip_cases {A} (q : Database -> Result (A * Database)) w :
  Prisma.roundTrip q w = (Throw (EPrisma Prisma.P1001), answered w)
  \/ Prisma.roundTrip q w =
       match q (db w) with
       | Ok (a, d) => (Ok a, set_db d (answered w))
       | Throw e => (Throw e, answered w)
       end.
Proof.
  unfold Prisma.roundTrip, answered.
  destruct (faults w) as [|[|] fs]; simpl; auto.
Qed.

Lemma roundTrip_ok_inv {A} (q : Database -> Result (A * Database)) w a w' :
  Prisma.roundTrip q w = (Ok a, w') ->
  exists d, q (db w) = Ok (a, d) /\ w' = set_db d (answered w).
Proof.
  intros H. destruct (roundTrip_cases q w) as [E|E]; rewrite E in H.
  - discriminate.
  - destruct (q (db w)) as [[a0 d]|e]; inversion H; subst. now exists d.
Qed.

Lemma query_ok_inv {A} (f : Database -> A) w a w' :
  Prisma.query f w = (Ok a, w') ->
  a = f (db w) /\ w' = set_db (db w) (answered w).
Proof.
  intros H. apply roundTrip_ok_inv in H. destruct H as [d [Hq Hw]].
  inversion Hq; subst. auto.
Qed.

Section AuditProperties.

Lemma logAuditEvent_healthy uid act w :
  healthy w ->
  AuthService.logAuditEvent uid act w =
    (Ok tt,
     set_db (Prisma.set_auditLogs
               (auditLogs (db w) ++ [mkAuditLog uid act (clock w)]) (db w))
            (answered w)).
Proof.
  intros Hw. unfold AuthService.logAuditEvent, try_catch, bind, newDate.
  rewrite roundTrip_healthy by assumption. reflexivity.
Qed.

(** Audit logging never throws and touches neither users nor
    sessions. *)
Lemma logAuditEvent_frame uid act w :
  exists w',
    AuthService.logAuditEvent uid act w = (Ok tt, w')
    /\ users (db w') = users (db w)
    /\ sessions (db w') = sessions (db w).
Proof.
  unfold AuthService.logAuditEvent, try_catch, bind, newDate.
  destruct (roundTrip_cases
              (Prisma.auditLog_create uid act (clock w)) w) as [E|E];
    rewrite E; simpl; eexists; repeat split.
Qed.
End AuditProperties.

(* ===================================================================== *)
(** ** logout *)
(* ===================================================================== *)

Section LogoutProperties.

Lemma logout_unknown token w :
  healthy w ->
  find (Prisma.refreshTokenIs token) (sessions (db w)) = None ->
  AuthService.logout token w = (Ok tt, set_db (db w) (answered w)).
Proof.
  intros Hw Hnone.
  unfold AuthService.logout, bind, Prisma.session_findUnique_refreshToken.
  rewrite query_healthy by assumption. now rewrite Hnone.
Qed.

Lemma logout_known token w s :
  healthy w ->
  find (Prisma.refreshTokenIs token) (sessions (db w)) = Some s ->
  exists w',
    AuthService.logout token w = (Ok tt, w')
    /\ users (db w') = users (db w)
    /\ sessions (db w') =
         Prisma.session_rewrite (session_id s) (Prisma.set_isRevoked true)
                                (sessions (db w))
    /\ auditLogs (db w') =
         (auditLogs (db w) ++ [mkAuditLog (userId s) "logout" (clock w)])%list.
Proof.
  intros Hw Hsome.
  unfold AuthService.logout, bind, Prisma.session_findUnique_refreshToken.
  rewrite query_healthy by assumption. rewrite Hsome.
  rewrite roundTrip_healthy by auto with healthy.
  rewrite db_set_db. unfold Prisma.session_update_isRevoked.
  destruct (find_exists (Prisma.sessionIdIs (session_id s)) (sessions (db w)) s)
    as [s0 Hs0].
  { apply find_some in Hsome. tauto. }
  { unfold Prisma.sessionIdIs. apply String.eqb_refl. }
  rewrite Hs0.
  rewrite logAuditEvent_healthy by auto with healthy.
  eexists. split; [reflexivity|]. repeat split.
Qed.

(** C7. On a store that answers, [logout] with a refresh token that
    matches no session returns normally and leaves the store as it
    was; with a token that matches a session it returns normally, the
    matched session is now revoked and otherwise as before, every
    row of the session table is still there, and no user changed. *)
Theorem logout_unknown_token_is_noop_and_known_token_revokes
        (token : string) (w : World) :
  healthy w ->
  fst (AuthService.logout token w) = Ok tt
  /\ (find (Prisma.refreshTokenIs token) (sessions (db w)) = None ->
      db (snd (AuthService.logout token w)) = db w)
  /\ (forall s,
        find (Prisma.refreshTokenIs token) (sessions (db w)) = Some s ->
        let after := db (snd (AuthService.logout token w)) in
        find (Prisma.refreshTokenIs token) (sessions after)
          = Some (Prisma.set_isRevoked true s)
        /\ isRevoked (Prisma.set_isRevoked true s) = true
        /\ map session_id (sessions after) = map session_id (sessions (db w))
        /\ length (sessions after) = length (sessions (db w))
        /\ (forall x, In x (sessions (db w)) ->
              session_id x <> session_id s -> In x (sessions after))
        /\ users after = users (db w)).
Proof.
  intros Hw.
  destruct (find (Prisma.refreshTokenIs token) (sessions (db w))) as [s|] eqn:F.
  - destruct (logout_known token w s Hw F) as [w' [Hrun [Hu [Hs Ha]]]].
    rewrite Hrun. simpl fst. simpl snd.
    split; [reflexivity|]. split; [discriminate|].
    intros s0 Hs0. inversion Hs0; subst s0. cbv zeta.
    rewrite Hs. repeat split.
    + unfold Prisma.session_rewrite.
      rewrite find_map_stable.
      * rewrite F. simpl. unfold Prisma.sessionIdIs.
        now rewrite String.eqb_refl.
      * intros x. now destruct (Prisma.sessionIdIs (session_id s) x).
    + now apply session_rewrite_ids.
    + unfold Prisma.session_rewrite. apply length_map.
    + intros x Hin Hne. unfold Prisma.session_rewrite.
      apply in_map_iff. exists x. split; [|assumption].
      unfold Prisma.sessionIdIs.
      destruct (String.eqb_spec (session_id x) (session_id s)); congruence.
    + exact Hu.
  - rewrite (logout_unknown token w Hw F). simpl.
    split; [reflexivity|]. split; [reflexivity | discriminate].
Qed.

End LogoutProperties.

(* ===================================================================== *)
(** ** refreshToken *)
(* ===================================================================== *)

Section RefreshProperties.
Context {J : JwtCodec}.
Variable svc : AuthService.


(** The method on a store that answers, as one case analysis. *)
Lemma refreshToken_healthy token w :
  healthy w ->
  AuthService.refreshToken svc (mkRefreshTokenRequest token) w =
    let w0 := set_db (db w) (answered w) in
    match find (Prisma.refreshTokenIs token) (sessions (db w)) with
    | None => (Throw (EApi (UnauthorizedError AUTH_ERRORS.INVALID_TOKEN)), w0)
    | Some s =>
        if isRevoked s || (expiresAt s <? clock w)
        then (Throw (EApi (UnauthorizedError AUTH_ERRORS.INVALID_TOKEN)), w0)
        else
          match find (Prisma.idIs (userId s)) (users (db w)) with
          | None => (Throw (ETypeError "session.user is null"), w0)
          | Some u =>
              if negb (isActive u)
              then (Throw (EApi (UnauthorizedError AUTH_ERRORS.USER_INACTIVE)), w0)
              else
                let w1 := set_drawn (S (drawn w)) w0 in
                match Prisma.session_update_refreshToken
                        (session_id s) (entropy w (drawn w)) (clock w) (db w) with
                | Ok (_, d) => (Ok (refreshed svc u w), set_db d (answered w1))
                | Throw e => (Throw e, answered w1)
                end
          end
    end.
Proof.
  intros Hw.
  unfold AuthService.refreshToken, bind,
    Prisma.session_findUnique_refreshToken_include_user.
  rewrite query_healthy by assumption. cbn [req_refreshToken].
  destruct (find (Prisma.refreshTokenIs token) (sessions (db w))) as [s|];
    [|reflexivity].
  unfold newDate. cbn [clock set_db answered set_faults].
  destruct (isRevoked s || (expiresAt s <? clock w)); [reflexivity|].
  destruct (find (Prisma.idIs (userId s)) (users (db w))) as [u|]; [|reflexivity].
  destruct (negb (isActive u)); [reflexivity|].
  rewrite generateTokens_run. cbn [clock set_db set_drawn].
  rewrite roundTrip_healthy by auto with healthy.
  cbn [db set_db set_drawn answered set_faults entropy drawn clock
       tok_refreshToken].
  destruct (Prisma.session_update_refreshToken _ _ _ (db w)) as [[s' d]|e];
    reflexivity.
Qed.

Lemma session_update_refreshToken_throws i t now d e :
  Prisma.session_update_refreshToken i t now d = Throw e ->
  exists c, e = EPrisma c.
Proof.
  unfold Prisma.session_update_refreshToken.
  destruct (find (Prisma.sessionIdIs i) (sessions d)).
  - destruct (existsb _ (sessions d)); [|discriminate].
    intros H; inversion H. now eexists.
  - intros H; inversion H. now eexists.
Qed.


(** C6, as the code has it. On a store that answers, [refreshToken]
    fails with an [UnauthorizedError] exactly when the token matches
    no session, or the matched session is revoked, or its expiry is
    strictly before the clock, or its owner is inactive; and whenever
    it fails so, the store is left as it was. *)
Theorem refreshToken_unauthorized_iff_rejected (token : string) (w : World) :
  healthy w ->
  let outcome := AuthService.refreshToken svc (mkRefreshTokenRequest token) w in
  (is_unauthorized (fst outcome) <-> refresh_rejected token w)
  /\ (is_unauthorized (fst outcome) -> db (snd outcome) = db w).
Proof.
  intros Hw. cbv zeta. rewrite (refreshToken_healthy token w Hw).
  unfold refresh_rejected, is_unauthorized. cbv zeta.
  destruct (find (Prisma.refreshTokenIs token) (sessions (db w))) as [s|] eqn:F.
  2:{ simpl. split; [|reflexivity]. split; [auto | intros _; eauto]. }
  destruct (isRevoked s) eqn:R; simpl orb.
  { simpl. split; [|reflexivity]. split; [|intros _; eauto].
    intros _. right. exists s. auto. }
  destruct (expiresAt s <? clock w) eqn:X.
  { simpl. split; [|reflexivity]. split; [|intros _; eauto].
    intros _. right. exists s. apply Z.ltb_lt in X. auto. }
  apply Z.ltb_ge in X.
  destruct (find (Prisma.idIs (userId s)) (users (db w))) as [u|] eqn:U.
  2:{ simpl. split.
      - split; [intros [m Hm]; discriminate|].
        intros [H|[s0 [Hs0 [H|[H|[u [Hu _]]]]]]];
          try discriminate; inversion Hs0; subst; try congruence; lia.
      - intros [m Hm]; discriminate. }
  destruct (isActive u) eqn:Act; simpl negb; cbv iota.
  2:{ simpl. split; [|reflexivity]. split; [|intros _; eauto].
      intros _. right. exists s. split; [reflexivity|].
      right. right. now exists u. }
  assert (Hno : forall r : Result AuthResponse * World,
             r = match Prisma.session_update_refreshToken
                         (session_id s) (entropy w (drawn w)) (clock w) (db w) with
                 | Ok (_, d) =>
                     (Ok (refreshed svc u w),
                      set_db d (answered (set_drawn (S (drawn w))
                                                    (set_db (db w) (answered w)))))
                 | Throw e =>
                     (Throw e,
                      answered (set_drawn (S (drawn w))
                                          (set_db (db w) (answered w))))
                 end ->
             ~ (exists msg, fst r = Throw (EApi (UnauthorizedError msg)))).
  { intros r Hr [m Hm]. subst r.
    destruct (Prisma.session_update_refreshToken _ _ _ (db w)) as [[s' d]|e] eqn:Q.
    - discriminate.
    - apply session_update_refreshToken_throws in Q. destruct Q as [c Hc].
      subst e. discriminate. }
  split.
  - split.
    + intros H. exfalso. exact (Hno _ eq_refl H).
    + intros [H|[s0 [Hs0 [H|[H|[u0 [Hu0 Hoff]]]]]]];
        try discriminate; inversion Hs0; subst; try congruence; try lia.
  - intros H. exfalso. exact (Hno _ eq_refl H).
Qed.

Lemma session_update_refreshToken_ok i t now d s1 d' :
  Prisma.session_update_refreshToken i t now d = Ok (s1, d') ->
  d' = Prisma.set_sessions
         (Prisma.session_rewrite i (Prisma.set_refreshToken t now) (sessions d)) d.
Proof.
  unfold Prisma.session_update_refreshToken.
  destruct (find (Prisma.sessionIdIs i) (sessions d)); [|discriminate].
  destruct (existsb _ (sessions d)); [discriminate|].
  intros H. now inversion H.
Qed.

(** What a successful refresh went through. *)
Lemma refreshToken_ok_inv token w resp w' :
  AuthService.refreshToken svc (mkRefreshTokenRequest token) w = (Ok resp, w') ->
  exists s u,
    find (Prisma.refreshTokenIs token) (sessions (db w)) = Some s
    /\ isRevoked s = false
    /\ clock w <= expiresAt s
    /\ find (Prisma.idIs (userId s)) (users (db w)) = Some u
    /\ isActive u = true
    /\ resp = refreshed svc u w
    /\ db w' = Prisma.set_sessions
                 (Prisma.session_rewrite
                    (session_id s)
                    (Prisma.set_refreshToken (entropy w (drawn w)) (clock w))
                    (sessions (db w)))
                 (db w).
Proof.
  unfold AuthService.refreshToken, bind,
    Prisma.session_findUnique_refreshToken_include_user.
  cbn [req_refreshToken].
  destruct (Prisma.query _ w) as [[found|ex] w0] eqn:Q; [|discriminate].
  apply query_ok_inv in Q. destruct Q as [Hfound Hw0].
  unfold newDate.
  destruct found as [[s owner]|]; [|discriminate].
  destruct (find (Prisma.refreshTokenIs token) (sessions (db w))) as [s0|] eqn:F;
    [|discriminate].
  inversion Hfound; subst s owner; clear Hfound.
  destruct (isRevoked s0) eqn:R; [discriminate|].
  destruct (expiresAt s0 <? clock w0) eqn:X; [discriminate|].
  destruct (find (Prisma.idIs (userId s0)) (users (db w))) as [u|] eqn:U;
    [|discriminate].
  destruct (isActive u) eqn:Act; [|discriminate].
  cbn [orb negb]. cbv beta iota.
  rewrite generateTokens_run.
  destruct (Prisma.roundTrip _ _) as [[s1|ex] w2] eqn:Q2; [|discriminate].
  apply roundTrip_ok_inv in Q2. destruct Q2 as [d [Hq Hw2]].
  unfold ret. intros H. inversion H; subst resp w'; clear H.
  subst w0. cbn [db set_db set_drawn answered set_faults entropy drawn clock
                 tok_refreshToken] in *.
  apply session_update_refreshToken_ok in Hq. subst d.
  apply Z.ltb_ge in X.
  exists s0, u. repeat split; auto.
  subst w2. reflexivity.
Qed.

(** C1. A successful [refreshToken] on a session table that respects
    its uniqueness constraints rotates the stored token in place: the
    session found by the presented token keeps its id and its expiry,
    its stored token is the newly issued one, no row is added or
    removed, and, the new token being different from the presented
    one, the presented token matches no session any more, so
    presenting it again fails with the [UnauthorizedError] 'Invalid or
    expired token'. *)
Theorem refreshToken_rotates_in_place_single_use
        (token : string) (w w' : World) (resp : AuthResponse) :
  sessions_unique (db w) ->
  AuthService.refreshToken svc (mkRefreshTokenRequest token) w = (Ok resp, w') ->
  tok_refreshToken (tokens resp) <> token ->
  exists s s' : Session,
    find (Prisma.refreshTokenIs token) (sessions (db w)) = Some s
    /\ find (Prisma.sessionIdIs (session_id s)) (sessions (db w')) = Some s'
    /\ session_id s' = session_id s
    /\ expiresAt s' = expiresAt s
    /\ refreshToken s' = tok_refreshToken (tokens resp)
    /\ userId s' = userId s
    /\ isRevoked s' = isRevoked s
    /\ map session_id (sessions (db w')) = map session_id (sessions (db w))
    /\ map expiresAt (sessions (db w')) = map expiresAt (sessions (db w))
    /\ find (Prisma.refreshTokenIs token) (sessions (db w')) = None
    /\ (forall w2 : World,
          db w2 = db w' -> healthy w2 ->
          fst (AuthService.refreshToken svc (mkRefreshTokenRequest token) w2)
            = Throw (EApi (UnauthorizedError "Invalid or expired token"))).
Proof.
  intros [Hids Htoks] Hrun Hfresh.
  destruct (refreshToken_ok_inv token w resp w' Hrun)
    as [s [u [F [R [X [U [Act [Hresp Hdb]]]]]]]].
  subst resp. cbn [tokens refreshed tok_refreshToken] in *.
  set (fresh := entropy w (drawn w)) in *.
  assert (Hin : In s (sessions (db w))) by (apply find_some in F; tauto).
  assert (Htok : refreshToken s = token).
  { apply find_some in F. destruct F as [_ F].
    unfold Prisma.refreshTokenIs in F. now apply String.eqb_eq in F. }
  assert (Hgone : find (Prisma.refreshTokenIs token) (sessions (db w')) = None).
  { rewrite Hdb. cbn [sessions Prisma.set_sessions].
    apply find_none_iff. apply not_true_is_false. intros Hex.
    apply existsb_exists in Hex. destruct Hex as [x [Hx Hxt]].
    unfold Prisma.session_rewrite in Hx. apply in_map_iff in Hx.
    destruct Hx as [y [Hy Hyin]].
    unfold Prisma.refreshTokenIs in Hxt. apply String.eqb_eq in Hxt.
    destruct (Prisma.sessionIdIs (session_id s) y) eqn:E; subst x.
    - simpl in Hxt. congruence.
    - assert (y = s).
      { apply (NoDup_map_eq refreshToken (sessions (db w))); congruence. }
      subst y. unfold Prisma.sessionIdIs in E.
      rewrite String.eqb_refl in E. discriminate. }
  exists s, (Prisma.set_refreshToken fresh (clock w) s).
  split; [exact F|]. split.
  { rewrite Hdb. cbn [sessions Prisma.set_sessions].
    unfold Prisma.session_rewrite. rewrite find_map_stable.
    - rewrite (find_session_by_id_unique _ s Hids Hin). simpl.
      unfold Prisma.sessionIdIs. now rewrite String.eqb_refl.
    - intros x. destruct (Prisma.sessionIdIs (session_id s) x) eqn:E; exact E. }
  repeat (split; [reflexivity|]).
  split.
  { rewrite Hdb. cbn [sessions Prisma.set_sessions]. now apply session_rewrite_ids. }
  split.
  { rewrite Hdb. cbn [sessions Prisma.set_sessions].
    unfold Prisma.session_rewrite. rewrite map_map. apply map_ext.
    intros x. now destruct (Prisma.sessionIdIs (session_id s) x). }
  split; [exact Hgone|].
  intros w2 Hdb2 Hw2. rewrite (refreshToken_healthy token w2 Hw2).
  cbv zeta. rewrite Hdb2, Hgone. reflexivity.
Qed.

End RefreshProperties.

(* ===================================================================== *)
(** ** changePassword *)
(* ===================================================================== *)

Section ChangePasswordProperties.
Context {B : Bcrypt}.
Variable svc : AuthService.


(** The transaction commits both writes or leaves the store as it
    was. *)
Lemma password_transaction_all_or_nothing uid h w :
  (exists w',
      Prisma.transaction (password_writes uid h) w = (Ok tt, w')
      /\ (exists u, find (Prisma.idIs uid) (users (db w)) = Some u)
      /\ users (db w') = with_password uid h (users (db w))
      /\ sessions (db w') = revoke_all uid (sessions (db w)))
  \/ (exists e w',
        Prisma.transaction (password_writes uid h) w = (Throw e, w')
        /\ db w' = db w).
Proof.
  unfold Prisma.transaction, password_writes, bind.
  destruct (roundTrip_cases
              (Prisma.user_update uid (Prisma.set_password h)) w) as [E|E];
    rewrite E; clear E.
  { right. eexists. eexists. split; reflexivity. }
  unfold Prisma.user_update.
  destruct (find (Prisma.idIs uid) (users (db w))) as [u|] eqn:F.
  2:{ right. eexists. eexists. split; reflexivity. }
  match goal with
  | |- context [Prisma.roundTrip ?q ?w1] =>
      destruct (roundTrip_cases q w1) as [E|E]; rewrite E; clear E
  end.
  { right. eexists. eexists. split; reflexivity. }
  cbn [Prisma.session_updateMany_revoke db set_db ret].
  match goal with
  | |- context [faults ?w2] => destruct (faults w2) as [|[|] fs] eqn:Fs
  end.
  - left. eexists. split; [reflexivity|]. split; [now exists u|].
    split; reflexivity.
  - right. eexists. eexists. split; reflexivity.
  - left. eexists. split; [reflexivity|]. split; [now exists u|].
    split; reflexivity.
Qed.

Lemma password_transaction_healthy uid h w u :
  healthy w ->
  find (Prisma.idIs uid) (users (db w)) = Some u ->
  exists w',
    Prisma.transaction (password_writes uid h) w = (Ok tt, w')
    /\ healthy w'.
Proof.
  intros Hw F.
  unfold Prisma.transaction, password_writes, bind.
  rewrite roundTrip_healthy by assumption.
  unfold Prisma.user_update. rewrite F.
  rewrite roundTrip_healthy by auto with healthy.
  cbn [Prisma.session_updateMany_revoke db set_db ret].
  match goal with
  | |- context [faults ?w2] =>
      assert (H2 : healthy w2) by auto with healthy;
      destruct (faults w2) as [|[|] fs] eqn:Fs
  end.
  - eexists. split; [reflexivity|].
    unfold healthy. destruct w; simpl in *. constructor.
  - unfold healthy in H2. rewrite Fs in H2. inversion H2; discriminate.
  - eexists. split; [reflexivity|].
    unfold healthy in *. rewrite Fs in H2. inversion H2; subst.
    destruct w; simpl in *. assumption.
Qed.

Lemma changePassword_unfold uid data :
  AuthService.changePassword svc uid data =
    (found <- Prisma.user_findUnique_id uid ;;
     match found with
     | None => throw (EApi (NotFoundError AUTH_ERRORS.USER_NOT_FOUND))
     | Some u =>
         isValidPassword <- bcrypt.compare (currentPassword data) (password u) ;;
         if negb isValidPassword
         then throw (EApi (UnauthorizedError "Current password is incorrect"))
         else
           hashedPassword <- bcrypt.hash (newPassword data) (saltRounds svc) ;;
           Prisma.transaction (password_writes uid hashedPassword) ;;
           AuthService.logAuditEvent uid "password_change"
     end)%async.
Proof. reflexivity. Qed.

(** C2. [changePassword] is all or nothing.  When it returns normally,
    the identity existed, the current password matched, the stored
    hash is the hash of the new password, and every session of the
    identity that was not revoked is now revoked, the other sessions
    being as before.  When it throws, whatever the reason (missing
    identity, password mismatch, or a failure of the store at any
    round trip), neither the user table nor the session table has
    changed.  On a store that answers, it returns normally for an
    existing identity with a matching password, throws [NotFoundError]
    for a missing identity and [UnauthorizedError] for a mismatch. *)
Theorem changePassword_all_or_nothing
        (uid : string) (data : ChangePasswordRequest) (w : World) :
  let outcome := AuthService.changePassword svc uid data w in
  let after := db (snd outcome) in
  (fst outcome = Ok tt ->
     exists u,
       find (Prisma.idIs uid) (users (db w)) = Some u
       /\ bcrypt_compare (currentPassword data) (password u) = true
       /\ users after =
            with_password uid
              (bcrypt_hash (newPassword data) (saltRounds svc)
                           (entropy w (drawn w)))
              (users (db w))
       /\ sessions after = revoke_all uid (sessions (db w))
       /\ (forall s, In s (sessions after) -> userId s = uid ->
             isRevoked s = true)
       /\ (forall s, In s (sessions (db w)) -> userId s <> uid ->
             In s (sessions after))
       /\ (exists u',
             find (Prisma.idIs uid) (users after) = Some u'
             /\ password u'
                = bcrypt_hash (newPassword data) (saltRounds svc)
                              (entropy w (drawn w))
             /\ id u' = id u /\ email u' = email u
             /\ isActive u' = isActive u /\ userRoles u' = userRoles u)
       /\ (forall x, In x (users after) -> id x = uid ->
             password x
             = bcrypt_hash (newPassword data) (saltRounds svc)
                           (entropy w (drawn w)))
       /\ (forall x, In x (users (db w)) -> id x <> uid ->
             In x (users after)))
  /\ (forall ex, fst outcome = Throw ex ->
        users after = users (db w) /\ sessions after = sessions (db w))
  /\ (healthy w ->
        match find (Prisma.idIs uid) (users (db w)) with
        | None =>
            fst outcome = Throw (EApi (NotFoundError "User not found"))
        | Some u =>
            if bcrypt_compare (currentPassword data) (password u)
            then fst outcome = Ok tt
            else fst outcome =
                   Throw (EApi (UnauthorizedError "Current password is incorrect"))
        end).
Proof.
  cbv zeta. rewrite changePassword_unfold.
  unfold Prisma.user_findUnique_id, bind.
  destruct (roundTrip_cases
              (fun d => Ok (find (Prisma.idIs uid) (users d), d)) w) as [E|E].
  { (* the lookup fails *)
    unfold Prisma.query. rewrite E. cbn [fst snd].
    split; [discriminate|]. split; [intros; split; reflexivity|].
    intros Hw. exfalso.
    rewrite (roundTrip_healthy _ w Hw) in E. discriminate. }
  unfold Prisma.query. rewrite E. clear E. cbn [fst snd].
  destruct (find (Prisma.idIs uid) (users (db w))) as [u|] eqn:F.
  2:{ cbn. split; [discriminate|]. split; [intros; split; reflexivity|].
      intros _. reflexivity. }
  unfold bcrypt.compare, ret.
  destruct (bcrypt_compare (currentPassword data) (password u)) eqn:C;
    cbn [negb].
  2:{ cbn. split; [discriminate|]. split; [intros; split; reflexivity|].
      intros _. reflexivity. }
  unfold bcrypt.hash, bind, draw, ret.
  cbn [entropy drawn set_db answered set_faults].
  set (h := bcrypt_hash (newPassword data) (saltRounds svc) (entropy w (drawn w))).
  match goal with
  | |- context [Prisma.transaction (password_writes uid h) ?w1] => set (w1' := w1)
  end.
  assert (Hdb1 : db w1' = db w) by reflexivity.
  destruct (password_transaction_all_or_nothing uid h w1')
    as [[w2 [Hrun [_ [Hus Hss]]]] | [e [w2 [Hrun Hsame]]]]; rewrite Hrun.
  - (* committed *)
    destruct (logAuditEvent_frame uid "password_change" w2)
      as [w3 [Hlog [Hu3 Hs3]]].
    rewrite Hlog. cbn [fst snd]. rewrite Hu3, Hs3, Hus, Hss, Hdb1.
    split.
    + intros _. exists u.
      split; [reflexivity|]. split; [exact C|].
      split; [reflexivity|]. split; [reflexivity|]. split.
      { intros s Hin Huid. unfold revoke_all in Hin.
        apply in_map_iff in Hin. destruct Hin as [x [Hx Hxin]].
        destruct (String.eqb (userId x) uid && negb (isRevoked x)) eqn:Hit;
          subst s; [reflexivity|].
        apply String.eqb_eq in Huid. rewrite Huid in Hit. simpl in Hit.
        now apply negb_false_iff in Hit. }
      split.
      { intros s Hin Hne. unfold revoke_all. apply in_map_iff.
        exists s. split; [|assumption].
        apply String.eqb_neq in Hne. now rewrite Hne. }
      split.
      { exists (Prisma.set_password h u). unfold with_password.
        rewrite find_map_stable.
        - rewrite F. cbn [option_map].
          assert (Hu : Prisma.idIs uid u = true)
            by (apply find_some in F; tauto).
          rewrite Hu. repeat split.
        - intros x. destruct (Prisma.idIs uid x) eqn:E; exact E. }
      split.
      { intros x Hin Hx. unfold with_password in Hin.
        apply in_map_iff in Hin. destruct Hin as [y [Hy Hyin]].
        destruct (Prisma.idIs uid y) eqn:Hit; subst x; [reflexivity|].
        unfold Prisma.idIs in Hit. apply String.eqb_neq in Hit.
        now elim Hit. }
      { intros x Hin Hne. unfold with_password. apply in_map_iff.
        exists x. split; [|assumption].
        assert (Hit : Prisma.idIs uid x = false)
          by (unfold Prisma.idIs; now apply String.eqb_neq).
        now rewrite Hit. }
    + split; [discriminate|]. intros _. reflexivity.
  - (* rolled back *)
    cbn [fst snd]. rewrite Hsame, Hdb1.
    split; [discriminate|]. split; [intros; split; reflexivity|].
    intros Hw. exfalso.
    assert (Hw1 : healthy w1') by (subst w1'; auto with healthy).
    destruct (password_transaction_healthy uid h w1' u Hw1) as [w2' [Hok _]].
    { rewrite Hdb1. exact F. }
    rewrite Hok in Hrun. discriminate.
Qed.

End ChangePasswordProperties.

(* ===================================================================== *)
(** ** register *)
(* ===================================================================== *)

Section RegisterProperties.
Context {B : Bcrypt} {J : JwtCodec}.
Variable svc : AuthService.



Lemma already_taken_clause data d :
  already_taken data d -> existsb (taken_clause data) (users d) = true.
Proof.
  unfold already_taken, taken_clause, Prisma.whereOr.
  intros [H|[n [Hn [Hne H]]]]; apply existsb_exists in H;
    destruct H as [x [Hin Hx]]; apply existsb_exists; exists x;
    (split; [assumption|]); simpl.
  - now rewrite Hx.
  - rewrite Hn. unfold truthy. apply String.eqb_neq in Hne. rewrite Hne.
    simpl. rewrite Hx. apply orb_true_iff. right. reflexivity.
Qed.

Lemma register_existing data w eu :
  healthy w ->
  find (taken_clause data) (users (db w)) = Some eu ->
  exists msg,
    (msg = AUTH_ERRORS.EMAIL_ALREADY_EXISTS
     \/ msg = AUTH_ERRORS.USERNAME_ALREADY_EXISTS)
    /\ AuthService.register svc data w =
         (Throw (EApi (UnauthorizedError msg)), set_db (db w) (answered w)).
Proof.
  intros Hw F.
  unfold AuthService.register, bind, Prisma.user_findFirst.
  rewrite query_healthy by assumption.
  fold (taken_clause data). rewrite F.
  destruct (String.eqb (email eu) (reg_email data)) eqn:E.
  { exists AUTH_ERRORS.EMAIL_ALREADY_EXISTS. split; [now left | reflexivity]. }
  apply find_some in F. destruct F as [_ Hc].
  unfold taken_clause, Prisma.whereOr in Hc. simpl in Hc.
  unfold Prisma.emailIs in Hc at 1. rewrite E in Hc. simpl in Hc.
  destruct (reg_username data) as [n|] eqn:Un; [|discriminate].
  destruct (truthy n); [|discriminate].
  simpl in Hc. rewrite orb_false_r in Hc.
  unfold Prisma.usernameIs in Hc.
  destruct (username eu) as [x|] eqn:Ux; [|discriminate].
  unfold AuthService.username_strict_eq. rewrite Hc.
  exists AUTH_ERRORS.USERNAME_ALREADY_EXISTS. split; [now right | reflexivity].
Qed.

Lemma createSession_users uid t rm w w' :
  AuthService.createSession uid t rm w = (Ok tt, w') ->
  users (db w') = users (db w).
Proof.
  unfold AuthService.createSession, bind, newDate, Prisma.nextId.
  destruct (Prisma.roundTrip _ _) as [[s|ex] w1] eqn:Q; [|discriminate].
  apply roundTrip_ok_inv in Q. destruct Q as [d [Hq Hw1]].
  unfold ret. intros H. inversion H; subst w' w1. clear H.
  unfold Prisma.session_create in Hq. cbn [db set_issued] in Hq.
  destruct (existsb _ _ || existsb _ _); [discriminate|].
  destruct (negb _); [discriminate|].
  inversion Hq; subst d. reflexivity.
Qed.

(** After a successful registration the email is held by a stored
    identity. *)
Lemma register_ok_email_stored data w resp w' :
  AuthService.register svc data w = (Ok resp, w') ->
  existsb (Prisma.emailIs (reg_email data)) (users (db w')) = true.
Proof.
  unfold AuthService.register, bind.
  destruct (Prisma.user_findFirst _ w) as [[found|ex] w0]; [|discriminate].
  match goal with
  | |- context [match ?c w0 with _ => _ end] =>
      destruct (c w0) as [[[]|ex] w1]; [|discriminate]
  end.
  unfold bcrypt.hash, bind, draw, ret, Prisma.nextId, newDate.
  destruct (Prisma.roundTrip _ _) as [[u|ex] w2] eqn:Q; [|discriminate].
  apply roundTrip_ok_inv in Q. destruct Q as [d [Hq Hw2]].
  rewrite generateTokens_run.
  destruct (AuthService.createSession _ _ _ _) as [[[]|ex] w3] eqn:Hcs;
    [|discriminate].
  apply createSession_users in Hcs.
  destruct (logAuditEvent_frame (id u) "register" w3) as [w4 [Hlog [Hu4 _]]].
  rewrite Hlog. intros H. inversion H; subst resp w'. clear H.
  rewrite Hu4, Hcs. subst w2. cbn [db set_db set_drawn].
  unfold Prisma.user_create in Hq.
  destruct (_ || _ || _); [discriminate|].
  inversion Hq; subst u d. cbn [users Prisma.set_users].
  rewrite existsb_app. apply orb_true_iff. right. simpl.
  unfold Prisma.emailIs. cbn [email]. now rewrite String.eqb_refl.
Qed.

(** C3, as the code has it. On a store that answers, [register] fails
    with an [UnauthorizedError] (401, code UNAUTHORIZED), with message
    'Email already exists' or 'Username already exists', whenever the
    email or the non-empty username of the request is already held by
    an identity, and leaves the store as it was; in particular a
    second registration with the email of a successful one fails so,
    and the response is never a 500. *)
Theorem register_taken_fails_unauthorized :
  (forall (data : RegisterRequest) (w : World),
      healthy w ->
      already_taken data (db w) ->
      exists msg,
        (msg = "Email already exists" \/ msg = "Username already exists")
        /\ AuthService.register svc data w =
             (Throw (EApi (UnauthorizedError msg)), set_db (db w) (answered w))
        /\ errorHandler (EApi (UnauthorizedError msg))
           = mkHttpResponse 401 (createErrorResponse msg "UNAUTHORIZED"))
  /\ (forall (first second : RegisterRequest) (w w1 w2 : World)
             (resp : AuthResponse),
        AuthService.register svc first w = (Ok resp, w1) ->
        reg_email second = reg_email first ->
        db w2 = db w1 ->
        healthy w2 ->
        exists msg,
          fst (AuthService.register svc second w2)
            = Throw (EApi (UnauthorizedError msg))
          /\ db (snd (AuthService.register svc second w2)) = db w1
          /\ status (errorHandler (EApi (UnauthorizedError msg))) = 401).
Proof.
  assert (Hmain : forall data w, healthy w -> already_taken data (db w) ->
    exists msg,
      (msg = "Email already exists" \/ msg = "Username already exists")
      /\ AuthService.register svc data w =
           (Throw (EApi (UnauthorizedError msg)), set_db (db w) (answered w))).
  { intros data w Hw Htaken.
    apply already_taken_clause in Htaken.
    destruct (find (taken_clause data) (users (db w))) as [eu|] eqn:F.
    - exact (register_existing data w eu Hw F).
    - apply find_none_iff in F. congruence. }
  split.
  - intros data w Hw Htaken.
    destruct (Hmain data w Hw Htaken) as [msg [Hmsg Hrun]].
    exists msg. split; [exact Hmsg|]. split; [exact Hrun|].
    destruct Hmsg; subst msg; reflexivity.
  - intros first second w w1 w2 resp Hrun Hmail Hdb Hw2.
    apply register_ok_email_stored in Hrun.
    destruct (Hmain second w2 Hw2) as [msg [Hmsg Hrun2]].
    { left. now rewrite Hmail, Hdb. }
    exists msg. rewrite Hrun2. cbn [fst snd db set_db].
    split; [reflexivity|]. split; [exact Hdb|].
    destruct Hmsg; subst msg; reflexivity.
Qed.

End RegisterProperties.

(* ===================================================================== *)
(** ** From login to verifyToken *)
(* ===================================================================== *)

Section LoginRoundTrip.
Context {B : Bcrypt} {J : JwtCodec} {L : JwtCodecLaws J}.
Variable svc : AuthService.

Lemma find_user_by_id_unique (l : list User) (u : User) :
  NoDup (map id l) -> In u l -> find (Prisma.idIs (id u)) l = Some u.
Proof.
  intros Hnd Hin.
  destruct (find_exists (Prisma.idIs (id u)) l u Hin) as [y Hy].
  { unfold Prisma.idIs. apply String.eqb_refl. }
  rewrite Hy. f_equal.
  apply find_some in Hy. destruct Hy as [Hyin Hyid].
  unfold Prisma.idIs in Hyid. apply String.eqb_eq in Hyid.
  now apply (NoDup_map_eq id l y u).
Qed.

(** What a successful login went through. *)
Lemma login_ok_inv data w resp w' :
  AuthService.login svc data w = (Ok resp, w') ->
  exists u,
    find (Prisma.emailIs (login_email data)) (users (db w)) = Some u
    /\ isActive u = true
    /\ bcrypt_compare (login_password data) (password u) = true
    /\ resp = refreshed svc u w
    /\ users (db w') =
         map (fun x => if Prisma.idIs (id u) x
                       then Prisma.set_lastLogin (clock w) x else x)
             (users (db w)).
Proof.
  unfold AuthService.login, bind, Prisma.user_findUnique_email.
  destruct (Prisma.query _ w) as [[found|ex] w0] eqn:Q; [|discriminate].
  apply query_ok_inv in Q. destruct Q as [Hfound Hw0].
  destruct found as [u|]; [|discriminate].
  destruct (isActive u) eqn:Act; [|discriminate]. cbn [negb].
  unfold bcrypt.compare, ret.
  destruct (bcrypt_compare (login_password data) (password u)) eqn:C;
    [|discriminate].
  cbn [negb]. unfold newDate.
  destruct (Prisma.roundTrip _ w0) as [[u1|ex] w1] eqn:Q1; [|discriminate].
  apply roundTrip_ok_inv in Q1. destruct Q1 as [d [Hq Hw1]].
  rewrite generateTokens_run.
  destruct (AuthService.createSession _ _ _ _) as [[[]|ex] w2] eqn:Hcs;
    [|discriminate].
  apply createSession_users in Hcs.
  destruct (logAuditEvent_frame (id u) "login" w2) as [w3 [Hlog [Hu3 _]]].
  rewrite Hlog. intros H. inversion H; subst resp w'. clear H.
  exists u. split; [now symmetry|]. split; [exact Act|]. split; [exact C|].
  unfold Prisma.user_update in Hq.
  destruct (find (Prisma.idIs (id u)) (users (db w0))); [|discriminate].
  inversion Hq; subst d u1. subst w1 w0.
  split; [reflexivity|].
  rewrite Hu3, Hcs. reflexivity.
Qed.

(** The access token returned by a successful login verifies, on the
    store the login left and before the token expires, to an identity
    with the id and the role names of the login response. *)
Lemma login_then_verifyToken data w resp w' w2 :
  NoDup (map id (users (db w))) ->
  AuthService.login svc data w = (Ok resp, w') ->
  ur_id (user resp) <> "" ->
  db w2 = db w' ->
  healthy w2 ->
  clock w2 / 1000 < clock w / 1000 + JWT_CONFIG.ACCESS_TOKEN_EXPIRES_IN ->
  exists verified,
    fst (AuthService.verifyToken svc (accessToken (tokens resp)) w2) = Ok verified
    /\ id verified = ur_id (user resp)
    /\ map (fun ur => role_name (role ur)) (userRoles verified)
       = map rr_name (ur_roles (user resp)).
Proof.
  intros Hnd Hrun Hid Hdb Hw2 Hclock.
  destruct (login_ok_inv data w resp w' Hrun) as [u [F [Act [_ [Hresp Husers]]]]].
  subst resp. cbn [refreshed user tokens accessToken transformUserToResponse
                   ur_id ur_roles] in *.
  assert (Hin : In u (users (db w))) by (apply find_some in F; tauto).
  set (claims := mkJwtPayload (Some (id u)) (email u) (roleNames u)
                              (Some (clock w / 1000))
                              (Some (clock w / 1000 + 900))).
  assert (Hstored : find (Prisma.idIs (id u)) (users (db w2))
                    = Some (Prisma.set_lastLogin (clock w) u)).
  { rewrite Hdb, Husers, find_map_stable.
    - rewrite (find_user_by_id_unique _ u Hnd Hin). simpl.
      unfold Prisma.idIs. now rewrite String.eqb_refl.
    - intros x. destruct (Prisma.idIs (id u) x) eqn:E; exact E. }
  exists (Prisma.set_lastLogin (clock w) u).
  rewrite (verifyToken_valid svc _ w2 claims (id u)
             (Prisma.set_lastLogin (clock w) u) Hw2); auto.
  - split; [reflexivity|]. split; [reflexivity|].
    cbn [userRoles Prisma.set_lastLogin]. rewrite map_map. reflexivity.
  - apply jwt_decode_encode.
  - intros e He. inversion He; subst.
    unfold JWT_CONFIG.ACCESS_TOKEN_EXPIRES_IN in Hclock. lia.
Qed.

End LoginRoundTrip.

(* ===================================================================== *)
(** ** The uniqueness constraints are invariants of the service *)
(* ===================================================================== *)

Lemma preserves_ret {A} P (a : A) : preserves P (ret a).
Proof. intros w H. exact H. Qed.

Lemma preserves_throw {A} P (e : Exn) : preserves P (@throw A e).
Proof. intros w H. exact H. Qed.

Lemma preserves_newDate P : preserves P newDate.
Proof. intros w H. exact H. Qed.

Lemma preserves_draw P : preserves P draw.
Proof. intros w H. exact H. Qed.

Lemma preserves_nextId P : preserves P Prisma.nextId.
Proof. intros w H. exact H. Qed.

Lemma preserves_bind {A B} P (m : M A) (k : A -> M B) :
  preserves P m -> (forall a, preserves P (k a)) -> preserves P (bind m k).
Proof.
  intros Hm Hk w H. unfold bind. specialize (Hm w H).
  destruct (m w) as [[a|e] w1]; simpl in *; [now apply Hk | exact Hm].
Qed.

Lemma preserves_try_catch {A} P (body : M A) (handler : Exn -> M A) :
  preserves P body -> (forall e, preserves P (handler e)) ->
  preserves P (try_catch body handler).
Proof.
  intros Hb Hh w H. unfold try_catch. specialize (Hb w H).
  destruct (body w) as [[a|e] w1]; simpl in *; [exact Hb | now apply Hh].
Qed.

Lemma preserves_roundTrip {A} (P : Database -> Prop)
      (q : Database -> Result (A * Database)) :
  (forall d a d', P d -> q d = Ok (a, d') -> P d') ->
  preserves P (Prisma.roundTrip q).
Proof.
  intros Hq w H.
  destruct (roundTrip_cases q w) as [E|E]; rewrite E; [exact H|].
  destruct (q (db w)) as [[a d]|e] eqn:Q; simpl; [exact (Hq _ a d H Q) | exact H].
Qed.

Lemma preserves_query {A} P (f : Database -> A) : preserves P (Prisma.query f).
Proof.
  apply preserves_roundTrip. intros d a d' H E. now inversion E; subst.
Qed.

Lemma preserves_transaction {A} P (body : M A) :
  preserves P body -> preserves P (Prisma.transaction body).
Proof.
  intros Hb w H. unfold Prisma.transaction. specialize (Hb w H).
  destruct (body w) as [[a|e] w1]; simpl in *; [|exact H].
  destruct (faults w1) as [|[|] fs]; simpl; assumption.
Qed.

(** *** The writes, one by one *)

Lemma rewrite_token_unique (i t : string) (now : Z) (l : list Session) :
  NoDup (map session_id l) ->
  NoDup (map refreshToken l) ->
  existsb (fun x => Prisma.refreshTokenIs t x && negb (Prisma.sessionIdIs i x)) l
    = false ->
  NoDup (map refreshToken
             (Prisma.session_rewrite i (Prisma.set_refreshToken t now) l)).
Proof.
  unfold Prisma.session_rewrite.
  induction l as [|a l IH]; simpl; intros Hid Htok Hfree; [constructor|].
  inversion Hid as [|? ? Hid1 Hid2]; subst.
  inversion Htok as [|? ? Htok1 Htok2]; subst.
  apply orb_false_iff in Hfree. destruct Hfree as [Ha Hl].
  constructor; [|now apply IH].
  intros Hin. apply in_map_iff in Hin. destruct Hin as [x' [Hx' Hin]].
  apply in_map_iff in Hin. destruct Hin as [x [Hx Hxin]]. subst x'.
  assert (Hxfree : Prisma.refreshTokenIs t x && negb (Prisma.sessionIdIs i x) = false).
  { destruct (Prisma.refreshTokenIs t x && negb (Prisma.sessionIdIs i x)) eqn:E;
      [|reflexivity].
    assert (existsb (fun x => Prisma.refreshTokenIs t x
                              && negb (Prisma.sessionIdIs i x)) l = true)
      by (apply existsb_exists; now exists x).
    congruence. }
  unfold Prisma.refreshTokenIs, Prisma.sessionIdIs in *.
  destruct (String.eqb_spec (session_id a) i) as [Eai|Nai];
    destruct (String.eqb_spec (session_id x) i) as [Exi|Nxi];
    simpl in Hx'.
  - apply Hid1. rewrite Eai, <- Exi. now apply in_map.
  - destruct (String.eqb_spec (refreshToken x) t) as [Ext|Nxt];
      simpl in Hxfree; [discriminate | congruence].
  - destruct (String.eqb_spec (refreshToken a) t) as [Eat|Nat];
      simpl in Ha; [discriminate | congruence].
  - apply Htok1. rewrite <- Hx'. now apply in_map.
Qed.

Lemma session_update_refreshToken_unique i t now d a d' :
  sessions_unique d ->
  Prisma.session_update_refreshToken i t now d = Ok (a, d') ->
  sessions_unique d'.
Proof.
  intros [Hid Htok]. unfold Prisma.session_update_refreshToken.
  destruct (find (Prisma.sessionIdIs i) (sessions d)); [|discriminate].
  destruct (existsb _ (sessions d)) eqn:Free; [discriminate|].
  intros H. inversion H; subst. split; cbn [sessions Prisma.set_sessions].
  - rewrite session_rewrite_ids; auto.
  - now apply rewrite_token_unique.
Qed.

Lemma session_update_isRevoked_unique i b d a d' :
  sessions_unique d ->
  Prisma.session_update_isRevoked i b d = Ok (a, d') ->
  sessions_unique d'.
Proof.
  intros [Hid Htok]. unfold Prisma.session_update_isRevoked.
  destruct (find (Prisma.sessionIdIs i) (sessions d)); [|discriminate].
  intros H. inversion H; subst. split; cbn [sessions Prisma.set_sessions].
  - rewrite session_rewrite_ids; auto.
  - unfold Prisma.session_rewrite. rewrite map_map.
    erewrite map_ext; [exact Htok|].
    intros x. now destruct (Prisma.sessionIdIs i x).
Qed.

Lemma revoke_all_unique uid d a d' :
  sessions_unique d ->
  Prisma.session_updateMany_revoke uid d = Ok (a, d') ->
  sessions_unique d'.
Proof.
  intros [Hid Htok]. unfold Prisma.session_updateMany_revoke.
  intros H. inversion H; subst. split; cbn [sessions Prisma.set_sessions];
    rewrite map_map.
  - erewrite map_ext; [exact Hid|].
    intros x. now destruct (String.eqb (userId x) uid && negb (isRevoked x)).
  - erewrite map_ext; [exact Htok|].
    intros x. now destruct (String.eqb (userId x) uid && negb (isRevoked x)).
Qed.

Lemma NoDup_snoc {K} (l : list K) (k : K) :
  NoDup l -> ~ In k l -> NoDup (l ++ [k]).
Proof.
  intros Hl Hk. apply NoDup_app; [assumption | repeat constructor; intros [] |].
  intros x Hx [Hxk|[]]. subst. contradiction.
Qed.

Lemma session_create_unique i now uid t expires d a d' :
  sessions_unique d ->
  Prisma.session_create i now uid t expires d = Ok (a, d') ->
  sessions_unique d'.
Proof.
  intros [Hid Htok]. unfold Prisma.session_create.
  destruct (existsb (Prisma.sessionIdIs i) (sessions d)) eqn:Ei; [discriminate|].
  destruct (existsb (Prisma.refreshTokenIs t) (sessions d)) eqn:Et; [discriminate|].
  simpl orb. cbv iota.
  destruct (negb (existsb (Prisma.idIs uid) (users d))); [discriminate|].
  intros H. inversion H; subst.
  split; cbn [sessions Prisma.set_sessions]; rewrite map_app; simpl;
    apply NoDup_snoc; auto.
  - intros Hin. apply in_map_iff in Hin. destruct Hin as [x [Hx Hxin]].
    assert (existsb (Prisma.sessionIdIs i) (sessions d) = true).
    { apply existsb_exists. exists x. split; [assumption|].
      unfold Prisma.sessionIdIs. now apply String.eqb_eq. }
    congruence.
  - intros Hin. apply in_map_iff in Hin. destruct Hin as [x [Hx Hxin]].
    assert (existsb (Prisma.refreshTokenIs t) (sessions d) = true).
    { apply existsb_exists. exists x. split; [assumption|].
      unfold Prisma.refreshTokenIs. now apply String.eqb_eq. }
    congruence.
Qed.

Lemma NoDup_map_filter {A K} (key : A -> K) (f : A -> bool) (l : list A) :
  NoDup (map key l) -> NoDup (map key (filter f l)).
Proof.
  induction l as [|a l IH]; simpl; intros H; [constructor|].
  inversion H as [|? ? Hn Hl]; subst.
  destruct (f a); simpl; [|now apply IH].
  constructor; [|now apply IH].
  intros Hin. apply Hn. apply in_map_iff in Hin. destruct Hin as [x [Hx Hxin]].
  apply filter_In in Hxin. rewrite <- Hx. apply in_map. tauto.
Qed.

Lemma session_deleteMany_unique now d a d' :
  sessions_unique d ->
  Prisma.session_deleteMany_expired_or_revoked now d = Ok (a, d') ->
  sessions_unique d'.
Proof.
  intros [Hid Htok]. unfold Prisma.session_deleteMany_expired_or_revoked.
  intros H. inversion H; subst.
  split; cbn [sessions Prisma.set_sessions]; now apply NoDup_map_filter.
Qed.

Lemma user_create_sessions i now e un pw fn ln d a d' :
  Prisma.user_create i now e un pw fn ln d = Ok (a, d') ->
  sessions d' = sessions d.
Proof.
  unfold Prisma.user_create. destruct (_ || _ || _); [discriminate|].
  intros H. now inversion H.
Qed.

Lemma user_update_sessions i f d a d' :
  Prisma.user_update i f d = Ok (a, d') -> sessions d' = sessions d.
Proof.
  unfold Prisma.user_update. destruct (find _ _); [|discriminate].
  intros H. now inversion H.
Qed.

Lemma auditLog_create_sessions uid act now d a d' :
  Prisma.auditLog_create uid act now d = Ok (a, d') -> sessions d' = sessions d.
Proof. unfold Prisma.auditLog_create. intros H. now inversion H. Qed.

Lemma sessions_unique_same d d' :
  sessions d' = sessions d -> sessions_unique d -> sessions_unique d'.
Proof. unfold sessions_unique. intros E. now rewrite E. Qed.

(** *** The methods *)

(** Decomposes a method into its steps; what is left are the writes. *)
Ltac keep_step :=
  first
    [ apply preserves_ret
    | apply preserves_throw
    | apply preserves_newDate
    | apply preserves_draw
    | apply preserves_nextId
    | apply preserves_query
    | apply preserves_transaction
    | apply preserves_bind; [|intros ?]
    | apply preserves_try_catch; [|intros ?]
    | match goal with
      | |- preserves _ (match ?x with _ => _ end) => destruct x
      end ].

Ltac keep_write :=
  apply preserves_roundTrip; intros ? ? ? Huniq Hwrite;
  first
    [ exact (session_update_refreshToken_unique _ _ _ _ _ _ Huniq Hwrite)
    | exact (session_update_isRevoked_unique _ _ _ _ _ Huniq Hwrite)
    | exact (revoke_all_unique _ _ _ _ Huniq Hwrite)
    | exact (session_create_unique _ _ _ _ _ _ _ _ Huniq Hwrite)
    | exact (session_deleteMany_unique _ _ _ _ Huniq Hwrite)
    | exact (sessions_unique_same _ _ (user_create_sessions _ _ _ _ _ _ _ _ _ _ Hwrite) Huniq)
    | exact (sessions_unique_same _ _ (user_update_sessions _ _ _ _ _ Hwrite) Huniq)
    | exact (sessions_unique_same _ _ (auditLog_create_sessions _ _ _ _ _ _ Hwrite) Huniq) ].

Ltac keep := repeat first [keep_step | keep_write].

Section Invariant.
Context {B : Bcrypt} {J : JwtCodec}.
Variable svc : AuthService.

Lemma generateTokens_keeps P u : preserves P (AuthService.generateTokens svc u).
Proof. intros w H. exact H. Qed.

Lemma createSession_keeps_unique uid t rm :
  preserves sessions_unique (AuthService.createSession uid t rm).
Proof. unfold AuthService.createSession. keep. Qed.

Lemma logAuditEvent_keeps_unique uid act :
  preserves sessions_unique (AuthService.logAuditEvent uid act).
Proof. unfold AuthService.logAuditEvent. keep. Qed.

Lemma register_keeps_unique data :
  preserves sessions_unique (AuthService.register svc data).
Proof.
  unfold AuthService.register, Prisma.user_findFirst, bcrypt.hash.
  keep; first [apply generateTokens_keeps | apply createSession_keeps_unique
               | apply logAuditEvent_keeps_unique].
Qed.

Lemma login_keeps_unique data :
  preserves sessions_unique (AuthService.login svc data).
Proof.
  unfold AuthService.login, Prisma.user_findUnique_email, bcrypt.compare.
  keep; first [apply generateTokens_keeps | apply createSession_keeps_unique
               | apply logAuditEvent_keeps_unique].
Qed.

Lemma refreshToken_keeps_unique data :
  preserves sessions_unique (AuthService.refreshToken svc data).
Proof.
  unfold AuthService.refreshToken,
    Prisma.session_findUnique_refreshToken_include_user.
  keep; apply generateTokens_keeps.
Qed.

Lemma logout_keeps_unique token :
  preserves sessions_unique (AuthService.logout token).
Proof.
  unfold AuthService.logout, Prisma.session_findUnique_refreshToken.
  keep; apply logAuditEvent_keeps_unique.
Qed.

Lemma changePassword_keeps_unique uid data :
  preserves sessions_unique (AuthService.changePassword svc uid data).
Proof.
  unfold AuthService.changePassword, Prisma.user_findUnique_id,
    bcrypt.compare, bcrypt.hash.
  keep; apply logAuditEvent_keeps_unique.
Qed.

Lemma cleanExpiredSessions_keeps_unique :
  preserves sessions_unique AuthService.cleanExpiredSessions.
Proof. unfold AuthService.cleanExpiredSessions. keep. Qed.

End Invariant.

(* ===================================================================== *)
(** ** The reference wire format satisfies the contract *)
(* ===================================================================== *)

Section ReferenceLaws.
Import Reference.
Local Open Scope string_scope.

Lemma append_assoc (a b c : string) : (a ++ b) ++ c = a ++ (b ++ c).
Proof. induction a as [|x a IH]; simpl; [reflexivity | now rewrite IH]. Qed.

Lemma read_unary_unary (n : nat) (r : string) :
  read_unary (unary n ++ r) = Some (n, r).
Proof. induction n as [|n IH]; simpl; [reflexivity | now rewrite IH]. Qed.

Lemma read_chars_append (s r : string) :
  read_chars (String.length s) (s ++ r) = Some (s, r).
Proof. induction s as [|c s IH]; simpl; [reflexivity | now rewrite IH]. Qed.

Lemma read_frame_frame (s r : string) :
  read_frame (frame s ++ r) = Some (s, r).
Proof.
  unfold read_frame, frame. rewrite append_assoc, read_unary_unary.
  apply read_chars_append.
Qed.

Lemma read_Z_write_Z (z : Z) (r : string) :
  read_Z (write_Z z ++ r) = Some (z, r).
Proof.
  unfold read_Z, write_Z.
  destruct (z <? 0)%Z eqn:S; simpl; rewrite read_unary_unary; f_equal; f_equal.
  - apply Z.ltb_lt in S. rewrite Zabs2Nat.id_abs. lia.
  - apply Z.ltb_ge in S. rewrite Zabs2Nat.id_abs. lia.
Qed.

Lemma read_opt_write_opt {A} (wr : A -> string)
      (rd : string -> option (A * string)) (o : option A) (r : string) :
  (forall a r', rd (wr a ++ r') = Some (a, r')) ->
  read_opt rd (write_opt wr o ++ r) = Some (o, r).
Proof.
  intros Hrw. destruct o as [a|]; simpl; [now rewrite Hrw | reflexivity].
Qed.

Lemma read_frames_write_frames (l : list string) (r : string) :
  read_frames (List.length l) (write_frames l ++ r) = Some (l, r).
Proof.
  induction l as [|x l IH]; simpl; [reflexivity|].
  now rewrite append_assoc, read_frame_frame, IH.
Qed.

Lemma read_list_write_list (l : list string) (r : string) :
  read_list (write_list l ++ r) = Some (l, r).
Proof.
  unfold read_list, write_list. rewrite append_assoc, read_unary_unary.
  apply read_frames_write_frames.
Qed.

Lemma append_empty (a : string) : a ++ "" = a.
Proof. induction a as [|x a IH]; simpl; [reflexivity | now rewrite IH]. Qed.

Lemma decode_encode (p : JwtPayload) (k : string) :
  decode (encode p k) k = Some p.
Proof.
  unfold decode, encode.
  rewrite read_frame_frame, String.eqb_refl.
  rewrite (read_opt_write_opt frame read_frame) by apply read_frame_frame.
  rewrite read_frame_frame, read_list_write_list.
  rewrite (read_opt_write_opt write_Z read_Z) by apply read_Z_write_Z.
  rewrite <- (append_empty (write_opt write_Z (exp p))).
  rewrite (read_opt_write_opt write_Z read_Z) by apply read_Z_write_Z.
  now destruct p.
Qed.

Lemma codec_laws : JwtCodecLaws codec.
Proof. constructor. exact decode_encode. Qed.

(** The reference hash accepts the password it was made from. *)
Lemma hasher_accepts (pw salt : string) (rounds : nat) :
  @bcrypt_compare hasher pw (@bcrypt_hash hasher pw rounds salt) = true.
Proof. simpl. rewrite read_frame_frame. apply String.eqb_refl. Qed.

End ReferenceLaws.

(* ===================================================================== *)
(** ** The properties at work on the sample data *)
(* ===================================================================== *)

Lemma sample_world_healthy : healthy Sample.world.
Proof. unfold healthy. simpl. constructor. Defined.

Lemma sample_world_at_expiry_healthy : healthy Sample.world_at_expiry.
Proof. unfold healthy. simpl. constructor. Defined.

Lemma sample_sessions_unique : sessions_unique Sample.tables.
Proof.
  split; simpl;
    repeat (constructor; [simpl; intuition discriminate|]); constructor.
Defined.

(** C1 at work: refreshing with the token of session [s1] succeeds, and
    the same token is refused afterwards. *)
Lemma refreshToken_rotates_in_place_single_use_witness :
  sessions_unique (db Sample.world)
  /\ exists resp w',
       Sample.refreshToken (mkRefreshTokenRequest "rt-alice") Sample.world
         = (Ok resp, w')
       /\ tok_refreshToken (tokens resp) <> "rt-alice"
       /\ find (Prisma.sessionIdIs "s1") (sessions (db w'))
          = Some (mkSession "s1" "u1" (tok_refreshToken (tokens resp)) 5000 false
                            100 4000)
       /\ fst (Sample.refreshToken (mkRefreshTokenRequest "rt-alice") w')
          = Throw (EApi (UnauthorizedError "Invalid or expired token")).
Proof.
  split; [exact sample_sessions_unique|].
  eexists. eexists.
  assert (Hne : "rnd-0" <> "rt-alice") by discriminate.
  split; [vm_compute; reflexivity|].
  split; [exact Hne|].
  destruct (refreshToken_rotates_in_place_single_use
              (J := Reference.codec) Sample.service "rt-alice" Sample.world
              _ _ sample_sessions_unique eq_refl Hne)
    as [s [s' [F [F' [_ [_ [_ [_ [_ [_ [_ [_ Hagain]]]]]]]]]]]].
  split; [vm_compute; reflexivity|].
  apply Hagain; [reflexivity|]. unfold healthy. simpl. constructor.
Defined.

(** C2 at work: alice changes her password; both of her sessions end up
    revoked, carol's session is untouched, and with a store that fails
    at the second write nothing changes. *)
Lemma changePassword_all_or_nothing_witness :
  let data := mkChangePasswordRequest "password123!" "a-better-password" in
  (fst (Sample.changePassword "u1" data Sample.world) = Ok tt
   /\ sessions (db (snd (Sample.changePassword "u1" data Sample.world)))
      = revoke_all "u1" (sessions Sample.tables)
   /\ exists u',
        find (Prisma.idIs "u1")
             (users (db (snd (Sample.changePassword "u1" data Sample.world))))
          = Some u'
        /\ password u'
           = @bcrypt_hash Reference.hasher "a-better-password" 12 "rnd-0"
        /\ password u' <> password Sample.alice)
  /\ (let broken := Sample.world_with_faults [false; false; true] in
      fst (Sample.changePassword "u1" data broken) = Throw (EPrisma "P1001")
      /\ users (db (snd (Sample.changePassword "u1" data broken)))
         = users Sample.tables
      /\ sessions (db (snd (Sample.changePassword "u1" data broken)))
         = sessions Sample.tables).
Proof.
  intros data.
  destruct (changePassword_all_or_nothing
              (B := Reference.hasher) Sample.service "u1" data Sample.world)
    as [Hok _].
  destruct (changePassword_all_or_nothing
              (B := Reference.hasher) Sample.service "u1" data
              (Sample.world_with_faults [false; false; true]))
    as [_ [Hfail _]].
  assert (E1 : fst (Sample.changePassword "u1" data Sample.world) = Ok tt)
    by (vm_compute; reflexivity).
  assert (E2 : fst (Sample.changePassword "u1" data
                      (Sample.world_with_faults [false; false; true]))
               = Throw (EPrisma "P1001"))
    by (vm_compute; reflexivity).
  split.
  - split; [exact E1|].
    destruct (Hok E1) as [u [_ [_ [_ [Hs [_ [_ [[u' [Hf [Hp _]]] _]]]]]]]].
    split; [exact Hs|].
    exists u'. split; [exact Hf|]. split; [exact Hp|].
    rewrite Hp. vm_compute. discriminate.
  - cbv zeta. split; [exact E2|]. exact (Hfail _ E2).
Defined.

(** C3: registering with the email of alice is answered with 401
    UNAUTHORIZED, not with 409 CONFLICT. *)
Lemma register_duplicate_email_is_not_conflict :
  healthy Sample.world
  /\ existsb (Prisma.emailIs (reg_email Sample.duplicate_email))
             (users (db Sample.world)) = true
  /\ fst (Sample.register Sample.duplicate_email Sample.world)
     = Throw (EApi (UnauthorizedError "Email already exists"))
  /\ ~ is_conflict (fst (Sample.register Sample.duplicate_email Sample.world))
  /\ errorHandler (EApi (UnauthorizedError "Email already exists"))
     = mkHttpResponse 401 (createErrorResponse "Email already exists" "UNAUTHORIZED").
Proof.
  split; [exact sample_world_healthy|].
  split; [reflexivity|].
  assert (E : fst (Sample.register Sample.duplicate_email Sample.world)
              = Throw (EApi (UnauthorizedError "Email already exists")))
    by (vm_compute; reflexivity).
  split; [exact E|]. split; [|reflexivity].
  intros [msg Hmsg]. rewrite E in Hmsg. discriminate.
Qed.

(** C3 at work: the duplicate registration, and a second registration
    after a successful one. *)
Lemma register_taken_fails_unauthorized_witness :
  already_taken Sample.duplicate_email (db Sample.world)
  /\ (exists msg,
        Sample.register Sample.duplicate_email Sample.world
        = (Throw (EApi (UnauthorizedError msg)),
           set_db (db Sample.world) (answered Sample.world)))
  /\ (exists resp w1,
        Sample.register Sample.newcomer Sample.world = (Ok resp, w1)
        /\ exists msg,
             fst (Sample.register Sample.newcomer w1)
             = Throw (EApi (UnauthorizedError msg))).
Proof.
  destruct (register_taken_fails_unauthorized
              (B := Reference.hasher) (J := Reference.codec) Sample.service)
    as [Htaken Htwice].
  assert (Hdup : already_taken Sample.duplicate_email (db Sample.world))
    by (left; reflexivity).
  split; [exact Hdup|]. split.
  - destruct (Htaken Sample.duplicate_email Sample.world
                     sample_world_healthy Hdup) as [msg [_ [Hrun _]]].
    exists msg. exact Hrun.
  - eexists. eexists. split; [vm_compute; reflexivity|].
    destruct (Htwice Sample.newcomer Sample.newcomer Sample.world _ _ _
                     eq_refl eq_refl eq_refl) as [msg [Hrun _]].
    { unfold healthy. simpl. constructor. }
    exists msg. exact Hrun.
Defined.

(** C4 at work: a token of alice that expired at second 3 is refused at
    second 4 with the message for an invalid token. *)
Lemma verifyToken_expired_token_reported_as_invalid_witness :
  jwt_decode (JwtCodec := Reference.codec) Sample.stale_token "s3cret"
    = Some (Sample.claims_of Sample.alice (-897) 3)
  /\ 3 <= clock Sample.world / 1000
  /\ fst (Sample.verifyToken Sample.stale_token Sample.world)
     = Throw (EApi (UnauthorizedError "Invalid or expired token"))
  /\ Sample.verifyToken "garbage" Sample.world
     = Sample.verifyToken Sample.stale_token Sample.world.
Proof.
  assert (D : jwt_decode (JwtCodec := Reference.codec) Sample.stale_token "s3cret"
              = Some (Sample.claims_of Sample.alice (-897) 3))
    by (vm_compute; reflexivity).
  assert (L : 3 <= clock Sample.world / 1000) by (vm_compute; discriminate).
  split; [exact D|]. split; [exact L|].
  destruct (verifyToken_expired_token_reported_as_invalid
              (J := Reference.codec) Sample.service Sample.stale_token
              Sample.world _ 3 D eq_refl L) as [Hinv [Hsame _]].
  split; [exact Hinv|]. apply Hsame. vm_compute; reflexivity.
Defined.

(** C5 at work: an unknown email and a wrong password for alice. *)
Lemma login_unknown_email_and_wrong_password_indistinguishable_witness :
  let stranger := mkLoginRequest "nobody@example.com" "whatever" false in
  let mistaken := mkLoginRequest "alice@example.com" "not-her-password" true in
  healthy Sample.world
  /\ find (Prisma.emailIs (login_email stranger)) (users (db Sample.world)) = None
  /\ find (Prisma.emailIs (login_email mistaken)) (users (db Sample.world))
     = Some Sample.alice
  /\ isActive Sample.alice = true
  /\ @bcrypt_compare Reference.hasher (login_password mistaken)
                     (password Sample.alice) = false
  /\ fst (Sample.login stranger Sample.world)
     = fst (Sample.login mistaken Sample.world).
Proof.
  intros stranger mistaken.
  assert (H3 : find (Prisma.emailIs (login_email stranger))
                    (users (db Sample.world)) = None) by reflexivity.
  assert (H4 : find (Prisma.emailIs (login_email mistaken))
                    (users (db Sample.world)) = Some Sample.alice) by reflexivity.
  assert (H6 : @bcrypt_compare Reference.hasher (login_password mistaken)
                               (password Sample.alice) = false)
    by (vm_compute; reflexivity).
  repeat (split; [first [exact sample_world_healthy | assumption | reflexivity]|]).
  destruct (login_unknown_email_and_wrong_password_indistinguishable
              (B := Reference.hasher) (J := Reference.codec) Sample.service
              stranger mistaken Sample.world Sample.world Sample.alice
              sample_world_healthy sample_world_healthy H3 H4 eq_refl H6)
    as [e [E1 [E2 _]]].
  unfold Sample.login. now rewrite E1, E2.
Defined.

(** C6: at the very millisecond session [s1] expires, its token is
    still accepted. *)
Lemma refreshToken_at_expiry_instant_is_accepted :
  healthy Sample.world_at_expiry
  /\ find (Prisma.refreshTokenIs "rt-alice") (sessions (db Sample.world_at_expiry))
     = Some Sample.s1
  /\ expiresAt Sample.s1 <= clock Sample.world_at_expiry
  /\ (exists resp,
        fst (Sample.refreshToken (mkRefreshTokenRequest "rt-alice")
                                 Sample.world_at_expiry) = Ok resp)
  /\ ~ is_unauthorized
         (fst (Sample.refreshToken (mkRefreshTokenRequest "rt-alice")
                                   Sample.world_at_expiry)).
Proof.
  split; [exact sample_world_at_expiry_healthy|].
  split; [reflexivity|].
  split; [vm_compute; discriminate|].
  assert (E : exists resp,
             fst (Sample.refreshToken (mkRefreshTokenRequest "rt-alice")
                                      Sample.world_at_expiry) = Ok resp)
    by (eexists; vm_compute; reflexivity).
  split; [exact E|].
  destruct E as [resp E]. intros [msg Hmsg]. rewrite E in Hmsg. discriminate.
Qed.

(** C6 at work: the revoked session of alice is refused and the store is
    left as it was. *)
Lemma refreshToken_unauthorized_iff_rejected_witness :
  healthy Sample.world
  /\ refresh_rejected "rt-alice-old" Sample.world
  /\ is_unauthorized
       (fst (Sample.refreshToken (mkRefreshTokenRequest "rt-alice-old") Sample.world))
  /\ db (snd (Sample.refreshToken (mkRefreshTokenRequest "rt-alice-old") Sample.world))
     = db Sample.world.
Proof.
  assert (R : refresh_rejected "rt-alice-old" Sample.world).
  { right. exists Sample.s3. split; [reflexivity|]. left. reflexivity. }
  split; [exact sample_world_healthy|]. split; [exact R|].
  destruct (refreshToken_unauthorized_iff_rejected
              (J := Reference.codec) Sample.service "rt-alice-old" Sample.world
              sample_world_healthy) as [[_ Hback] Hframe].
  split; [exact (Hback R)|]. exact (Hframe (Hback R)).
Defined.

(** C7 at work: logging out with a string that is no token. *)
Lemma logout_unknown_token_is_noop_and_known_token_revokes_witness :
  healthy Sample.world
  /\ fst (AuthService.logout "garbage" Sample.world) = Ok tt
  /\ db (snd (AuthService.logout "garbage" Sample.world)) = db Sample.world
  /\ find (Prisma.refreshTokenIs "rt-carol")
          (sessions (db (snd (AuthService.logout "rt-carol" Sample.world))))
     = Some (Prisma.set_isRevoked true Sample.s2).
Proof.
  split; [exact sample_world_healthy|].
  destruct (logout_unknown_token_is_noop_and_known_token_revokes
              "garbage" Sample.world sample_world_healthy) as [Hok [Hnoop _]].
  destruct (logout_unknown_token_is_noop_and_known_token_revokes
              "rt-carol" Sample.world sample_world_healthy) as [_ [_ Hrev]].
  split; [exact Hok|]. split; [exact (Hnoop eq_refl)|].
  destruct (Hrev Sample.s2 eq_refl) as [Hfound _]. exact Hfound.
Defined.

(** C8 at work: carol is issued a token pair and her access token is
    verified at once. *)
Lemma generateTokens_verifyToken_roundtrip_witness :
  exists issuedTokens w1,
    Sample.generateTokens Sample.carol Sample.world = (Ok issuedTokens, w1)
    /\ find (Prisma.idIs (id Sample.carol)) (users (db Sample.world))
       = Some Sample.carol
    /\ isActive Sample.carol = true
    /\ id Sample.carol <> ""
    /\ healthy w1
    /\ clock w1 / 1000 < clock Sample.world / 1000 + JWT_CONFIG.ACCESS_TOKEN_EXPIRES_IN
    /\ exists verified,
         fst (Sample.verifyToken (accessToken issuedTokens) w1) = Ok verified
         /\ id verified = "u3"
         /\ roleNames verified = ["user"].
Proof.
  eexists. eexists.
  split; [reflexivity|].
  assert (F : find (Prisma.idIs (id Sample.carol)) (users (db Sample.world))
              = Some Sample.carol) by reflexivity.
  assert (N : id Sample.carol <> "") by discriminate.
  assert (H1 : healthy (set_drawn (S (drawn Sample.world)) Sample.world)).
  { unfold healthy. simpl. constructor. }
  assert (C : clock (set_drawn (S (drawn Sample.world)) Sample.world) / 1000
              < clock Sample.world / 1000 + JWT_CONFIG.ACCESS_TOKEN_EXPIRES_IN)
    by (vm_compute; reflexivity).
  split; [exact F|]. split; [reflexivity|]. split; [exact N|].
  split; [exact H1|]. split; [exact C|].
  destruct (generateTokens_verifyToken_roundtrip
              (J := Reference.codec) Sample.service (L := codec_laws)
              Sample.carol Sample.carol Sample.world _ _ _
              eq_refl F eq_refl eq_refl N eq_refl H1 C)
    as [claims [verified [_ [Hv [_ [_ [Hid Hroles]]]]]]].
  exists verified. split; [exact Hv|]. split; [exact Hid | exact Hroles].
Defined.

(** C9 at work: carol, who holds the role 'user', passes a route open to
    'admin' or 'user' and is turned away from an admin-only route. *)
Lemma authorize_passes_iff_some_required_role_witness :
  exists req' w',
    Sample.authenticate (Sample.bearer Sample.carol_token) Sample.world
      = (Ok req', w')
    /\ AuthMiddleware.authorize ["admin"; "user"] req' = Ok req'
    /\ AuthMiddleware.authorize ["admin"] req'
       = Throw (EApi (UnauthorizedError "Insufficient permissions")).
Proof.
  eexists. eexists.
  split; [vm_compute; reflexivity|].
  match goal with
  | |- AuthMiddleware.authorize _ ?r = _ /\ _ =>
      destruct (authorize_passes_iff_some_required_role
                  (J := Reference.codec) Sample.service ["admin"; "user"]
                  (Sample.bearer Sample.carol_token) r Sample.world _ eq_refl)
        as [u [Hu [Hiff _]]];
      destruct (authorize_passes_iff_some_required_role
                  (J := Reference.codec) Sample.service ["admin"]
                  (Sample.bearer Sample.carol_token) r Sample.world _ eq_refl)
        as [u' [Hu' [_ Hno]]]
  end.
  simpl in Hu, Hu'. inversion Hu; subst u. inversion Hu'; subst u'.
  split.
  - apply Hiff. exists "user". split; simpl; auto.
  - apply Hno. intros [r [Hreq Hheld]]. simpl in Hreq, Hheld.
    destruct Hreq as [Hreq|[]]. destruct Hheld as [Hheld|[]].
    subst r. discriminate.
Defined.

(** C10 at work: bob is deactivated; his right password and a wrong one
    get the same answer. *)
Lemma login_inactive_account_ignores_password_witness :
  healthy Sample.world
  /\ find (Prisma.emailIs "bob@example.com") (users (db Sample.world))
     = Some Sample.bob
  /\ isActive Sample.bob = false
  /\ @bcrypt_compare Reference.hasher "hunter2hunter2" (password Sample.bob) = true
  /\ Sample.login (mkLoginRequest "bob@example.com" "hunter2hunter2" false) Sample.world
     = Sample.login (mkLoginRequest "bob@example.com" "a wrong guess" false) Sample.world
  /\ fst (Sample.login (mkLoginRequest "bob@example.com" "hunter2hunter2" false)
                       Sample.world)
     = Throw (EApi (UnauthorizedError "Account is deactivated")).
Proof.
  split; [exact sample_world_healthy|].
  split; [reflexivity|]. split; [reflexivity|].
  split; [vm_compute; reflexivity|].
  destruct (login_inactive_account_ignores_password
              (B := Reference.hasher) (J := Reference.codec) Sample.service
              "bob@example.com" "hunter2hunter2" "a wrong guess" false
              Sample.world Sample.bob sample_world_healthy eq_refl eq_refl)
    as [Hfst [Hsame _]].
  split; [exact Hsame | exact Hfst].
Defined.

(* ===================================================================== *)
(** ** Audit logging and the sweep of the session ledger *)
(* ===================================================================== *)

(** X1. [logAuditEvent] never throws, whatever the store does: it
    returns normally, leaves users and sessions as they were, and the
    audit log is either as it was or longer by the one entry. *)
Theorem logAuditEvent_never_throws (uid act : string) (w : World) :
  fst (AuthService.logAuditEvent uid act w) = Ok tt
  /\ users (db (snd (AuthService.logAuditEvent uid act w))) = users (db w)
  /\ sessions (db (snd (AuthService.logAuditEvent uid act w))) = sessions (db w)
  /\ (auditLogs (db (snd (AuthService.logAuditEvent uid act w))) = auditLogs (db w)
      \/ auditLogs (db (snd (AuthService.logAuditEvent uid act w)))
         = (auditLogs (db w) ++ [mkAuditLog uid act (clock w)])%list).
Proof.
  unfold AuthService.logAuditEvent, try_catch, bind, newDate.
  destruct (roundTrip_cases (Prisma.auditLog_create uid act (clock w)) w) as [E|E];
    rewrite E; simpl; auto.
Qed.

Lemma cleanExpiredSessions_cases (w : World) :
  (fst (AuthService.cleanExpiredSessions w) = Throw (EPrisma Prisma.P1001)
   /\ db (snd (AuthService.cleanExpiredSessions w)) = db w)
  \/ (fst (AuthService.cleanExpiredSessions w) = Ok tt
      /\ db (snd (AuthService.cleanExpiredSessions w))
         = Prisma.set_sessions
             (filter (fun s => negb (swept (clock w) s)) (sessions (db w))) (db w)).
Proof.
  unfold AuthService.cleanExpiredSessions, bind, newDate.
  destruct (roundTrip_cases
              (Prisma.session_deleteMany_expired_or_revoked (clock w)) w) as [E|E];
    rewrite E; simpl; auto.
Qed.

(** X2. [cleanExpiredSessions] deletes only sessions that are revoked or
    whose expiry is before the clock: on any store, every session it
    leaves was there before, and every session that is neither revoked
    nor expired is still there, and users are untouched; on a store
    that answers, what is left is exactly the sessions that are neither
    revoked nor expired. *)
Theorem cleanExpiredSessions_deletes_only_dead_sessions (w : World) :
  let after := db (snd (AuthService.cleanExpiredSessions w)) in
  (forall s, In s (sessions after) -> In s (sessions (db w)))
  /\ (forall s, In s (sessions (db w)) ->
        isRevoked s = false -> clock w <= expiresAt s -> In s (sessions after))
  /\ users after = users (db w)
  /\ (healthy w ->
      fst (AuthService.cleanExpiredSessions w) = Ok tt
      /\ forall s, In s (sessions after) <->
                   In s (sessions (db w))
                   /\ isRevoked s = false /\ clock w <= expiresAt s).
Proof.
  cbv zeta.
  assert (Hkeep : forall s, negb (swept (clock w) s) = true <->
                            isRevoked s = false /\ clock w <= expiresAt s).
  { intros s. unfold swept. rewrite negb_true_iff, orb_false_iff, Z.ltb_ge. tauto. }
  destruct (cleanExpiredSessions_cases w) as [[Hr Hd]|[Hr Hd]]; rewrite Hd.
  - split; [auto|]. split; [auto|]. split; [reflexivity|].
    intros Hw. exfalso. revert Hr.
    unfold AuthService.cleanExpiredSessions, bind, newDate.
    rewrite roundTrip_healthy by assumption. discriminate.
  - cbn [sessions users Prisma.set_sessions].
    split; [intros s Hin; apply filter_In in Hin; tauto|].
    split; [intros s Hin R X; apply filter_In; split; [assumption|]; now apply Hkeep|].
    split; [reflexivity|]. intros _. split; [exact Hr|].
    intros s. rewrite filter_In, Hkeep. tauto.
Qed.

(* ===================================================================== *)
(** ** What the ledger does to later refreshes *)
(* ===================================================================== *)

Section LedgerOverTime.
Context {J : JwtCodec}.
Variable svc : AuthService.

(** On a store that answers, [refreshToken] throws an
    [UnauthorizedError] exactly when the tables refuse the token. *)
Lemma refreshToken_unauthorized_iff_refused (token : string) (w : World) :
  healthy w ->
  is_unauthorized (fst (AuthService.refreshToken svc (mkRefreshTokenRequest token) w))
  <-> refresh_refused token (clock w) (db w) = true.
Proof.
  intros Hw. rewrite (refreshToken_healthy svc token w Hw). cbv zeta.
  unfold refresh_refused, is_unauthorized.
  destruct (find (Prisma.refreshTokenIs token) (sessions (db w))) as [s|].
  2:{ simpl. split; [reflexivity | intros _; eauto]. }
  destruct (isRevoked s || (expiresAt s <? clock w)).
  { simpl. split; [reflexivity | intros _; eauto]. }
  destruct (find (Prisma.idIs (userId s)) (users (db w))) as [u|].
  2:{ simpl. split; [intros [m Hm]; discriminate | discriminate]. }
  destruct (isActive u); simpl.
  2:{ split; [reflexivity | intros _; eauto]. }
  destruct (Prisma.session_update_refreshToken _ _ _ (db w)) as [[s' d]|e] eqn:Q;
    simpl.
  - split; [intros [m Hm]; discriminate | discriminate].
  - apply session_update_refreshToken_throws in Q. destruct Q as [c Hc]. subst e.
    split; [intros [m Hm]; discriminate | discriminate].
Qed.

(** The error of a refused refresh is always 'Invalid or expired
    token', except for an inactive owner. *)
Lemma refreshToken_revoked_refused (token : string) (w : World) (s : Session) :
  healthy w ->
  find (Prisma.refreshTokenIs token) (sessions (db w)) = Some s ->
  isRevoked s = true ->
  fst (AuthService.refreshToken svc (mkRefreshTokenRequest token) w)
    = Throw (EApi (UnauthorizedError AUTH_ERRORS.INVALID_TOKEN)).
Proof.
  intros Hw F R. rewrite (refreshToken_healthy svc token w Hw). cbv zeta.
  rewrite F, R. reflexivity.
Qed.

Lemma refreshToken_unknown_refused (token : string) (w : World) :
  healthy w ->
  find (Prisma.refreshTokenIs token) (sessions (db w)) = None ->
  fst (AuthService.refreshToken svc (mkRefreshTokenRequest token) w)
    = Throw (EApi (UnauthorizedError AUTH_ERRORS.INVALID_TOKEN)).
Proof.
  intros Hw F. rewrite (refreshToken_healthy svc token w Hw). cbv zeta.
  rewrite F. reflexivity.
Qed.

(** X3. Logout is effective: whatever token is handed to [logout], on a
    store that answers, a later [refreshToken] with that token on the
    store [logout] left is refused with the [UnauthorizedError]
    'Invalid or expired token': a matched session is now revoked, and
    an unmatched token still matches nothing. *)
Theorem logout_then_refreshToken_is_refused (token : string) (w w2 : World) :
  healthy w ->
  healthy w2 ->
  db w2 = db (snd (AuthService.logout token w)) ->
  fst (AuthService.refreshToken svc (mkRefreshTokenRequest token) w2)
    = Throw (EApi (UnauthorizedError "Invalid or expired token")).
Proof.
  intros Hw Hw2 Hdb.
  destruct (find (Prisma.refreshTokenIs token) (sessions (db w))) as [s|] eqn:F.
  - destruct (logout_known token w s Hw F) as [w' [Hrun [_ [Hs _]]]].
    rewrite Hrun in Hdb. simpl in Hdb.
    apply (refreshToken_revoked_refused token w2 (Prisma.set_isRevoked true s) Hw2);
      [|reflexivity].
    rewrite Hdb, Hs. unfold Prisma.session_rewrite. rewrite find_map_stable.
    + rewrite F. simpl. unfold Prisma.sessionIdIs. now rewrite String.eqb_refl.
    + intros x. now destruct (Prisma.sessionIdIs (session_id s) x).
  - rewrite (logout_unknown token w Hw F) in Hdb. simpl in Hdb.
    apply refreshToken_unknown_refused; [assumption|]. now rewrite Hdb.
Qed.

Lemma find_filter_kept {A} (f g : A -> bool) (l : list A) (x : A) :
  find f l = Some x -> g x = true -> find f (filter g l) = Some x.
Proof.
  induction l as [|a l IH]; simpl; [discriminate|].
  destruct (f a) eqn:Fa.
  - intros H Hg. inversion H; subst. rewrite Hg. simpl. now rewrite Fa.
  - intros H Hg. destruct (g a); simpl; [rewrite Fa|]; now apply IH.
Qed.

Lemma find_filter_none {A} (f g : A -> bool) (l : list A) :
  (forall x, In x l -> f x = true -> g x = false) ->
  find f (filter g l) = None.
Proof.
  intros H. apply find_none_iff. apply not_true_is_false. intros Hex.
  apply existsb_exists in Hex. destruct Hex as [x [Hin Hf]].
  apply filter_In in Hin. destruct Hin as [Hin Hg].
  rewrite (H x Hin Hf) in Hg. discriminate.
Qed.

(** X4. The sweep is invisible to [refreshToken]: with unique refresh
    tokens, and at any clock not before the one of the sweep, a token
    is refused on the swept tables exactly when it is refused on the
    tables as they were; the sweep removes no session that could still
    be refreshed and makes no refused token acceptable. *)
Theorem cleanExpiredSessions_keeps_refresh_verdicts
        (token : string) (w w2 : World) :
  NoDup (map refreshToken (sessions (db w))) ->
  healthy w2 ->
  clock w <= clock w2 ->
  let after := db (snd (AuthService.cleanExpiredSessions w)) in
  is_unauthorized
    (fst (AuthService.refreshToken svc (mkRefreshTokenRequest token)
                                   (on_tables after w2)))
  <-> is_unauthorized
        (fst (AuthService.refreshToken svc (mkRefreshTokenRequest token)
                                       (on_tables (db w) w2))).
Proof.
  intros Hnd Hw2 Hclock. cbv zeta.
  rewrite !refreshToken_unauthorized_iff_refused
    by (unfold on_tables; auto with healthy).
  unfold on_tables. cbn [clock db set_db].
  destruct (cleanExpiredSessions_cases w) as [[_ Hd]|[_ Hd]]; rewrite Hd;
    [tauto|].
  unfold refresh_refused. cbn [sessions users Prisma.set_sessions].
  destruct (find (Prisma.refreshTokenIs token) (sessions (db w))) as [s|] eqn:F.
  - destruct (swept (clock w) s) eqn:Sw.
    + rewrite find_filter_none.
      * split; [intros _|reflexivity].
        unfold swept in Sw. apply orb_true_iff in Sw. destruct Sw as [X|R].
        -- apply Z.ltb_lt in X.
           assert (X2 : (expiresAt s <? clock w2) = true) by (apply Z.ltb_lt; lia).
           rewrite X2. now rewrite orb_true_r.
        -- now rewrite R.
      * intros x Hin Hx.
        assert (x = s).
        { apply (NoDup_map_eq refreshToken (sessions (db w))); auto.
          - apply find_some in F. tauto.
          - apply find_some in F. destruct F as [_ F].
            unfold Prisma.refreshTokenIs in *.
            apply String.eqb_eq in F, Hx. congruence. }
        subst x. now rewrite Sw.
    + rewrite (find_filter_kept _ _ _ s F) by now rewrite Sw. tauto.
  - rewrite find_filter_none; [tauto|].
    intros x Hin Hx. rewrite (find_none _ _ F x Hin) in Hx. discriminate.
Qed.

End LedgerOverTime.

(* ===================================================================== *)
(** ** What a password change does to later calls *)
(* ===================================================================== *)

Section AfterPasswordChange.
Context {B : Bcrypt} {J : JwtCodec}.
Variable svc : AuthService.

(** What a successful [changePassword] went through. *)
Lemma changePassword_ok_inv uid data w w' :
  AuthService.changePassword svc uid data w = (Ok tt, w') ->
  exists u,
    find (Prisma.idIs uid) (users (db w)) = Some u
    /\ bcrypt_compare (currentPassword data) (password u) = true
    /\ users (db w') =
         with_password uid
           (bcrypt_hash (newPassword data) (saltRounds svc) (entropy w (drawn w)))
           (users (db w))
    /\ sessions (db w') = revoke_all uid (sessions (db w)).
Proof.
  rewrite changePassword_unfold.
  unfold Prisma.user_findUnique_id, bind.
  destruct (Prisma.query _ w) as [[found|ex] w0] eqn:Q; [|discriminate].
  apply query_ok_inv in Q. destruct Q as [Hfound Hw0].
  destruct found as [u|]; [|discriminate].
  unfold bcrypt.compare, ret.
  destruct (bcrypt_compare (currentPassword data) (password u)) eqn:C;
    [|discriminate].
  cbn [negb]. unfold bcrypt.hash, bind, draw, ret.
  match goal with
  | |- context [Prisma.transaction (password_writes uid ?h) ?w1] =>
      destruct (password_transaction_all_or_nothing uid h w1)
        as [[w2 [Hrun [_ [Hus Hss]]]] | [e [w2 [Hrun _]]]]; rewrite Hrun
  end; [|discriminate].
  destruct (logAuditEvent_frame uid "password_change" w2) as [w3 [Hlog [Hu3 Hs3]]].
  rewrite Hlog. intros H. inversion H; subst w3. clear H.
  exists u. split; [now symmetry|]. split; [exact C|].
  rewrite Hu3, Hs3, Hus, Hss. subst w0. split; reflexivity.
Qed.

(** X5. A password change forces re-authentication: after a successful
    [changePassword], with unique refresh tokens, every refresh token
    that a session of the identity held before the change is refused
    by [refreshToken] with 'Invalid or expired token'. *)
Theorem changePassword_then_refreshToken_is_refused
        (uid : string) (data : ChangePasswordRequest) (w w' w2 : World)
        (s : Session) :
  AuthService.changePassword svc uid data w = (Ok tt, w') ->
  NoDup (map refreshToken (sessions (db w))) ->
  In s (sessions (db w)) ->
  userId s = uid ->
  db w2 = db w' ->
  healthy w2 ->
  fst (AuthService.refreshToken svc (mkRefreshTokenRequest (refreshToken s)) w2)
    = Throw (EApi (UnauthorizedError "Invalid or expired token")).
Proof.
  intros Hrun Hnd Hin Huid Hdb Hw2.
  destruct (changePassword_ok_inv uid data w w' Hrun) as [u [_ [_ [_ Hss]]]].
  set (g := fun x : Session =>
              if String.eqb (userId x) uid && negb (isRevoked x)
              then Prisma.set_isRevoked true x else x).
  assert (F : find (Prisma.refreshTokenIs (refreshToken s)) (sessions (db w))
              = Some s).
  { destruct (find_exists (Prisma.refreshTokenIs (refreshToken s))
                          (sessions (db w)) s Hin) as [y Hy].
    { unfold Prisma.refreshTokenIs. apply String.eqb_refl. }
    rewrite Hy. f_equal. apply find_some in Hy. destruct Hy as [Hyin Hyt].
    unfold Prisma.refreshTokenIs in Hyt. apply String.eqb_eq in Hyt.
    now apply (NoDup_map_eq refreshToken (sessions (db w))). }
  apply (refreshToken_revoked_refused svc (refreshToken s) w2 (g s) Hw2).
  - rewrite Hdb, Hss. unfold revoke_all. fold g. rewrite find_map_stable.
    + now rewrite F.
    + intros x. unfold g.
      now destruct (String.eqb (userId x) uid && negb (isRevoked x)).
  - unfold g. apply String.eqb_eq in Huid. rewrite Huid.
    destruct (isRevoked s) eqn:R; simpl; [exact R | reflexivity].
Qed.

End AfterPasswordChange.

(* ===================================================================== *)
(** ** Opening a session: createSession and login *)
(* ===================================================================== *)

(** The world stays healthy through the steps of a method. *)
Ltac still_healthy :=
  repeat first [ apply healthy_set_db | apply healthy_answered
               | apply healthy_set_drawn | apply healthy_set_issued ];
  assumption.

Lemma createSession_ok_inv uid t rm w w' :
  AuthService.createSession uid t rm w = (Ok tt, w') ->
  existsb (Prisma.sessionIdIs (idgen w (issued w))) (sessions (db w)) = false
  /\ existsb (Prisma.refreshTokenIs t) (sessions (db w)) = false
  /\ sessions (db w') = (sessions (db w) ++ [opened_session uid t rm w])%list
  /\ users (db w') = users (db w).
Proof.
  unfold AuthService.createSession, bind, newDate, Prisma.nextId.
  destruct (Prisma.roundTrip _ _) as [[s|ex] w1] eqn:Q; [|discriminate].
  apply roundTrip_ok_inv in Q. destruct Q as [d [Hq Hw1]].
  unfold ret. intros H. inversion H; subst w' w1. clear H.
  unfold Prisma.session_create in Hq. cbn [db set_issued] in Hq.
  destruct (existsb (Prisma.sessionIdIs _) _) eqn:Ei; [discriminate|].
  destruct (existsb (Prisma.refreshTokenIs t) _) eqn:Et; [discriminate|].
  cbn [orb] in Hq.
  destruct (negb _); [discriminate|].
  inversion Hq; subst d. repeat split.
Qed.

Lemma createSession_healthy uid t rm w :
  healthy w ->
  existsb (Prisma.sessionIdIs (idgen w (issued w))) (sessions (db w)) = false ->
  existsb (Prisma.refreshTokenIs t) (sessions (db w)) = false ->
  existsb (Prisma.idIs uid) (users (db w)) = true ->
  AuthService.createSession uid t rm w =
    (Ok tt,
     set_db (Prisma.set_sessions
               (sessions (db w) ++ [opened_session uid t rm w])%list (db w))
            (answered (set_issued (S (issued w)) w))).
Proof.
  intros Hw Hi Ht Hu.
  unfold AuthService.createSession, bind, newDate, Prisma.nextId.
  rewrite roundTrip_healthy by auto with healthy.
  unfold Prisma.session_create. cbn [db set_issued clock].
  rewrite Hi, Ht, Hu. reflexivity.
Qed.

Section LoginSuccess.
Context {B : Bcrypt} {J : JwtCodec}.
Variable svc : AuthService.

Lemma stamped_has_owner (u : User) (now : Z) (us : list User) :
  In u us -> existsb (Prisma.idIs (id u)) (stamped u now us) = true.
Proof.
  intros Hin. apply existsb_exists.
  exists (Prisma.set_lastLogin now u). split.
  - unfold stamped. apply in_map_iff. exists u. split; [|assumption].
    unfold Prisma.idIs. now rewrite String.eqb_refl.
  - unfold Prisma.idIs. cbn [id Prisma.set_lastLogin]. apply String.eqb_refl.
Qed.

(** A login that goes through, step by step: the session that is opened
    and the rows that are written. *)
Lemma login_healthy_run (data : LoginRequest) (w : World) (u : User) :
  healthy w ->
  find (Prisma.emailIs (login_email data)) (users (db w)) = Some u ->
  isActive u = true ->
  bcrypt_compare (login_password data) (password u) = true ->
  session_slot_free w ->
  exists w',
    AuthService.login svc data w = (Ok (refreshed svc u w), w')
    /\ sessions (db w') =
         (sessions (db w)
          ++ [opened_session (id u) (entropy w (drawn w)) (rememberMe data) w])%list
    /\ users (db w') = stamped u (clock w) (users (db w))
    /\ auditLogs (db w') =
         (auditLogs (db w) ++ [mkAuditLog (id u) "login" (clock w)])%list
    /\ healthy w'.
Proof.
  intros Hw F Act C [Hid Htok].
  assert (Hin : In u (users (db w))) by (apply find_some in F; tauto).
  unfold AuthService.login, bind, Prisma.user_findUnique_email.
  rewrite query_healthy by assumption. rewrite F, Act. cbn [negb].
  unfold bcrypt.compare, ret. rewrite C. cbn [negb]. unfold newDate.
  rewrite roundTrip_healthy by auto with healthy.
  unfold Prisma.user_update. cbn [db set_db answered set_faults clock].
  destruct (find_exists (Prisma.idIs (id u)) (users (db w)) u Hin) as [y Hy].
  { unfold Prisma.idIs. apply String.eqb_refl. }
  rewrite Hy. fold (stamped u (clock w) (users (db w))).
  rewrite generateTokens_run. cbn [tok_refreshToken entropy drawn set_db].
  rewrite createSession_healthy.
  - rewrite logAuditEvent_healthy by still_healthy.
    eexists. split; [reflexivity|].
    split; [|split; [reflexivity|split; [reflexivity|still_healthy]]].
    cbn [db set_db sessions users auditLogs Prisma.set_sessions Prisma.set_users
         Prisma.set_auditLogs answered set_faults set_drawn set_issued clock
         idgen issued].
    unfold opened_session.
    cbn [idgen issued clock set_db set_drawn set_faults]. reflexivity.
  - still_healthy.
  - exact Hid.
  - exact Htok.
  - cbn [db set_db set_drawn users Prisma.set_users]. now apply stamped_has_owner.
Qed.


End LoginSuccess.

(* ===================================================================== *)
(** ** Using the refresh token that was handed out *)
(* ===================================================================== *)

Section RefreshAfterwards.
Context {B : Bcrypt} {J : JwtCodec}.
Variable svc : AuthService.

(** A successful login, in full: the identity that logged in and the
    session that was opened. *)
Lemma login_ok_inv_full data w resp w' :
  AuthService.login svc data w = (Ok resp, w') ->
  exists u s,
    find (Prisma.emailIs (login_email data)) (users (db w)) = Some u
    /\ isActive u = true
    /\ resp = refreshed svc u w
    /\ users (db w') = stamped u (clock w) (users (db w))
    /\ sessions (db w') = (sessions (db w) ++ [s])%list
    /\ refreshToken s = entropy w (drawn w)
    /\ userId s = id u
    /\ isRevoked s = false
    /\ expiresAt s = clock w + session_lifetime (rememberMe data)
    /\ existsb (Prisma.sessionIdIs (session_id s)) (sessions (db w)) = false
    /\ existsb (Prisma.refreshTokenIs (entropy w (drawn w))) (sessions (db w)) = false.
Proof.
  unfold AuthService.login, bind, Prisma.user_findUnique_email.
  destruct (Prisma.query _ w) as [[found|ex] w0] eqn:Q; [|discriminate].
  apply query_ok_inv in Q. destruct Q as [Hfound Hw0].
  destruct found as [u|]; [|discriminate].
  destruct (isActive u) eqn:Act; [|discriminate]. cbn [negb].
  unfold bcrypt.compare, ret.
  destruct (bcrypt_compare (login_password data) (password u)) eqn:C;
    [|discriminate].
  cbn [negb]. unfold newDate.
  destruct (Prisma.roundTrip _ w0) as [[u1|ex] w1] eqn:Q1; [|discriminate].
  apply roundTrip_ok_inv in Q1. destruct Q1 as [d [Hq Hw1]].
  rewrite generateTokens_run.
  destruct (AuthService.createSession _ _ _ _) as [[[]|ex] w2] eqn:Hcs;
    [|discriminate].
  apply createSession_ok_inv in Hcs. destruct Hcs as [Hi [Ht [Hs Hu]]].
  destruct (logAuditEvent_frame (id u) "login" w2) as [w3 [Hlog [Hu3 Hs3]]].
  rewrite Hlog. intros H. inversion H; subst resp w'. clear H.
  unfold Prisma.user_update in Hq.
  destruct (find (Prisma.idIs (id u)) (users (db w0))); [|discriminate].
  inversion Hq; subst d u1. subst w1 w0.
  cbn [db set_db set_drawn answered set_faults sessions users Prisma.set_users
       tok_refreshToken entropy drawn clock idgen issued] in *.
  exists u. eexists.
  split; [now symmetry|]. split; [exact Act|]. split; [reflexivity|].
  split; [rewrite Hu3, Hu; reflexivity|].
  split; [rewrite Hs3, Hs; reflexivity|].
  split; [reflexivity|]. split; [reflexivity|]. split; [reflexivity|].
  split; [reflexivity|]. split; [exact Hi | exact Ht].
Qed.

Lemma find_last {A} (f : A -> bool) (l : list A) (x : A) :
  existsb f l = false -> f x = true -> find f (l ++ [x]) = Some x.
Proof.
  induction l as [|a l IH]; simpl; intros Hl Hx; [now rewrite Hx|].
  apply orb_false_iff in Hl. destruct Hl as [Ha Hl]. rewrite Ha. now apply IH.
Qed.

Lemma find_stamped (u : User) (now : Z) (us : list User) :
  NoDup (map id us) -> In u us ->
  find (Prisma.idIs (id u)) (stamped u now us) = Some (Prisma.set_lastLogin now u).
Proof.
  intros Hnd Hin. unfold stamped. rewrite find_map_stable.
  - rewrite (find_user_by_id_unique _ u Hnd Hin). simpl.
    unfold Prisma.idIs. now rewrite String.eqb_refl.
  - intros x. destruct (Prisma.idIs (id u) x) eqn:E; exact E.
Qed.

(** [refreshToken] accepts a token whose session is live, whose owner
    is active, when the token it issues collides with no other
    session. *)
Lemma refreshToken_accepts token w s u :
  healthy w ->
  find (Prisma.refreshTokenIs token) (sessions (db w)) = Some s ->
  isRevoked s = false ->
  clock w <= expiresAt s ->
  find (Prisma.idIs (userId s)) (users (db w)) = Some u ->
  isActive u = true ->
  existsb (fun x => Prisma.refreshTokenIs (entropy w (drawn w)) x
                    && negb (Prisma.sessionIdIs (session_id s) x))
          (sessions (db w)) = false ->
  fst (AuthService.refreshToken svc (mkRefreshTokenRequest token) w)
    = Ok (refreshed svc u w)
  /\ sessions (db (snd (AuthService.refreshToken svc (mkRefreshTokenRequest token) w)))
     = Prisma.session_rewrite (session_id s)
         (Prisma.set_refreshToken (entropy w (drawn w)) (clock w))
         (sessions (db w))
  /\ users (db (snd (AuthService.refreshToken svc (mkRefreshTokenRequest token) w)))
     = users (db w).
Proof.
  intros Hw F R X U Act Free.
  rewrite (refreshToken_healthy svc token w Hw). cbv zeta.
  rewrite F, R. apply Z.ltb_ge in X. rewrite X. cbn [orb].
  rewrite U, Act. cbn [negb].
  unfold Prisma.session_update_refreshToken.
  destruct (find_exists (Prisma.sessionIdIs (session_id s)) (sessions (db w)) s)
    as [y Hy].
  { apply find_some in F. tauto. }
  { unfold Prisma.sessionIdIs. apply String.eqb_refl. }
  rewrite Hy, Free. repeat split.
Qed.

Lemma no_token_no_clash (t i : string) (l : list Session) :
  existsb (Prisma.refreshTokenIs t) l = false ->
  existsb (fun x => Prisma.refreshTokenIs t x && negb (Prisma.sessionIdIs i x)) l
    = false.
Proof.
  intros H. apply not_true_is_false. intros Hex.
  apply existsb_exists in Hex. destruct Hex as [x [Hin Hx]].
  apply andb_true_iff in Hx. destruct Hx as [Hx _].
  assert (existsb (Prisma.refreshTokenIs t) l = true)
    by (apply existsb_exists; now exists x).
  congruence.
Qed.

(** X7. The refresh token returned by a successful login can be used:
    with unique user ids, on the store the login left, on a store that
    answers, while the clock is not past the lifetime of the session,
    and when the token about to be issued is not already stored,
    [refreshToken] with it succeeds and returns the same identity. *)
Theorem login_then_refreshToken_succeeds
        (data : LoginRequest) (w w' w2 : World) (resp : AuthResponse) :
  NoDup (map id (users (db w))) ->
  AuthService.login svc data w = (Ok resp, w') ->
  db w2 = db w' ->
  healthy w2 ->
  clock w2 <= clock w + session_lifetime (rememberMe data) ->
  existsb (Prisma.refreshTokenIs (entropy w2 (drawn w2))) (sessions (db w2)) = false ->
  exists resp2,
    fst (AuthService.refreshToken
           svc (mkRefreshTokenRequest (tok_refreshToken (tokens resp))) w2)
      = Ok resp2
    /\ ur_id (user resp2) = ur_id (user resp)
    /\ ur_email (user resp2) = ur_email (user resp)
    /\ ur_roles (user resp2) = ur_roles (user resp).
Proof.
  intros Hnd Hrun Hdb Hw2 Hclock Hfree.
  destruct (login_ok_inv_full data w resp w' Hrun)
    as [u [s [F [Act [Hresp [Hus [Hss [Ht [Hown [Hrev [Hexp [Hi Hnew]]]]]]]]]]]].
  subst resp. cbn [refreshed tokens tok_refreshToken user].
  assert (Hin : In u (users (db w))) by (apply find_some in F; tauto).
  destruct (refreshToken_accepts (entropy w (drawn w)) w2 s
              (Prisma.set_lastLogin (clock w) u) Hw2) as [Hok _].
  - rewrite Hdb, Hss. apply find_last.
    + exact Hnew.
    + unfold Prisma.refreshTokenIs. rewrite Ht. apply String.eqb_refl.
  - exact Hrev.
  - rewrite Hexp. exact Hclock.
  - rewrite Hdb, Hus, Hown. now apply find_stamped.
  - exact Act.
  - now apply no_token_no_clash.
  - eexists. split; [exact Hok|]. repeat split.
Qed.

Lemma find_session_by_token_unique (l : list Session) (s : Session) :
  NoDup (map refreshToken l) -> In s l ->
  find (Prisma.refreshTokenIs (refreshToken s)) l = Some s.
Proof.
  intros Hnd Hin.
  destruct (find_exists (Prisma.refreshTokenIs (refreshToken s)) l s Hin) as [y Hy].
  { unfold Prisma.refreshTokenIs. apply String.eqb_refl. }
  rewrite Hy. f_equal.
  apply find_some in Hy. destruct Hy as [Hyin Hyt].
  unfold Prisma.refreshTokenIs in Hyt. apply String.eqb_eq in Hyt.
  now apply (NoDup_map_eq refreshToken l y s).
Qed.

(** X8. Rotation hands out a usable token: after a successful
    [refreshToken] on a session table with unique ids and tokens, the
    refresh token it returned is accepted by the next [refreshToken],
    on the store the first one left, on a store that answers, while
    the clock is not past the expiry of the session and the token
    about to be issued is not already stored; the identity returned is
    the same. *)
Theorem refreshToken_then_refreshToken_succeeds
        (token : string) (w w' w2 : World) (resp : AuthResponse) :
  sessions_unique (db w) ->
  AuthService.refreshToken svc (mkRefreshTokenRequest token) w = (Ok resp, w') ->
  db w2 = db w' ->
  healthy w2 ->
  (forall s, find (Prisma.refreshTokenIs token) (sessions (db w)) = Some s ->
             clock w2 <= expiresAt s) ->
  existsb (Prisma.refreshTokenIs (entropy w2 (drawn w2))) (sessions (db w2)) = false ->
  exists resp2,
    fst (AuthService.refreshToken
           svc (mkRefreshTokenRequest (tok_refreshToken (tokens resp))) w2)
      = Ok resp2
    /\ user resp2 = user resp.
Proof.
  intros Huniq Hrun Hdb Hw2 Hclock Hfree.
  assert (Huniq' : sessions_unique (db w')).
  { pose proof (refreshToken_keeps_unique svc (mkRefreshTokenRequest token) w Huniq)
      as H. now rewrite Hrun in H. }
  destruct (refreshToken_ok_inv svc token w resp w' Hrun)
    as [s [u [F [R [X [U [Act [Hresp Hdb']]]]]]]].
  subst resp. cbn [refreshed tokens tok_refreshToken user].
  set (fresh := entropy w (drawn w)) in *.
  set (s' := Prisma.set_refreshToken fresh (clock w) s).
  assert (Hin' : In s' (sessions (db w'))).
  { rewrite Hdb'. cbn [sessions Prisma.set_sessions].
    unfold Prisma.session_rewrite. apply in_map_iff. exists s. split.
    - unfold Prisma.sessionIdIs. now rewrite String.eqb_refl.
    - apply find_some in F. tauto. }
  destruct (refreshToken_accepts fresh w2 s' u Hw2) as [Hok _].
  - rewrite Hdb.
    apply (find_session_by_token_unique (sessions (db w')) s'); [|exact Hin'].
    apply Huniq'.
  - exact R.
  - cbn [expiresAt s' Prisma.set_refreshToken]. now apply Hclock.
  - rewrite Hdb, Hdb'. cbn [users Prisma.set_sessions userId s'
                            Prisma.set_refreshToken]. exact U.
  - exact Act.
  - now apply no_token_no_clash.
  - eexists. split; [exact Hok | reflexivity].
Qed.

End RefreshAfterwards.

(* ===================================================================== *)
(** ** register, and logging in afterwards *)
(* ===================================================================== *)

Section RegisterSuccess.
Context {B : Bcrypt} {J : JwtCodec}.
Variable svc : AuthService.

Lemma taken_clause_none data (us : list User) :
  existsb (Prisma.emailIs (reg_email data)) us = false ->
  match reg_username data with
  | Some n => existsb (Prisma.usernameIs n) us
  | None => false
  end = false ->
  find (taken_clause data) us = None.
Proof.
  intros He Hn. apply find_none_iff. apply not_true_is_false. intros Hex.
  apply existsb_exists in Hex. destruct Hex as [x [Hin Hx]].
  unfold taken_clause, Prisma.whereOr in Hx. simpl in Hx.
  apply orb_true_iff in Hx. destruct Hx as [Hx|Hx].
  - assert (existsb (Prisma.emailIs (reg_email data)) us = true)
      by (apply existsb_exists; now exists x).
    congruence.
  - destruct (reg_username data) as [n|]; [|discriminate].
    destruct (truthy n); [|discriminate]. simpl in Hx.
    rewrite orb_false_r in Hx.
    assert (existsb (Prisma.usernameIs n) us = true)
      by (apply existsb_exists; now exists x).
    congruence.
Qed.

(** X9. A registration that nothing stands in the way of, on a store
    that answers, succeeds: it returns the new identity and a token
    pair, and the store gains exactly one user row (active, with the
    hash of the password, no role, no last login), exactly one session
    row (owned by the new identity, holding the returned refresh token,
    not revoked, expiring 7 days after the clock) and one audit
    entry. *)
Theorem register_creates_identity_and_session (data : RegisterRequest) (w : World) :
  healthy w ->
  registration_free data w ->
  exists resp w',
    AuthService.register svc data w = (Ok resp, w')
    /\ user resp = transformUserToResponse (registered_user svc data w)
    /\ tok_refreshToken (tokens resp) = refreshToken (registered_session w)
    /\ users (db w') = (users (db w) ++ [registered_user svc data w])%list
    /\ sessions (db w') = (sessions (db w) ++ [registered_session w])%list
    /\ auditLogs (db w') =
         (auditLogs (db w)
          ++ [mkAuditLog (idgen w (issued w)) "register" (clock w)])%list
    /\ healthy w'.
Proof.
  intros Hw [He [Hn [Hi [Hsi Hst]]]].
  unfold AuthService.register, bind, Prisma.user_findFirst.
  rewrite query_healthy by assumption.
  fold (taken_clause data). rewrite (taken_clause_none data _ He Hn).
  unfold ret at 1. unfold bcrypt.hash, bind, draw, ret, Prisma.nextId, newDate.
  rewrite roundTrip_healthy by still_healthy.
  unfold Prisma.user_create.
  cbn [db set_db set_drawn set_issued answered set_faults clock entropy drawn
       idgen issued].
  rewrite Hi, He, Hn. cbn [orb].
  fold (registered_user svc data w).
  rewrite generateTokens_run.
  cbn [tok_refreshToken entropy drawn set_db set_drawn set_issued answered
       set_faults].
  rewrite createSession_healthy.
  - rewrite logAuditEvent_healthy by still_healthy.
    eexists. eexists. split; [reflexivity|].
    split; [reflexivity|]. split; [reflexivity|]. split; [reflexivity|].
    split; [reflexivity|]. split; [reflexivity|]. still_healthy.
  - still_healthy.
  - exact Hsi.
  - exact Hst.
  - cbn [db set_db set_drawn users Prisma.set_users id registered_user].
    rewrite existsb_app. simpl. unfold Prisma.idIs at 2. cbn [id].
    rewrite String.eqb_refl. now rewrite orb_true_r.
Qed.

(** What a successful registration went through. *)
Lemma register_ok_inv data w resp w' :
  AuthService.register svc data w = (Ok resp, w') ->
  existsb (Prisma.emailIs (reg_email data)) (users (db w)) = false
  /\ user resp = transformUserToResponse (registered_user svc data w)
  /\ users (db w') = (users (db w) ++ [registered_user svc data w])%list.
Proof.
  unfold AuthService.register, bind.
  destruct (Prisma.user_findFirst _ w) as [[found|ex] w0] eqn:Q; [|discriminate].
  unfold Prisma.user_findFirst in Q. apply query_ok_inv in Q.
  destruct Q as [_ Hw0].
  match goal with
  | |- context [match ?c w0 with _ => _ end] =>
      destruct (c w0) as [[[]|ex] w1] eqn:Chk; [|discriminate]
  end.
  assert (Hw1 : w1 = w0).
  { destruct found as [eu|].
    - destruct (String.eqb (email eu) (reg_email data)); [discriminate|].
      destruct (AuthService.username_strict_eq _ _); [discriminate|].
      now inversion Chk.
    - now inversion Chk. }
  subst w1. clear Chk.
  unfold bcrypt.hash, bind, draw, ret, Prisma.nextId, newDate.
  destruct (Prisma.roundTrip _ _) as [[u|ex] w2] eqn:Q; [|discriminate].
  apply roundTrip_ok_inv in Q. destruct Q as [d [Hq Hw2]].
  rewrite generateTokens_run.
  destruct (AuthService.createSession _ _ _ _) as [[[]|ex] w3] eqn:Hcs;
    [|discriminate].
  apply createSession_users in Hcs.
  destruct (logAuditEvent_frame (id u) "register" w3) as [w4 [Hlog [Hu4 _]]].
  rewrite Hlog. intros H. inversion H; subst resp w'. clear H.
  subst w0 w2.
  cbn [db set_db set_drawn set_issued answered set_faults clock entropy drawn
       idgen issued user] in *.
  unfold Prisma.user_create in Hq.
  destruct (existsb (Prisma.idIs _) (users (db w))); [discriminate|].
  destruct (existsb (Prisma.emailIs _) (users (db w))) eqn:He; [discriminate|].
  cbn [orb] in Hq.
  destruct (match reg_username data with
            | Some n => existsb (Prisma.usernameIs n) (users (db w))
            | None => false
            end); [discriminate|].
  inversion Hq; subst u d. fold (registered_user svc data w).
  split; [reflexivity|]. split; [reflexivity|].
  rewrite Hu4, Hcs. reflexivity.
Qed.

(** X10. Register, then log in: under the contract of bcrypt, after a
    successful registration a login with the same email and password,
    on the store the registration left, on a store that answers and
    with a free session id and token, succeeds and returns the identity
    that was registered. *)
Theorem register_then_login_succeeds
        {L : BcryptLaws B}
        (data : RegisterRequest) (remember : bool)
        (w w' w2 : World) (resp : AuthResponse) :
  AuthService.register svc data w = (Ok resp, w') ->
  db w2 = db w' ->
  healthy w2 ->
  session_slot_free w2 ->
  exists resp2 w3,
    AuthService.login
      svc (mkLoginRequest (reg_email data) (reg_password data) remember) w2
      = (Ok resp2, w3)
    /\ ur_id (user resp2) = ur_id (user resp)
    /\ ur_email (user resp2) = reg_email data
    /\ ur_isActive (user resp2) = true.
Proof.
  intros Hrun Hdb Hw2 Hfree.
  destruct (register_ok_inv data w resp w' Hrun) as [He [Hresp Hus]].
  destruct (login_healthy_run
              svc (mkLoginRequest (reg_email data) (reg_password data) remember)
              w2 (registered_user svc data w) Hw2) as [w3 [Hlogin _]].
  - cbn [login_email]. rewrite Hdb, Hus. apply find_last; [exact He|].
    unfold Prisma.emailIs. cbn [email registered_user]. apply String.eqb_refl.
  - reflexivity.
  - cbn [login_password password registered_user]. apply bcrypt_compare_hash.
  - exact Hfree.
  - eexists. eexists. split; [exact Hlogin|].
    rewrite Hresp. repeat split.
Qed.

End RegisterSuccess.

(** Writes to the session table and to the audit log leave the user
    table alone. *)
Lemma session_update_isRevoked_users i b d a d' :
  Prisma.session_update_isRevoked i b d = Ok (a, d') -> users d' = users d.
Proof.
  unfold Prisma.session_update_isRevoked.
  destruct (find _ _); [|discriminate]. intros H. now inversion H.
Qed.

Lemma auditLog_create_users uid act now d a d' :
  Prisma.auditLog_create uid act now d = Ok (a, d') -> users d' = users d.
Proof. unfold Prisma.auditLog_create. intros H. now inversion H. Qed.

(* ===================================================================== *)
(** ** Nothing is deleted, un-revoked or re-owned *)
(* ===================================================================== *)

Section Growth.
Context {A : Type}.
Variable E : A -> A -> Prop.
Hypothesis E_refl : forall x, E x x.
Hypothesis E_trans : forall x y z, E x y -> E y z -> E x z.

Lemma Forall2_refl_on (l : list A) : Forall2 E l l.
Proof. induction l; constructor; auto. Qed.

Lemma Forall2_trans_on (l1 l2 l3 : list A) :
  Forall2 E l1 l2 -> Forall2 E l2 l3 -> Forall2 E l1 l3.
Proof.
  intros H12. revert l3. induction H12; intros l3 H23; inversion H23; subst;
    constructor; eauto.
Qed.

Lemma grows_refl (l : list A) : grows E l l.
Proof. exists l, []. split; [now rewrite app_nil_r | apply Forall2_refl_on]. Qed.

Lemma grows_trans (l1 l2 l3 : list A) :
  grows E l1 l2 -> grows E l2 l3 -> grows E l1 l3.
Proof.
  intros [k [a [E2 H12]]] [k' [a' [E3 H23]]]. subst l2.
  apply Forall2_app_inv_l in H23.
  destruct H23 as [k1 [k2 [Hk1 [Hk2 Ek']]]]. subst k'.
  exists k1, (k2 ++ a')%list. split.
  - now rewrite E3, app_assoc.
  - now apply (Forall2_trans_on l1 k k1).
Qed.

Lemma grows_map (g : A -> A) (l : list A) :
  (forall x, E x (g x)) -> grows E l (map g l).
Proof.
  intros Hg. exists (map g l), []. split; [now rewrite app_nil_r|].
  induction l; simpl; constructor; auto.
Qed.

Lemma grows_snoc (l : list A) (x : A) : grows E l (l ++ [x]).
Proof. exists l, [x]. split; [reflexivity | apply Forall2_refl_on]. Qed.

End Growth.

Lemma session_evolves_refl s : session_evolves s s.
Proof. unfold session_evolves. tauto. Qed.

Lemma session_evolves_trans s1 s2 s3 :
  session_evolves s1 s2 -> session_evolves s2 s3 -> session_evolves s1 s3.
Proof. unfold session_evolves. intuition congruence. Qed.

Lemma user_evolves_refl u : user_evolves u u.
Proof. unfold user_evolves. tauto. Qed.

Lemma user_evolves_trans u1 u2 u3 :
  user_evolves u1 u2 -> user_evolves u2 u3 -> user_evolves u1 u3.
Proof. unfold user_evolves. intuition congruence. Qed.

Lemma store_evolves_refl d : store_evolves d d.
Proof.
  split; [apply grows_refl, user_evolves_refl|].
  split; [apply grows_refl, session_evolves_refl|].
  exists []. now rewrite app_nil_r.
Qed.

Lemma store_evolves_trans d1 d2 d3 :
  store_evolves d1 d2 -> store_evolves d2 d3 -> store_evolves d1 d3.
Proof.
  intros [Hu [Hs [a Ha]]] [Hu' [Hs' [a' Ha']]].
  split; [exact (grows_trans _ user_evolves_trans _ _ _ Hu Hu')|].
  split; [exact (grows_trans _ session_evolves_trans _ _ _ Hs Hs')|].
  exists (a ++ a')%list. now rewrite Ha', Ha, app_assoc.
Qed.

(** A write that evolves the store keeps every evolution of an earlier
    store. *)
Lemma preserves_evolution {A} (d0 : Database)
      (q : Database -> Result (A * Database)) :
  (forall d a d', q d = Ok (a, d') -> store_evolves d d') ->
  preserves (store_evolves d0) (Prisma.roundTrip q).
Proof.
  intros Hq. apply preserves_roundTrip. intros d a d' H0 Hw.
  exact (store_evolves_trans _ _ _ H0 (Hq d a d' Hw)).
Qed.

Lemma evolves_users (us' : list User) d :
  grows user_evolves (users d) us' -> store_evolves d (Prisma.set_users us' d).
Proof.
  intros H. split; [exact H|].
  split; [apply grows_refl, session_evolves_refl|].
  exists []. simpl. now rewrite app_nil_r.
Qed.

Lemma evolves_sessions (ss' : list Session) d :
  grows session_evolves (sessions d) ss' ->
  store_evolves d (Prisma.set_sessions ss' d).
Proof.
  intros H. split; [apply grows_refl, user_evolves_refl|].
  split; [exact H|].
  exists []. simpl. now rewrite app_nil_r.
Qed.

Lemma user_create_evolves i now e un pw fn ln d a d' :
  Prisma.user_create i now e un pw fn ln d = Ok (a, d') -> store_evolves d d'.
Proof.
  unfold Prisma.user_create. destruct (_ || _ || _); [discriminate|].
  intros H. inversion H; subst.
  apply evolves_users, grows_snoc, user_evolves_refl.
Qed.

Lemma user_update_evolves i (f : User -> User) d a d' :
  (forall x, user_evolves x (f x)) ->
  Prisma.user_update i f d = Ok (a, d') -> store_evolves d d'.
Proof.
  intros Hf. unfold Prisma.user_update.
  destruct (find _ _); [|discriminate]. intros H. inversion H; subst.
  apply evolves_users, grows_map. intros x.
  destruct (Prisma.idIs i x); [apply Hf | apply user_evolves_refl].
Qed.

Lemma session_update_refreshToken_evolves i t now d a d' :
  Prisma.session_update_refreshToken i t now d = Ok (a, d') -> store_evolves d d'.
Proof.
  unfold Prisma.session_update_refreshToken.
  destruct (find _ _); [|discriminate]. destruct (existsb _ _); [discriminate|].
  intros H. inversion H; subst.
  apply evolves_sessions. unfold Prisma.session_rewrite. apply grows_map.
  intros x. destruct (Prisma.sessionIdIs i x);
    [unfold session_evolves; simpl; tauto | apply session_evolves_refl].
Qed.

Lemma session_update_isRevoked_true_evolves i d a d' :
  Prisma.session_update_isRevoked i true d = Ok (a, d') -> store_evolves d d'.
Proof.
  unfold Prisma.session_update_isRevoked.
  destruct (find _ _); [|discriminate]. intros H. inversion H; subst.
  apply evolves_sessions. unfold Prisma.session_rewrite. apply grows_map.
  intros x. destruct (Prisma.sessionIdIs i x);
    [unfold session_evolves; simpl; tauto | apply session_evolves_refl].
Qed.

Lemma session_updateMany_revoke_evolves uid d a d' :
  Prisma.session_updateMany_revoke uid d = Ok (a, d') -> store_evolves d d'.
Proof.
  unfold Prisma.session_updateMany_revoke. intros H. inversion H; subst.
  apply evolves_sessions, grows_map. intros x.
  destruct (String.eqb (userId x) uid && negb (isRevoked x));
    [unfold session_evolves; simpl; tauto | apply session_evolves_refl].
Qed.

Lemma session_create_evolves i now uid t expires d a d' :
  Prisma.session_create i now uid t expires d = Ok (a, d') -> store_evolves d d'.
Proof.
  unfold Prisma.session_create.
  destruct (_ || _); [discriminate|]. destruct (negb _); [discriminate|].
  intros H. inversion H; subst.
  apply evolves_sessions, grows_snoc, session_evolves_refl.
Qed.

Lemma auditLog_create_evolves uid act now d a d' :
  Prisma.auditLog_create uid act now d = Ok (a, d') -> store_evolves d d'.
Proof.
  unfold Prisma.auditLog_create. intros H. inversion H; subst.
  split; [apply grows_refl, user_evolves_refl|].
  split; [apply grows_refl, session_evolves_refl|].
  now eexists.
Qed.

Ltac keep_evolving_write :=
  apply preserves_evolution; intros ? ? ? Hwrite;
  first
    [ exact (user_create_evolves _ _ _ _ _ _ _ _ _ _ Hwrite)
    | refine (user_update_evolves _ _ _ _ _ _ Hwrite);
      intros ?; unfold user_evolves; simpl; tauto
    | exact (session_update_refreshToken_evolves _ _ _ _ _ _ Hwrite)
    | exact (session_update_isRevoked_true_evolves _ _ _ _ Hwrite)
    | exact (session_updateMany_revoke_evolves _ _ _ _ Hwrite)
    | exact (session_create_evolves _ _ _ _ _ _ _ _ Hwrite)
    | exact (auditLog_create_evolves _ _ _ _ _ _ Hwrite) ].

Ltac keep_evolving := repeat first [keep_step | keep_evolving_write].

Section Evolution.
Context {B : Bcrypt} {J : JwtCodec}.
Variable svc : AuthService.

(** X12. Apart from the sweep, no method of the service deletes or
    reorders a row, and whatever the outcome and whatever the store
    does: every user row is still there with the same id, email,
    username, names, active flag and roles (only the password hash and
    the last login may differ); every session row is still there with
    the same id, owner and expiry, and revoked if it was revoked; new
    rows come after the old ones; the audit log is only extended. *)
Theorem service_only_evolves_the_store (w : World) :
  (forall data,
      store_evolves (db w) (db (snd (AuthService.register svc data w))))
  /\ (forall data,
        store_evolves (db w) (db (snd (AuthService.login svc data w))))
  /\ (forall data,
        store_evolves (db w) (db (snd (AuthService.refreshToken svc data w))))
  /\ (forall token,
        store_evolves (db w) (db (snd (AuthService.logout token w))))
  /\ (forall uid data,
        store_evolves (db w) (db (snd (AuthService.changePassword svc uid data w)))).
Proof.
  repeat match goal with |- _ /\ _ => split end; intros;
    match goal with
    | |- store_evolves (db w) (db (snd (?m w))) =>
        assert (H : preserves (store_evolves (db w)) m);
        [|exact (H w (store_evolves_refl (db w)))]
    end.
  - unfold AuthService.register, Prisma.user_findFirst, bcrypt.hash,
      AuthService.generateTokens, jwt.sign, randomBytes64Hex,
      AuthService.createSession, AuthService.logAuditEvent.
    keep_evolving.
  - unfold AuthService.login, Prisma.user_findUnique_email, bcrypt.compare,
      AuthService.generateTokens, jwt.sign, randomBytes64Hex,
      AuthService.createSession, AuthService.logAuditEvent.
    keep_evolving.
  - unfold AuthService.refreshToken,
      Prisma.session_findUnique_refreshToken_include_user,
      AuthService.generateTokens, jwt.sign, randomBytes64Hex.
    keep_evolving.
  - unfold AuthService.logout, Prisma.session_findUnique_refreshToken,
      AuthService.logAuditEvent.
    keep_evolving.
  - unfold AuthService.changePassword, Prisma.user_findUnique_id,
      bcrypt.compare, bcrypt.hash, AuthService.logAuditEvent.
    keep_evolving.
Qed.

End Evolution.

(* ===================================================================== *)
(** ** What the methods can throw *)
(* ===================================================================== *)

Lemma bind_run {A B} (m : M A) (k : A -> M B) (w : World) :
  bind m k w = match m w with
               | (Ok a, w') => k a w'
               | (Throw e, w') => (Throw e, w')
               end.
Proof. reflexivity. Qed.

Lemma newDate_run (w : World) : newDate w = (Ok (clock w), w).
Proof. reflexivity. Qed.

Lemma throws_only_ret {A} C (a : A) : throws_only C (ret a).
Proof. intros w e H. discriminate. Qed.

Lemma throws_only_throw {A} (C : Exn -> Prop) (e : Exn) :
  C e -> throws_only C (@throw A e).
Proof. intros He w e' H. simpl in H. now inversion H; subst. Qed.

Lemma throws_only_newDate C : throws_only C newDate.
Proof. intros w e H. discriminate. Qed.

Lemma throws_only_draw C : throws_only C draw.
Proof. intros w e H. discriminate. Qed.

Lemma throws_only_nextId C : throws_only C Prisma.nextId.
Proof. intros w e H. discriminate. Qed.

Lemma throws_only_bind {A B} C (m : M A) (k : A -> M B) :
  throws_only C m -> (forall a, throws_only C (k a)) -> throws_only C (bind m k).
Proof.
  intros Hm Hk w e H. rewrite bind_run in H. specialize (Hm w).
  destruct (m w) as [[a|e0] w1]; simpl in *; [exact (Hk a w1 e H)|].
  inversion H; subst. now apply Hm.
Qed.

(** Whatever the body throws, a handler that throws only [C] makes the
    whole block throw only [C]. *)
Lemma throws_only_try_catch {A} C (body : M A) (handler : Exn -> M A) :
  (forall e, throws_only C (handler e)) ->
  throws_only C (try_catch body handler).
Proof.
  intros Hh w e H. unfold try_catch in H.
  destruct (body w) as [[a|e0] w1]; simpl in *; [discriminate|].
  exact (Hh e0 w1 e H).
Qed.

Lemma throws_only_roundTrip {A} (C : Exn -> Prop)
      (q : Database -> Result (A * Database)) :
  C (EPrisma Prisma.P1001) ->
  (forall d e, q d = Throw e -> C e) ->
  throws_only C (Prisma.roundTrip q).
Proof.
  intros Hc Hq w e H.
  destruct (roundTrip_cases q w) as [E|E]; rewrite E in H.
  - simpl in H. now inversion H; subst.
  - destruct (q (db w)) as [[a d]|e0] eqn:Q; simpl in H; [discriminate|].
    inversion H; subst. exact (Hq _ _ Q).
Qed.

Lemma throws_only_query {A} (C : Exn -> Prop) (f : Database -> A) :
  C (EPrisma Prisma.P1001) -> throws_only C (Prisma.query f).
Proof. intros Hc. apply throws_only_roundTrip; [exact Hc | discriminate]. Qed.

Lemma throws_only_transaction {A} (C : Exn -> Prop) (body : M A) :
  C (EPrisma Prisma.P1001) ->
  throws_only C body -> throws_only C (Prisma.transaction body).
Proof.
  intros Hc Hb w e H. unfold Prisma.transaction in H. specialize (Hb w).
  destruct (body w) as [[a|e0] w1]; simpl in *.
  - destruct (faults w1) as [|[|] fs]; simpl in H; try discriminate.
    now inversion H; subst.
  - inversion H; subst. now apply Hb.
Qed.

Lemma throws_only_weaken {A} (C D : Exn -> Prop) (m : M A) :
  (forall e, C e -> D e) -> throws_only C m -> throws_only D m.
Proof. intros HCD Hm w e H. apply HCD. exact (Hm w e H). Qed.

(** The writes of the Prisma client throw store errors only. *)
Lemma writes_throw_store_errors :
  (forall i now e un pw fn ln d ex,
      Prisma.user_create i now e un pw fn ln d = Throw ex -> store_error ex)
  /\ (forall i f d ex, Prisma.user_update i f d = Throw ex -> store_error ex)
  /\ (forall i t now d ex,
        Prisma.session_update_refreshToken i t now d = Throw ex -> store_error ex)
  /\ (forall i b d ex,
        Prisma.session_update_isRevoked i b d = Throw ex -> store_error ex)
  /\ (forall uid d ex,
        Prisma.session_updateMany_revoke uid d = Throw ex -> store_error ex)
  /\ (forall i now uid t x d ex,
        Prisma.session_create i now uid t x d = Throw ex -> store_error ex)
  /\ (forall now d ex,
        Prisma.session_deleteMany_expired_or_revoked now d = Throw ex ->
        store_error ex)
  /\ (forall uid act now d ex,
        Prisma.auditLog_create uid act now d = Throw ex -> store_error ex).
Proof.
  unfold store_error.
  repeat match goal with |- _ /\ _ => split end; intros until ex;
    unfold Prisma.user_create, Prisma.user_update,
      Prisma.session_update_refreshToken, Prisma.session_update_isRevoked,
      Prisma.session_updateMany_revoke, Prisma.session_create,
      Prisma.session_deleteMany_expired_or_revoked, Prisma.auditLog_create;
    repeat match goal with
           | |- context [if ?b then _ else _] => destruct b
           | |- context [match ?x with Some _ => _ | None => _ end] => destruct x
           end;
    intros H; inversion H; eauto.
Qed.

Lemma store_error_P1001 : store_error (EPrisma Prisma.P1001).
Proof. now eexists. Qed.

(** Decomposes a method into its steps; what is left is to classify
    the exceptions thrown in place. *)
Ltac classify_step :=
  first
    [ apply throws_only_ret
    | apply throws_only_newDate
    | apply throws_only_draw
    | apply throws_only_nextId
    | apply throws_only_query
    | apply throws_only_transaction
    | apply throws_only_bind; [|intros ?]
    | apply throws_only_try_catch; intros ?
    | apply throws_only_roundTrip;
      [|intros ? ? Hwrite;
        first [ apply (proj1 writes_throw_store_errors) in Hwrite
              | apply (proj1 (proj2 writes_throw_store_errors)) in Hwrite
              | apply (proj1 (proj2 (proj2 writes_throw_store_errors))) in Hwrite
              | apply (proj1 (proj2 (proj2 (proj2 writes_throw_store_errors)))) in Hwrite
              | apply (proj1 (proj2 (proj2 (proj2 (proj2 writes_throw_store_errors))))) in Hwrite
              | apply (proj1 (proj2 (proj2 (proj2 (proj2 (proj2 writes_throw_store_errors)))))) in Hwrite
              | apply (proj1 (proj2 (proj2 (proj2 (proj2 (proj2 (proj2 writes_throw_store_errors))))))) in Hwrite
              | apply (proj2 (proj2 (proj2 (proj2 (proj2 (proj2 (proj2 writes_throw_store_errors))))))) in Hwrite ]]
    | apply throws_only_throw
    | match goal with
      | |- throws_only _ (match ?x with _ => _ end) => destruct x
      end ].

Ltac classify := repeat classify_step.

(** Closes the classification of an exception thrown in place. *)
Ltac close_kind :=
  solve [ assumption
        | exact store_error_P1001
        | eexists; reflexivity
        | eexists; eexists; reflexivity
        | left; close_kind
        | right; close_kind ].

Section Throws.
Context {B : Bcrypt} {J : JwtCodec}.
Variable svc : AuthService.

Lemma logout_throws_store_errors token :
  throws_only store_error (AuthService.logout token).
Proof.
  unfold AuthService.logout, Prisma.session_findUnique_refreshToken,
    AuthService.logAuditEvent.
  classify; first [exact store_error_P1001 | assumption].
Qed.

Lemma cleanExpiredSessions_throws_store_errors :
  throws_only store_error AuthService.cleanExpiredSessions.
Proof.
  unfold AuthService.cleanExpiredSessions.
  classify; first [exact store_error_P1001 | assumption].
Qed.

Lemma createSession_throws_store_errors uid t rm :
  throws_only store_error (AuthService.createSession uid t rm).
Proof.
  unfold AuthService.createSession.
  classify; first [exact store_error_P1001 | assumption].
Qed.

Lemma logAuditEvent_throws_nothing C uid act :
  throws_only C (AuthService.logAuditEvent uid act).
Proof. unfold AuthService.logAuditEvent. classify. Qed.

Lemma generateTokens_throws_nothing C u :
  throws_only C (AuthService.generateTokens svc u).
Proof. intros w e H. discriminate. Qed.

Lemma login_throws data :
  throws_only (fun e => unauthorized_error e \/ store_error e)
              (AuthService.login svc data).
Proof.
  unfold AuthService.login, Prisma.user_findUnique_email, bcrypt.compare.
  repeat first
    [ apply generateTokens_throws_nothing
    | apply logAuditEvent_throws_nothing
    | apply (throws_only_weaken store_error);
      [intros ? ?; now right | apply createSession_throws_store_errors]
    | classify_step ];
    close_kind.
Qed.

Lemma register_throws data :
  throws_only (fun e => unauthorized_error e \/ store_error e)
              (AuthService.register svc data).
Proof.
  unfold AuthService.register, Prisma.user_findFirst, bcrypt.hash.
  repeat first
    [ apply generateTokens_throws_nothing
    | apply logAuditEvent_throws_nothing
    | apply (throws_only_weaken store_error);
      [intros ? ?; now right | apply createSession_throws_store_errors]
    | classify_step ];
    close_kind.
Qed.

Lemma refreshToken_throws data :
  throws_only (fun e => unauthorized_error e \/ store_error e \/ type_error e)
              (AuthService.refreshToken svc data).
Proof.
  unfold AuthService.refreshToken,
    Prisma.session_findUnique_refreshToken_include_user.
  repeat first [apply generateTokens_throws_nothing | classify_step];
    close_kind.
Qed.

Lemma changePassword_throws uid data :
  throws_only (fun e => unauthorized_error e \/ not_found_error e \/ store_error e)
              (AuthService.changePassword svc uid data).
Proof.
  unfold AuthService.changePassword, Prisma.user_findUnique_id,
    bcrypt.compare, bcrypt.hash.
  repeat first [apply logAuditEvent_throws_nothing | classify_step];
    close_kind.
Qed.

(** [verifyToken] turns every error of [jsonwebtoken] into an
    [UnauthorizedError]. *)
Lemma verifyToken_throws token :
  throws_only (fun e => unauthorized_error e \/ store_error e)
              (AuthService.verifyToken svc token).
Proof.
  intros w e H. unfold AuthService.verifyToken, try_catch in H.
  match type of H with
  | context [match ?body w with _ => _ end] =>
      assert (Hbody : throws_only
                        (fun e => unauthorized_error e \/ store_error e
                                  \/ jwt_error e) body);
      [|specialize (Hbody w); destruct (body w) as [[u|e0] w1]]
  end.
  - unfold jwt.verify. classify; close_kind.
  - discriminate.
  - specialize (Hbody e0 eq_refl).
    destruct Hbody as [[m Hm]|[[c Hc]|[c [m Hm]]]]; subst e0; simpl in H;
      inversion H; subst; close_kind.
Qed.

(** X13. What the service can throw, and how it is answered. [register],
    [login] and [verifyToken] throw nothing but [UnauthorizedError] and
    store errors; [refreshToken] may also hit a session without owner;
    [changePassword] may also throw [NotFoundError]; [logout] and
    [cleanExpiredSessions] throw store errors only, and [logAuditEvent]
    throws nothing.  No error of [jsonwebtoken] leaves [verifyToken].
    The responder answers these with 401, 404 and 500. *)
Theorem service_error_taxonomy :
  (forall data,
      throws_only (fun e => unauthorized_error e \/ store_error e)
                  (AuthService.register svc data))
  /\ (forall data,
        throws_only (fun e => unauthorized_error e \/ store_error e)
                    (AuthService.login svc data))
  /\ (forall token,
        throws_only (fun e => unauthorized_error e \/ store_error e)
                    (AuthService.verifyToken svc token))
  /\ (forall data,
        throws_only (fun e => unauthorized_error e \/ store_error e \/ type_error e)
                    (AuthService.refreshToken svc data))
  /\ (forall uid data,
        throws_only (fun e => unauthorized_error e \/ not_found_error e
                              \/ store_error e)
                    (AuthService.changePassword svc uid data))
  /\ (forall token, throws_only store_error (AuthService.logout token))
  /\ throws_only store_error AuthService.cleanExpiredSessions
  /\ (forall uid act, throws_only (fun _ => False)
                                  (AuthService.logAuditEvent uid act))
  /\ (forall e,
        (unauthorized_error e -> status (errorHandler e) = 401)
        /\ (not_found_error e -> status (errorHandler e) = 404)
        /\ (store_error e \/ type_error e -> status (errorHandler e) = 500)).
Proof.
  split; [exact register_throws|]. split; [exact login_throws|].
  split; [exact verifyToken_throws|]. split; [exact refreshToken_throws|].
  split; [exact changePassword_throws|].
  split; [exact logout_throws_store_errors|].
  split; [exact cleanExpiredSessions_throws_store_errors|].
  split; [intros; apply logAuditEvent_throws_nothing|].
  intros e. split; [intros [m Hm]; subst; reflexivity|].
  split; [intros [m Hm]; subst; reflexivity|].
  intros [[c Hc]|[m Hm]]; subst; reflexivity.
Qed.

End Throws.

(* ===================================================================== *)
(** ** Rejections leave the store alone; checks only read *)
(* ===================================================================== *)

Section Rejections.
Context {B : Bcrypt} {J : JwtCodec}.
Variable svc : AuthService.

Ltac tail_is_store_only H :=
  exfalso;
  match type of H with
  | fst (?t ?w0) = Throw (EApi ?e) =>
      assert (Ht : throws_only store_error t);
      [ repeat first
          [ apply generateTokens_throws_nothing
          | apply logAuditEvent_throws_nothing
          | apply createSession_throws_store_errors
          | classify_step ];
        close_kind
      | destruct (Ht w0 _ H) as [c Hc]; discriminate ]
  end.

Lemma login_rejection_leaves_store data w e :
  fst (AuthService.login svc data w) = Throw (EApi e) ->
  db (snd (AuthService.login svc data w)) = db w.
Proof.
  unfold AuthService.login, Prisma.user_findUnique_email, Prisma.query.
  rewrite bind_run.
  destruct (roundTrip_cases
              (fun d => Ok (find (Prisma.emailIs (login_email data)) (users d), d)) w)
    as [E|E]; rewrite E; clear E; [discriminate|].
  destruct (find (Prisma.emailIs (login_email data)) (users (db w))) as [u|];
    [|reflexivity].
  destruct (isActive u); [|reflexivity]. cbn [negb].
  rewrite bind_run. unfold bcrypt.compare, ret.
  destruct (bcrypt_compare (login_password data) (password u)); [|reflexivity].
  cbn [negb]. intros H. tail_is_store_only H.
Qed.

Lemma register_rejection_leaves_store data w e :
  fst (AuthService.register svc data w) = Throw (EApi e) ->
  db (snd (AuthService.register svc data w)) = db w.
Proof.
  unfold AuthService.register, Prisma.user_findFirst, Prisma.query.
  rewrite bind_run.
  match goal with
  | |- context [Prisma.roundTrip ?q w] =>
      destruct (roundTrip_cases q w) as [E|E]; rewrite E; clear E;
      [discriminate|]
  end.
  cbv beta iota. rewrite bind_run.
  match goal with
  | |- context [find ?c (users (db w))] => destruct (find c (users (db w))) as [eu|]
  end.
  - destruct (String.eqb (email eu) (reg_email data)); [reflexivity|].
    destruct (AuthService.username_strict_eq (username eu) (reg_username data));
      [reflexivity|].
    unfold ret at 1. cbv beta iota. intros H. tail_is_store_only H.
  - unfold ret at 1. cbv beta iota. intros H. tail_is_store_only H.
Qed.

Lemma refreshToken_rejection_leaves_store data w e :
  fst (AuthService.refreshToken svc data w) = Throw (EApi e) ->
  db (snd (AuthService.refreshToken svc data w)) = db w.
Proof.
  unfold AuthService.refreshToken,
    Prisma.session_findUnique_refreshToken_include_user, Prisma.query.
  rewrite bind_run.
  match goal with
  | |- context [Prisma.roundTrip ?q w] =>
      destruct (roundTrip_cases q w) as [E|E]; rewrite E; clear E;
      [discriminate|]
  end.
  cbv beta iota. rewrite bind_run, newDate_run.
  destruct (find (Prisma.refreshTokenIs (req_refreshToken data)) (sessions (db w)))
    as [s|]; [|reflexivity].
  match goal with
  | |- context [if ?b then _ else _] => destruct b; [reflexivity|]
  end.
  destruct (find (Prisma.idIs (userId s)) (users (db w))) as [u|]; [|reflexivity].
  destruct (isActive u); [|reflexivity]. cbn [negb].
  intros H. tail_is_store_only H.
Qed.

(** X14. A rejection costs nothing: whenever [register], [login] or
    [refreshToken] throws an [ApiError], on any store, the tables are
    exactly as they were; no user, session or audit entry was written
    on the way to the rejection. *)
Theorem rejections_leave_the_store_unchanged (w : World) (e : ApiError) :
  (forall data,
      fst (AuthService.register svc data w) = Throw (EApi e) ->
      db (snd (AuthService.register svc data w)) = db w)
  /\ (forall data,
        fst (AuthService.login svc data w) = Throw (EApi e) ->
        db (snd (AuthService.login svc data w)) = db w)
  /\ (forall data,
        fst (AuthService.refreshToken svc data w) = Throw (EApi e) ->
        db (snd (AuthService.refreshToken svc data w)) = db w).
Proof.
  split; [intros data H; exact (register_rejection_leaves_store data w e H)|].
  split; [intros data H; exact (login_rejection_leaves_store data w e H)|].
  intros data H; exact (refreshToken_rejection_leaves_store data w e H).
Qed.

(** X15. Checking a token only reads: [verifyToken], [authenticate] and
    [optionalAuth] leave the tables exactly as they were, whatever the
    token or header, whatever the outcome and whatever the store
    does. *)
Theorem token_checks_only_read (w : World) :
  (forall token, db (snd (AuthService.verifyToken svc token w)) = db w)
  /\ (forall req, db (snd (AuthMiddleware.authenticate svc req w)) = db w)
  /\ (forall req, db (snd (AuthMiddleware.optionalAuth svc req w)) = db w).
Proof.
  assert (Hv : forall token,
             preserves (fun d => d = db w) (AuthService.verifyToken svc token)).
  { intros token. unfold AuthService.verifyToken, jwt.verify,
      Prisma.user_findUnique_id. keep. }
  split; [intros token; exact (Hv token w eq_refl)|].
  split; intros req.
  - assert (H : preserves (fun d => d = db w)
                          (AuthMiddleware.authenticate svc req)).
    { unfold AuthMiddleware.authenticate.
      repeat first [apply Hv | keep_step]. }
    exact (H w eq_refl).
  - assert (H : preserves (fun d => d = db w)
                          (AuthMiddleware.optionalAuth svc req)).
    { unfold AuthMiddleware.optionalAuth.
      repeat first [apply Hv | keep_step]. }
    exact (H w eq_refl).
Qed.

End Rejections.

(* ===================================================================== *)
(** ** The lifetime of an access token; the constructor *)
(* ===================================================================== *)

Section AccessTokenLifetime.
Context {J : JwtCodec} {L : JwtCodecLaws J}.
Variable svc : AuthService.

(** X16. An access token lives for 900 whole seconds of the clock: for
    an identity that is stored and active when the token is presented,
    on a store that answers, [verifyToken] accepts the token issued by
    [generateTokens] exactly while the second of the clock is less
    than the second of issue plus 900, and from that second on it
    throws 'Invalid or expired token'. *)
Theorem access_token_lives_900_seconds
        (u stored : User) (w w1 w2 : World) (issuedTokens : Tokens) :
  AuthService.generateTokens svc u w = (Ok issuedTokens, w1) ->
  find (Prisma.idIs (id u)) (users (db w2)) = Some stored ->
  isActive stored = true ->
  id u <> "" ->
  healthy w2 ->
  (fst (AuthService.verifyToken svc (accessToken issuedTokens) w2) = Ok stored
   <-> clock w2 / 1000 < clock w / 1000 + 900)
  /\ (fst (AuthService.verifyToken svc (accessToken issuedTokens) w2)
        = Throw (EApi (UnauthorizedError "Invalid or expired token"))
      <-> clock w / 1000 + 900 <= clock w2 / 1000).
Proof.
  intros Hgen Hfind Hon Hid Hw2.
  rewrite generateTokens_run in Hgen. inversion Hgen; subst; clear Hgen.
  cbn [accessToken].
  set (claims := mkJwtPayload (Some (id u)) (email u) (roleNames u)
                              (Some (clock w / 1000))
                              (Some (clock w / 1000 + 900))).
  assert (Hdec : jwt_decode (jwt_encode claims (jwtSecret svc)) (jwtSecret svc)
                 = Some claims) by apply jwt_decode_encode.
  destruct (Z.lt_ge_cases (clock w2 / 1000) (clock w / 1000 + 900)) as [Hlt|Hge].
  - rewrite (verifyToken_valid svc _ w2 claims (id u) stored Hw2 Hdec); auto.
    + cbn [fst]. split; split; intros H; try reflexivity; try assumption;
        try discriminate; lia.
    + intros e He. inversion He; subst. exact Hlt.
  - rewrite (verifyToken_expired svc _ w2 claims (clock w / 1000 + 900) Hdec);
      auto.
    cbn [fst]. split; split; intros H; try reflexivity; try assumption;
      try discriminate; lia.
Qed.

End AccessTokenLifetime.

(** X17. The constructor refuses to run in production on the default
    secret: with [NODE_ENV] 'production' it throws exactly when
    [JWT_SECRET] is unset, empty or the default; a service it returns
    has cost factor 12 and a non-empty secret, which in production is
    [JWT_SECRET] itself and not the default; outside production it
    always returns a service. *)
Theorem constructor_refuses_default_secret_in_production
        (JWT_SECRET NODE_ENV : option string) :
  (AuthService.new JWT_SECRET (Some "production")
     = Throw (EError "JWT_SECRET must be set in production")
   <-> (JWT_SECRET = None \/ JWT_SECRET = Some ""
        \/ JWT_SECRET = Some "your-secret-key"))
  /\ (forall svc,
        AuthService.new JWT_SECRET NODE_ENV = Ok svc ->
        saltRounds svc = 12%nat
        /\ jwtSecret svc <> ""
        /\ (JWT_SECRET = Some (jwtSecret svc)
            \/ jwtSecret svc = "your-secret-key")
        /\ (NODE_ENV = Some "production" ->
            JWT_SECRET = Some (jwtSecret svc)
            /\ jwtSecret svc <> "your-secret-key"))
  /\ (NODE_ENV <> Some "production" ->
      exists svc, AuthService.new JWT_SECRET NODE_ENV = Ok svc).
Proof.
  unfold AuthService.new, AuthService.defaultSecret, truthy.
  split; [|split].
  - rewrite String.eqb_refl. cbn [andb].
    destruct JWT_SECRET as [s|].
    + destruct (String.eqb_spec s ""); cbn [negb].
      * subst. simpl. split; [auto | reflexivity].
      * destruct (String.eqb_spec s "your-secret-key").
        -- subst. split; [auto | reflexivity].
        -- split; [discriminate|].
           intros [H|[H|H]]; inversion H; congruence.
    + simpl. split; [auto | reflexivity].
  - intros svc.
    destruct NODE_ENV as [e|]; [destruct (String.eqb_spec e "production")|];
      cbn [andb];
      destruct JWT_SECRET as [s|];
      try destruct (String.eqb_spec s ""); cbn [negb];
      try destruct (String.eqb_spec s "your-secret-key");
      try (simpl; discriminate);
      intros H; inversion H; subst; cbn [saltRounds jwtSecret];
      (split; [reflexivity|]); (split; [try discriminate; try assumption|]);
      (split; [auto|]); intros Hp;
      try (inversion Hp; congruence); try discriminate; auto.
  - intros Hnp.
    destruct NODE_ENV as [e|]; [destruct (String.eqb_spec e "production")|];
      cbn [andb]; [subst; congruence | |]; eauto.
Qed.

(* ===================================================================== *)
(** ** The middlewares on every header *)
(* ===================================================================== *)

Lemma substring_whole (s : string) : String.substring 0 (String.length s) s = s.
Proof. induction s as [|c s IH]; simpl; [reflexivity | now rewrite IH]. Qed.

Lemma substring7_bearer (t : string) :
  AuthMiddleware.substring7 ("Bearer " ++ t) = t.
Proof.
  unfold AuthMiddleware.substring7. simpl. rewrite Nat.sub_0_r.
  apply substring_whole.
Qed.

Lemma prefix_split (p h : string) :
  String.prefix p h = true -> exists r, h = (p ++ r)%string.
Proof.
  revert h. induction p as [|c p IH]; intros h H.
  - now exists h.
  - destruct h as [|c' h]; simpl in H; [discriminate|].
    destruct (Ascii.ascii_dec c c') as [Ec|Nc]; [|discriminate].
    subst c'. destruct (IH h H) as [r Hr]. exists r. simpl. now rewrite Hr.
Qed.

Lemma prefix_append (p r : string) : String.prefix p (p ++ r) = true.
Proof.
  induction p as [|c p IH]; simpl; [now destruct r|].
  destruct (Ascii.ascii_dec c c); [exact IH | congruence].
Qed.

Section Headers.
Context {J : JwtCodec}.
Variable svc : AuthService.

(** X18. [authenticate] accepts the header 'Bearer ' followed by a
    non-empty token and nothing else: for such a header it hands
    exactly the token to [verifyToken] and attaches the identity
    returned, or passes the error on; for every other header, and
    without header, it throws 'Unauthorized access' without a round
    trip to the store. *)
Theorem authenticate_reads_the_bearer_token :
  (forall (t : string) (u0 : option User) (w : World),
      t <> "" ->
      AuthMiddleware.authenticate svc (mkRequest (Some ("Bearer " ++ t)) u0) w
      = match AuthService.verifyToken svc t w with
        | (Ok u, w') => (Ok (mkRequest (Some ("Bearer " ++ t)) (Some u)), w')
        | (Throw e, w') => (Throw e, w')
        end)
  /\ (forall (req : Request) (w : World),
        (forall t, t <> "" -> authorization req <> Some ("Bearer " ++ t)) ->
        AuthMiddleware.authenticate svc req w
        = (Throw (EApi (UnauthorizedError "Unauthorized access")), w)).
Proof.
  split.
  - intros t u0 w Ht. unfold AuthMiddleware.authenticate.
    cbn [authorization]. rewrite prefix_append, substring7_bearer.
    assert (Htr : truthy t = true).
    { unfold truthy. apply negb_true_iff. now apply String.eqb_neq. }
    rewrite Htr. cbn [negb orb truthy String.eqb append]. rewrite bind_run.
    destruct (AuthService.verifyToken svc t w) as [[u|e] w']; reflexivity.
  - intros req w Hno. unfold AuthMiddleware.authenticate.
    destruct (authorization req) as [h|] eqn:Hh; [|reflexivity].
    destruct (truthy h); [|reflexivity]. cbn [negb orb].
    destruct (String.prefix "Bearer " h) eqn:P; [|reflexivity]. cbn [negb].
    apply prefix_split in P. destruct P as [r Hr]. subst h.
    rewrite substring7_bearer.
    destruct (truthy r) eqn:Tr; [|reflexivity].
    exfalso. apply (Hno r); [|reflexivity].
    intros E. subst r. discriminate.
Qed.

(** X19. [optionalAuth] is [authenticate] with the failure swallowed:
    where [authenticate] passes a request on, so does [optionalAuth],
    with the same identity attached; where [authenticate] throws,
    [optionalAuth] passes the request on as it came.  It never
    throws. *)
Theorem optionalAuth_is_authenticate_without_failure
        (req : Request) (w : World) :
  AuthMiddleware.optionalAuth svc req w
  = match AuthMiddleware.authenticate svc req w with
    | (Ok req', w') => (Ok req', w')
    | (Throw _, w') => (Ok req, w')
    end
  /\ exists req' w', AuthMiddleware.optionalAuth svc req w = (Ok req', w').
Proof.
  assert (E : AuthMiddleware.optionalAuth svc req w
              = match AuthMiddleware.authenticate svc req w with
                | (Ok req', w') => (Ok req', w')
                | (Throw _, w') => (Ok req, w')
                end).
  { unfold AuthMiddleware.optionalAuth, AuthMiddleware.authenticate.
    destruct (authorization req) as [h|]; [|reflexivity].
    destruct (truthy h); [|reflexivity]. cbn [negb orb andb].
    destruct (String.prefix "Bearer " h); [|reflexivity]. cbn [negb].
    destruct (truthy (AuthMiddleware.substring7 h)); [|reflexivity]. cbn [negb].
    unfold try_catch. rewrite !bind_run.
    destruct (AuthService.verifyToken svc (AuthMiddleware.substring7 h) w)
      as [[u|e] w']; reflexivity. }
  split; [exact E|]. rewrite E.
  destruct (AuthMiddleware.authenticate svc req w) as [[r|e] w']; eauto.
Qed.

End Headers.

(* ===================================================================== *)
(** ** Role checks *)
(* ===================================================================== *)

Lemma userHasRole_In (u : User) (r : string) :
  userHasRole u r = true <-> In r (roleNames u).
Proof.
  unfold userHasRole, roleNames. rewrite existsb_exists. split.
  - intros [ur [Hin Heq]]. apply String.eqb_eq in Heq. subst r.
    apply in_map_iff. now exists ur.
  - intros Hin. apply in_map_iff in Hin. destruct Hin as [ur [Heq Hin]].
    exists ur. split; [assumption|]. subst r. apply String.eqb_refl.
Qed.

Lemma userHasAnyRole_single (u : User) (r : string) :
  userHasAnyRole u [r] = userHasRole u r.
Proof.
  unfold userHasAnyRole, userHasRole, includes.
  induction (userRoles u) as [|ur l IH]; [reflexivity|].
  cbn [existsb] in *. now rewrite IH, orb_false_r.
Qed.

(** X20. Holding any of a list of roles is holding one of them:
    [userHasAnyRole u names] is true exactly when [userHasRole u r] is
    true for some [r] of [names]; so it is false for the empty list and
    for an identity without roles, it agrees with [userHasRole] on a
    one-element list, and it ignores order and repetition. *)
Theorem userHasAnyRole_is_some_userHasRole (u : User) (names : list string) :
  userHasAnyRole u names = existsb (userHasRole u) names
  /\ userHasAnyRole u [] = false
  /\ (userRoles u = [] -> userHasAnyRole u names = false)
  /\ (forall r, userHasAnyRole u [r] = userHasRole u r)
  /\ (forall names', (forall r, In r names <-> In r names') ->
                     userHasAnyRole u names = userHasAnyRole u names').
Proof.
  assert (Hspec : forall ns, userHasAnyRole u ns = true <->
                             exists r, In r ns /\ In r (roleNames u)).
  { intros ns. unfold userHasAnyRole, roleNames, includes.
    rewrite existsb_exists. split.
    - intros [ur [Hin Hinc]]. apply existsb_exists in Hinc.
      destruct Hinc as [r [Hr Heq]]. apply String.eqb_eq in Heq. subst r.
      exists (role_name (role ur)). split; [assumption|].
      apply in_map_iff. now exists ur.
    - intros [r [Hreq Hheld]]. apply in_map_iff in Hheld.
      destruct Hheld as [ur [Heq Hin]]. exists ur. split; [assumption|].
      apply existsb_exists. exists r. split; [assumption|].
      subst r. apply String.eqb_refl. }
  assert (Hany : forall ns, userHasAnyRole u ns = existsb (userHasRole u) ns).
  { intros ns. apply eq_true_iff_eq. rewrite Hspec, existsb_exists.
    split; intros [r [Hin Hr]]; exists r; (split; [assumption|]);
      now apply userHasRole_In. }
  split; [apply Hany|]. split; [now rewrite Hany|].
  split.
  { intros Hnone. unfold userHasAnyRole. now rewrite Hnone. }
  split.
  { intros r. rewrite Hany. simpl. apply orb_false_r. }
  intros names' Hsame. apply eq_true_iff_eq. rewrite !Hspec.
  split; intros [r [Hin Hr]]; exists r; (split; [|assumption]); now apply Hsame.
Qed.

(** X21. [authorize] at its edges: a request without attached identity
    is turned away with 'Unauthorized access' whatever the roles; an
    empty list of roles turns every request away; a request that is
    passed on is passed on unchanged; requiring more roles never turns
    away a request that passed; and [adminOnly] passes exactly the
    requests whose identity holds the role 'admin', the ones for which
    [isAdmin] is true. *)
Theorem authorize_edges (required : list string) (req : Request) :
  (req_user req = None ->
   AuthMiddleware.authorize required req
   = Throw (EApi (UnauthorizedError "Unauthorized access")))
  /\ (forall r, AuthMiddleware.authorize [] req <> Ok r)
  /\ (forall r, AuthMiddleware.authorize required req = Ok r -> r = req)
  /\ (forall more, AuthMiddleware.authorize required req = Ok req ->
                   AuthMiddleware.authorize (required ++ more) req = Ok req)
  /\ (AuthMiddleware.adminOnly req = Ok req
      <-> exists u, req_user req = Some u /\ userHasRole u "admin" = true)
  /\ (AuthMiddleware.adminOnly req = Ok req
      <-> AuthMiddleware.isAdmin req = Ok true).
Proof.
  unfold AuthMiddleware.adminOnly, AuthMiddleware.isAdmin,
    AuthMiddleware.authorize.
  destruct (req_user req) as [u|].
  - split; [discriminate|].
    split.
    { intros r. unfold userHasAnyRole, includes. simpl.
      assert (H : existsb (fun _ : UserRole => false) (userRoles u) = false)
        by (induction (userRoles u); simpl; auto).
      rewrite H. discriminate. }
    split.
    { intros r. destruct (userHasAnyRole u required); simpl; intros H;
        inversion H; reflexivity. }
    split.
    { intros more. destruct (userHasAnyRole u required) eqn:Hany; simpl;
        [|discriminate].
      intros _. apply userHasAnyRole_spec in Hany.
      destruct Hany as [r [Hin Hr]].
      assert (H : userHasAnyRole u (required ++ more) = true).
      { apply userHasAnyRole_spec. exists r. split; [|assumption].
        apply in_or_app. now left. }
      now rewrite H. }
    pose proof (userHasAnyRole_single u "admin") as Hadmin.
    split.
    + rewrite Hadmin. destruct (userHasRole u "admin") eqn:Hr; simpl.
      * split; [intros _; now exists u | intros _; reflexivity].
      * split; [discriminate|]. intros [u' [Hu' H]]. inversion Hu'; subst.
        congruence.
    + destruct (userHasAnyRole u ["admin"]); simpl; split;
        first [discriminate | intros _; reflexivity].
  - split; [reflexivity|].
    split; [discriminate|]. split; [discriminate|]. split; [discriminate|].
    split; [|split; discriminate].
    split; [discriminate|]. intros [u [Hu _]]. discriminate.
Qed.

(* ===================================================================== *)
(** ** Access tokens against the user table *)
(* ===================================================================== *)

Section AccessTokens.
Context {J : JwtCodec}.
Variable svc : AuthService.

Lemma verifyToken_run token w :
  AuthService.verifyToken svc token w =
    match jwt_decode token (jwtSecret svc) with
    | None => (Throw (EApi (UnauthorizedError AUTH_ERRORS.INVALID_TOKEN)), w)
    | Some p =>
        if match exp p with
           | Some e => e <=? clock w / 1000
           | None => false
           end
        then (Throw (EApi (UnauthorizedError AUTH_ERRORS.INVALID_TOKEN)), w)
        else
          match sub p with
          | None => (Throw (EApi (UnauthorizedError AUTH_ERRORS.INVALID_TOKEN)), w)
          | Some subject =>
              if truthy subject
              then
                match faults w with
                | true :: _ => (Throw (EPrisma Prisma.P1001), answered w)
                | _ =>
                    match find (Prisma.idIs subject) (users (db w)) with
                    | Some u =>
                        if isActive u
                        then (Ok u, set_db (db w) (answered w))
                        else (Throw (EApi (UnauthorizedError
                                             AUTH_ERRORS.USER_NOT_FOUND)),
                              set_db (db w) (answered w))
                    | None =>
                        (Throw (EApi (UnauthorizedError AUTH_ERRORS.USER_NOT_FOUND)),
                         set_db (db w) (answered w))
                    end
                end
              else (Throw (EApi (UnauthorizedError AUTH_ERRORS.INVALID_TOKEN)), w)
          end
    end.
Proof.
  unfold AuthService.verifyToken, try_catch, bind, jwt.verify.
  destruct (jwt_decode token (jwtSecret svc)) as [p|]; [|reflexivity].
  unfold bind, newDate.
  destruct (exp p) as [e|].
  - destruct (e <=? clock w / 1000); [reflexivity|]. simpl.
    destruct (sub p) as [s|]; [|reflexivity].
    destruct (truthy s); [|reflexivity]. simpl.
    unfold Prisma.user_findUnique_id, Prisma.query, Prisma.roundTrip, answered.
    destruct (faults w) as [|[|] fs]; simpl; try reflexivity;
      destruct (find (Prisma.idIs s) (users (db w))) as [u|]; try reflexivity;
      destruct (isActive u); reflexivity.
  - simpl. destruct (sub p) as [s|]; [|reflexivity].
    destruct (truthy s); [|reflexivity]. simpl.
    unfold Prisma.user_findUnique_id, Prisma.query, Prisma.roundTrip, answered.
    destruct (faults w) as [|[|] fs]; simpl; try reflexivity;
      destruct (find (Prisma.idIs s) (users (db w))) as [u|]; try reflexivity;
      destruct (isActive u); reflexivity.
Qed.

(** X22. Deactivation and deletion take effect at once for access
    tokens: on a store that answers, a token that decodes under the
    secret, is not expired and names a subject is refused with the
    [UnauthorizedError] 'User not found' exactly when no identity with
    that id is stored or the stored one is inactive; otherwise the
    stored identity is returned. *)
Theorem verifyToken_follows_the_user_table
        (token : string) (w : World) (p : JwtPayload) (subject : string) :
  healthy w ->
  jwt_decode token (jwtSecret svc) = Some p ->
  (forall e, exp p = Some e -> clock w / 1000 < e) ->
  sub p = Some subject ->
  subject <> "" ->
  (fst (AuthService.verifyToken svc token w)
     = Throw (EApi (UnauthorizedError "User not found"))
   <-> (find (Prisma.idIs subject) (users (db w)) = None
        \/ exists u, find (Prisma.idIs subject) (users (db w)) = Some u
                     /\ isActive u = false))
  /\ (forall u, fst (AuthService.verifyToken svc token w) = Ok u
                <-> find (Prisma.idIs subject) (users (db w)) = Some u
                    /\ isActive u = true).
Proof.
  intros Hw Hdec Hfresh Hsub Hne.
  rewrite verifyToken_run, Hdec, Hsub.
  assert (Hexp : match exp p with
                 | Some e => e <=? clock w / 1000
                 | None => false
                 end = false).
  { destruct (exp p) as [e|]; [|reflexivity].
    apply Z.leb_gt. now apply Hfresh. }
  rewrite Hexp.
  assert (Ht : truthy subject = true).
  { unfold truthy. apply negb_true_iff. now apply String.eqb_neq. }
  rewrite Ht.
  assert (Hf : faults w = [] \/ exists fs, faults w = false :: fs).
  { unfold healthy in Hw. destruct (faults w) as [|[|] fs]; eauto.
    inversion Hw; discriminate. }
  destruct (find (Prisma.idIs subject) (users (db w))) as [u|].
  - destruct (isActive u) eqn:Act;
      destruct Hf as [Hf|[fs Hf]]; rewrite Hf; cbn [fst]; split;
      try (split; [discriminate|];
           intros [H|[u' [Hu' H']]]; [discriminate|];
           inversion Hu'; subst; congruence);
      try (split; [intros _; right; now exists u | reflexivity]);
      try (intros u'; split;
           [intros H; inversion H; subst; auto
           | intros [H _]; inversion H; subst; reflexivity]);
      try (intros u'; split; [discriminate|];
           intros [H H']; inversion H; subst; congruence).
  - destruct Hf as [Hf|[fs Hf]]; rewrite Hf; cbn [fst]; split;
      try (split; [intros _; now left | reflexivity]);
      try (intros u'; split; [discriminate | intros [H _]; discriminate]).
Qed.

(** X23. Access tokens are not tied to sessions: the outcome of
    [verifyToken] depends on the user table only, so revoking sessions
    does not invalidate an access token; in particular after a
    [logout], whatever its token, every access token is judged as
    before. *)
Theorem verifyToken_ignores_the_session_ledger
        (token : string) (w : World) (d1 d2 : Database) :
  (users d1 = users d2 ->
   fst (AuthService.verifyToken svc token (on_tables d1 w))
   = fst (AuthService.verifyToken svc token (on_tables d2 w)))
  /\ (forall refresh w0,
        fst (AuthService.verifyToken
               svc token (on_tables (db (snd (AuthService.logout refresh w0))) w))
        = fst (AuthService.verifyToken svc token (on_tables (db w0) w))).
Proof.
  assert (Hmain : forall d d', users d = users d' ->
            fst (AuthService.verifyToken svc token (on_tables d w))
            = fst (AuthService.verifyToken svc token (on_tables d' w))).
  { intros d d' Hu. rewrite !verifyToken_run.
    unfold on_tables. cbn [clock faults db set_db]. rewrite Hu.
    destruct (jwt_decode token (jwtSecret svc)) as [p|]; [|reflexivity].
    destruct (match exp p with Some e => e <=? clock w / 1000 | None => false end);
      [reflexivity|].
    destruct (sub p) as [s|]; [|reflexivity].
    destruct (truthy s); [|reflexivity].
    destruct (faults w) as [|[|] fs]; try reflexivity;
      destruct (find (Prisma.idIs s) (users d')) as [u|]; try reflexivity;
      destruct (isActive u); reflexivity. }
  split; [apply Hmain|].
  intros refresh w0. apply Hmain.
  assert (H : preserves (fun d => users d = users (db w0))
                        (AuthService.logout refresh)).
  { unfold AuthService.logout, Prisma.session_findUnique_refreshToken,
      AuthService.logAuditEvent.
    repeat first
      [ keep_step
      | apply preserves_roundTrip; intros ? ? ? Hkeep Hwrite;
        first [ rewrite (session_update_isRevoked_users _ _ _ _ _ Hwrite)
              | rewrite (auditLog_create_users _ _ _ _ _ _ Hwrite) ];
        exact Hkeep ]. }
  exact (H w0 eq_refl).
Qed.

End AccessTokens.

(* ===================================================================== *)
(** ** After a password change; logging out twice; the claims issued *)
(* ===================================================================== *)

Section NewPassword.
Context {B : Bcrypt} {L : BcryptLaws B} {J : JwtCodec}.
Variable svc : AuthService.

(** X24. The new password works: under the contract of bcrypt, after a
    successful [changePassword] for the identity that holds an email,
    a login with that email and the new password, on the store the
    change left, on a store that answers and with a free session id
    and token, succeeds for an active identity. *)
Theorem changePassword_then_login_with_new_password
        (uid : string) (data : ChangePasswordRequest) (remember : bool)
        (w w' w2 : World) (u : User) :
  AuthService.changePassword svc uid data w = (Ok tt, w') ->
  find (Prisma.emailIs (email u)) (users (db w)) = Some u ->
  id u = uid ->
  isActive u = true ->
  db w2 = db w' ->
  healthy w2 ->
  session_slot_free w2 ->
  exists resp w3,
    AuthService.login svc (mkLoginRequest (email u) (newPassword data) remember) w2
      = (Ok resp, w3)
    /\ ur_id (user resp) = uid.
Proof.
  intros Hrun F Hid Act Hdb Hw2 Hfree.
  destruct (changePassword_ok_inv svc uid data w w' Hrun) as [u0 [_ [_ [Hus _]]]].
  set (h := bcrypt_hash (newPassword data) (saltRounds svc) (entropy w (drawn w)))
    in *.
  destruct (login_healthy_run
              svc (mkLoginRequest (email u) (newPassword data) remember)
              w2 (Prisma.set_password h u) Hw2) as [w3 [Hlogin _]].
  - cbn [login_email]. rewrite Hdb, Hus. unfold with_password.
    rewrite find_map_stable.
    + rewrite F. simpl. unfold Prisma.idIs. rewrite Hid.
      now rewrite String.eqb_refl.
    + intros x. now destruct (Prisma.idIs uid x).
  - exact Act.
  - cbn [login_password password Prisma.set_password]. apply bcrypt_compare_hash.
  - exact Hfree.
  - eexists. eexists. split; [exact Hlogin|]. exact Hid.
Qed.

End NewPassword.

Lemma session_rewrite_twice (i : string) (ss : list Session) :
  Prisma.session_rewrite i (Prisma.set_isRevoked true)
    (Prisma.session_rewrite i (Prisma.set_isRevoked true) ss)
  = Prisma.session_rewrite i (Prisma.set_isRevoked true) ss.
Proof.
  unfold Prisma.session_rewrite. rewrite map_map. apply map_ext. intros x.
  destruct (Prisma.sessionIdIs i x) eqn:E.
  - assert (E' : Prisma.sessionIdIs i (Prisma.set_isRevoked true x) = true)
      by exact E.
    rewrite E'. reflexivity.
  - now rewrite E.
Qed.

(** X25. Logging out twice is logging out once, as far as sessions go:
    on a store that answers, a second [logout] with the same token
    leaves the session table and the users as the first one left them;
    it still finds the session, so it writes a second audit entry. *)
Theorem logout_twice_is_logout_once (token : string) (w w2 : World) :
  healthy w ->
  healthy w2 ->
  db w2 = db (snd (AuthService.logout token w)) ->
  fst (AuthService.logout token w2) = Ok tt
  /\ sessions (db (snd (AuthService.logout token w2))) = sessions (db w2)
  /\ users (db (snd (AuthService.logout token w2))) = users (db w2)
  /\ (forall s, find (Prisma.refreshTokenIs token) (sessions (db w)) = Some s ->
        auditLogs (db (snd (AuthService.logout token w2)))
        = (auditLogs (db w)
           ++ [mkAuditLog (userId s) "logout" (clock w);
               mkAuditLog (userId s) "logout" (clock w2)])%list).
Proof.
  intros Hw Hw2 Hdb.
  destruct (find (Prisma.refreshTokenIs token) (sessions (db w))) as [s|] eqn:F.
  - destruct (logout_known token w s Hw F) as [w' [Hrun [Hu [Hs Ha]]]].
    rewrite Hrun in Hdb. cbn [snd] in Hdb.
    assert (F2 : find (Prisma.refreshTokenIs token) (sessions (db w2))
                 = Some (Prisma.set_isRevoked true s)).
    { rewrite Hdb, Hs. unfold Prisma.session_rewrite. rewrite find_map_stable.
      - rewrite F. simpl. unfold Prisma.sessionIdIs. now rewrite String.eqb_refl.
      - intros x. now destruct (Prisma.sessionIdIs (session_id s) x). }
    destruct (logout_known token w2 _ Hw2 F2) as [w3 [Hrun2 [Hu2 [Hs2 Ha2]]]].
    rewrite Hrun2. cbn [fst snd].
    split; [reflexivity|]. split.
    { rewrite Hs2. cbn [session_id Prisma.set_isRevoked].
      rewrite Hdb, Hs. apply session_rewrite_twice. }
    split; [exact Hu2|].
    intros s0 Hs0. inversion Hs0; subst s0.
    rewrite Ha2. cbn [userId Prisma.set_isRevoked]. rewrite Hdb, Ha.
    now rewrite <- app_assoc.
  - rewrite (logout_unknown token w Hw F) in Hdb. cbn [snd db set_db] in Hdb.
    assert (F2 : find (Prisma.refreshTokenIs token) (sessions (db w2)) = None)
      by now rewrite Hdb.
    rewrite (logout_unknown token w2 Hw2 F2). cbn [fst snd db set_db].
    split; [reflexivity|]. split; [reflexivity|]. split; [reflexivity|].
    discriminate.
Qed.

Section IssuedClaims.
Context {J : JwtCodec} {L : JwtCodecLaws J}.
Variable svc : AuthService.

(** X26. What [generateTokens] issues: under the contract of
    jsonwebtoken the access token decodes to claims naming the id, the
    email and the role names of the identity, issued at the second of
    the clock, and expiring exactly [expiresIn] seconds later, 900; the
    refresh token is the next block of the random generator, whoever
    the identity is; the tables are not touched and no round trip is
    made. *)
Theorem generateTokens_issues_consistent_claims (u : User) (w : World) :
  exists claims,
    jwt_decode (accessToken (match fst (AuthService.generateTokens svc u w) with
                             | Ok t => t
                             | Throw _ => mkTokens "" "" 0
                             end)) (jwtSecret svc) = Some claims
    /\ sub claims = Some (id u)
    /\ jwt_email claims = email u
    /\ roles claims = map rr_name (ur_roles (transformUserToResponse u))
    /\ iat claims = Some (clock w / 1000)
    /\ (forall t, fst (AuthService.generateTokens svc u w) = Ok t ->
          exp claims = Some (clock w / 1000 + expiresIn t)
          /\ expiresIn t = JWT_CONFIG.ACCESS_TOKEN_EXPIRES_IN
          /\ tok_refreshToken t = entropy w (drawn w))
    /\ (exists t, fst (AuthService.generateTokens svc u w) = Ok t)
    /\ db (snd (AuthService.generateTokens svc u w)) = db w
    /\ faults (snd (AuthService.generateTokens svc u w)) = faults w.
Proof.
  rewrite generateTokens_run. cbn [fst snd accessToken].
  eexists. split; [apply jwt_decode_encode|].
  cbn [sub jwt_email roles iat exp].
  split; [reflexivity|]. split; [reflexivity|].
  split.
  { unfold roleNames, transformUserToResponse. cbn [ur_roles].
    now rewrite map_map. }
  split; [reflexivity|].
  split.
  { intros t Ht. inversion Ht; subst. cbn [expiresIn tok_refreshToken].
    repeat split. }
  split; [eauto|]. split; reflexivity.
Qed.

End IssuedClaims.

(* ===================================================================== *)
(** ** The routes behind authenticate *)
(* ===================================================================== *)

Section GuardedRoutes.
Context {J : JwtCodec}.
Variable svc : AuthService.

(** A request that [authenticate] lets through was checked against a
    store that answered, and carries an active row of the user table. *)
Lemma authenticate_ok_inv req w req' w' :
  AuthMiddleware.authenticate svc req w = (Ok req', w') ->
  exists u,
    req' = AuthMiddleware.attach u req
    /\ In u (users (db w))
    /\ isActive u = true
    /\ w' = set_db (db w) (answered w).
Proof.
  intros H. destruct (authenticate_attaches svc req w req' w' H)
    as [token [u [Hv Hreq]]].
  exists u. split; [exact Hreq|].
  rewrite verifyToken_run in Hv.
  destruct (jwt_decode token (jwtSecret svc)) as [p|]; [|discriminate].
  destruct (match exp p with Some e => e <=? clock w / 1000 | None => false end);
    [discriminate|].
  destruct (sub p) as [subject|]; [|discriminate].
  destruct (truthy subject); [|discriminate].
  assert (Hrow : match find (Prisma.idIs subject) (users (db w)) with
                 | Some u0 =>
                     if isActive u0
                     then (Ok u0, set_db (db w) (answered w))
                     else (Throw (EApi (UnauthorizedError
                                          AUTH_ERRORS.USER_NOT_FOUND)),
                           set_db (db w) (answered w))
                 | None =>
                     (Throw (EApi (UnauthorizedError AUTH_ERRORS.USER_NOT_FOUND)),
                      set_db (db w) (answered w))
                 end = (Ok u, w')).
  { destruct (faults w) as [|[|] fs]; [exact Hv | discriminate | exact Hv]. }
  destruct (find (Prisma.idIs subject) (users (db w))) as [u0|] eqn:F;
    [|discriminate].
  destruct (isActive u0) eqn:Act; [|discriminate].
  inversion Hrow; subst u0 w'.
  split; [apply find_some in F; tauto|]. split; [exact Act | reflexivity].
Qed.

Lemma authenticate_throws req :
  throws_only (fun e => unauthorized_error e \/ store_error e)
              (AuthMiddleware.authenticate svc req).
Proof.
  intros w e. unfold AuthMiddleware.authenticate.
  assert (Hu : forall w0 : World,
             fst (throw (A := Request)
                    (EApi (UnauthorizedError AUTH_ERRORS.UNAUTHORIZED)) w0)
             = Throw e ->
             unauthorized_error e \/ store_error e).
  { intros w0 H. inversion H. left. now eexists. }
  destruct (authorization req) as [h|]; [|apply Hu].
  destruct (negb (truthy h) || negb (String.prefix "Bearer " h)); [apply Hu|].
  destruct (negb (truthy (AuthMiddleware.substring7 h))); [apply Hu|].
  unfold bind.
  destruct (AuthService.verifyToken svc (AuthMiddleware.substring7 h) w)
    as [[u|ex] w1] eqn:V; [discriminate|].
  cbn [fst]. intros H. inversion H; subst ex.
  apply (verifyToken_throws svc (AuthMiddleware.substring7 h) w e).
  now rewrite V.
Qed.

Lemma authenticate_reads_only req w :
  db (snd (AuthMiddleware.authenticate svc req w)) = db w.
Proof.
  assert (Hv : forall token,
             preserves (fun d => d = db w) (AuthService.verifyToken svc token)).
  { intros token. unfold AuthService.verifyToken, jwt.verify,
      Prisma.user_findUnique_id. keep. }
  assert (H : preserves (fun d => d = db w)
                        (AuthMiddleware.authenticate svc req)).
  { unfold AuthMiddleware.authenticate.
    repeat first [apply Hv | keep_step]. }
  exact (H w eq_refl).
Qed.

Lemma database_eta (d d' : Database) :
  users d = users d' -> sessions d = sessions d' -> auditLogs d = auditLogs d' ->
  d = d'.
Proof. destruct d, d'; simpl; intros; subst; reflexivity. Qed.

(** [logout] reads the tables and the clock only, on a store that
    answers. *)
Lemma logout_on_same_tables token w w1 :
  healthy w -> healthy w1 -> db w1 = db w -> clock w1 = clock w ->
  fst (AuthService.logout token w1) = Ok tt
  /\ db (snd (AuthService.logout token w1)) = db (snd (AuthService.logout token w)).
Proof.
  intros Hw Hw1 Hdb Hclock.
  destruct (find (Prisma.refreshTokenIs token) (sessions (db w))) as [s|] eqn:F.
  - destruct (logout_known token w s Hw F) as [w' [Hrun [Hu [Hs Ha]]]].
    assert (F1 : find (Prisma.refreshTokenIs token) (sessions (db w1)) = Some s)
      by now rewrite Hdb.
    destruct (logout_known token w1 s Hw1 F1) as [w1' [Hrun1 [Hu1 [Hs1 Ha1]]]].
    rewrite Hrun, Hrun1. cbn [fst snd]. split; [reflexivity|].
    apply database_eta.
    + now rewrite Hu1, Hu, Hdb.
    + now rewrite Hs1, Hs, Hdb.
    + now rewrite Ha1, Ha, Hdb, Hclock.
  - assert (F1 : find (Prisma.refreshTokenIs token) (sessions (db w1)) = None)
      by now rewrite Hdb.
    rewrite (logout_unknown token w Hw F), (logout_unknown token w1 Hw1 F1).
    cbn [fst snd db set_db]. split; [reflexivity | exact Hdb].
Qed.

(** X27. POST /auth/logout serves any authenticated caller, and checks
    nothing of the body: once [authenticate] has let the request
    through, on a store that answers, a body without a truthy
    [refreshToken] is answered 200 'Logout successful' and nothing is
    written; a non-empty string is answered 200 and the tables end up
    as [AuthService.logout] on that token leaves them, so the session
    that holds the token is revoked whoever owns it, the route never
    comparing the owner of the session with the caller; a truthy value
    that is no string, and a body that is [undefined] or [null], are
    answered 500 'Internal server error' and nothing is written. *)
Theorem logout_route_serves_any_authenticated_caller
        (req req' : Request) (body : JsValue) (w w1 : World) :
  healthy w ->
  AuthMiddleware.authenticate svc req w = (Ok req', w1) ->
  let reply := fst (AuthRoutes.logout svc body req w) in
  let after := db (snd (AuthRoutes.logout svc body req w)) in
  let done :=
    AuthRoutes.Sent 200 (AuthRoutes.createSuccessResponse
                           AuthRoutes.DataNull "Logout successful") in
  let failed :=
    AuthRoutes.Failed
      (mkHttpResponse 500 (createErrorResponse "Internal server error"
                                               "INTERNAL_SERVER_ERROR")) in
  (forall v, fst (AuthRoutes.body_refreshToken body w1) = Ok v ->
     js_truthy v = false ->
     reply = done /\ after = db w)
  /\ (forall t, fst (AuthRoutes.body_refreshToken body w1) = Ok (JsString t) ->
        t <> "" ->
        reply = done
        /\ after = db (snd (AuthService.logout t w))
        /\ forall s, find (Prisma.refreshTokenIs t) (sessions (db w)) = Some s ->
             find (Prisma.refreshTokenIs t) (sessions after)
             = Some (Prisma.set_isRevoked true s))
  /\ (forall v, fst (AuthRoutes.body_refreshToken body w1) = Ok v ->
        js_truthy v = true ->
        (forall t, v <> JsString t) ->
        reply = failed /\ after = db w)
  /\ (body = JsUndefined \/ body = JsNull -> reply = failed /\ after = db w).
Proof.
  intros Hw Hauth. cbv zeta.
  destruct (authenticate_ok_inv req w req' w1 Hauth) as [u [_ [_ [_ Hw1]]]].
  assert (Hh1 : healthy w1) by (subst w1; still_healthy).
  assert (Hdb1 : db w1 = db w) by (subst w1; reflexivity).
  assert (Hc1 : clock w1 = clock w) by (subst w1; reflexivity).
  assert (Hread : forall v, fst (AuthRoutes.body_refreshToken body w1) = Ok v ->
            AuthRoutes.body_refreshToken body w1 = (Ok v, w1)).
  { intros v. unfold AuthRoutes.body_refreshToken.
    destruct body as [| |b|x|s|items|fields]; try discriminate;
      try (unfold ret; cbn [fst]; intros H; inversion H; reflexivity).
    destruct (find _ fields) as [[k v0]|];
      unfold ret; cbn [fst]; intros H; inversion H; reflexivity. }
  split.
  { intros v Hv Hf. apply Hread in Hv.
    unfold AuthRoutes.logout, AuthRoutes.respond, bind.
    rewrite Hauth, Hv, Hf. unfold ret. cbn [fst snd].
    split; [reflexivity | exact Hdb1]. }
  split.
  { intros t Hv Ht. apply Hread in Hv.
    assert (Htr : truthy t = true).
    { unfold truthy. apply negb_true_iff. now apply String.eqb_neq. }
    assert (Hrun : fst (AuthRoutes.logout svc body req w)
                   = AuthRoutes.Sent 200 (AuthRoutes.createSuccessResponse
                                            AuthRoutes.DataNull
                                            "Logout successful")
                   /\ db (snd (AuthRoutes.logout svc body req w))
                      = db (snd (AuthService.logout t w))).
    { unfold AuthRoutes.logout, AuthRoutes.respond, bind.
      rewrite Hauth, Hv. cbn [js_truthy]. rewrite Htr.
      destruct (logout_on_same_tables t w w1 Hw Hh1 Hdb1 Hc1) as [Hok Hsame].
      destruct (AuthService.logout t w1) as [[[]|ex] w2]; [|discriminate Hok].
      cbn [fst snd] in *. unfold ret. cbn [fst snd].
      split; [reflexivity | exact Hsame]. }
    destruct Hrun as [Hreply Hafter].
    split; [exact Hreply|]. split; [exact Hafter|].
    intros s F. rewrite Hafter.
    destruct (logout_known t w s Hw F) as [w' [Hrun [_ [Hs _]]]].
    rewrite Hrun. cbn [snd]. rewrite Hs.
    unfold Prisma.session_rewrite. rewrite find_map_stable.
    - rewrite F. simpl. unfold Prisma.sessionIdIs. now rewrite String.eqb_refl.
    - intros x. destruct (Prisma.sessionIdIs (session_id s) x); reflexivity. }
  split.
  { intros v Hv Htr Hns. apply Hread in Hv.
    unfold AuthRoutes.logout, AuthRoutes.respond, bind.
    rewrite Hauth, Hv, Htr.
    destruct v as [| |b|x|s|items|fields];
      try (unfold throw; cbn [fst snd]; split; [reflexivity | exact Hdb1]).
    now elim (Hns s). }
  intros Hb.
  unfold AuthRoutes.logout, AuthRoutes.respond, bind. rewrite Hauth.
  destruct Hb as [Hb|Hb]; subst body; unfold AuthRoutes.body_refreshToken, throw;
    cbn [fst snd]; (split; [reflexivity | exact Hdb1]).
Qed.

(** X28. GET /auth/me sends the stored row as it is: once
    [authenticate] has let the request through, the reply is 200 with,
    as data, the very row of the user table that [verifyToken] read,
    an active one, with every column, the password hash among them;
    the row is not passed through [transformUserToResponse]. Nothing
    is written. *)
Theorem me_route_sends_the_stored_row
        (req req' : Request) (w w1 : World) :
  AuthMiddleware.authenticate svc req w = (Ok req', w1) ->
  exists u,
    In u (users (db w))
    /\ isActive u = true
    /\ req_user req' = Some u
    /\ fst (AuthRoutes.me svc req w)
       = AuthRoutes.Sent 200 (AuthRoutes.createSuccessResponse
                                (AuthRoutes.DataUser u)
                                "Profile retrieved successfully")
    /\ db (snd (AuthRoutes.me svc req w)) = db w.
Proof.
  intros Hauth.
  destruct (authenticate_ok_inv req w req' w1 Hauth) as [u [Hreq [Hin [Act Hw1]]]].
  exists u. split; [exact Hin|]. split; [exact Act|].
  split; [subst req'; reflexivity|].
  unfold AuthRoutes.me, AuthRoutes.respond, bind. rewrite Hauth.
  subst req'. cbn [AuthMiddleware.getCurrentUser AuthMiddleware.attach req_user].
  unfold ret. cbn [fst snd]. split; [reflexivity|]. subst w1. reflexivity.
Qed.

(** X29. Without identity the guarded routes do nothing: when
    [authenticate] hands an error to [next], both routes answer with
    what [errorHandler] makes of that error, a 401 or, when the store
    was down, a 500; the handler is not run, and the tables are as
    before. *)
Theorem guarded_routes_refuse_without_identity
        (req : Request) (body : JsValue) (w : World) (e : Exn) :
  fst (AuthMiddleware.authenticate svc req w) = Throw e ->
  fst (AuthRoutes.logout svc body req w) = AuthRoutes.Failed (errorHandler e)
  /\ fst (AuthRoutes.me svc req w) = AuthRoutes.Failed (errorHandler e)
  /\ (status (errorHandler e) = 401 \/ status (errorHandler e) = 500)
  /\ db (snd (AuthRoutes.logout svc body req w)) = db w
  /\ db (snd (AuthRoutes.me svc req w)) = db w.
Proof.
  intros Hthrow.
  assert (Hkind := authenticate_throws req w e Hthrow).
  assert (Hdb : db (snd (AuthMiddleware.authenticate svc req w)) = db w).
  { apply authenticate_reads_only. }
  unfold AuthRoutes.logout, AuthRoutes.me, AuthRoutes.respond, bind.
  destruct (AuthMiddleware.authenticate svc req w) as [[r|ex] w1];
    [discriminate Hthrow|].
  cbn [fst snd] in *. inversion Hthrow; subst ex.
  split; [reflexivity|]. split; [reflexivity|].
  split; [|split; exact Hdb].
  destruct Hkind as [[msg Hm]|[c Hc]]; subst e; [left | right]; reflexivity.
Qed.

End GuardedRoutes.

(* ===================================================================== *)
(** ** The further properties at work on the sample data *)
(* ===================================================================== *)

Lemma hasher_laws : BcryptLaws Reference.hasher.
Proof. constructor. intros pw rounds salt. apply hasher_accepts. Qed.

Lemma sample_user_ids_unique : NoDup (map id (users (db Sample.world))).
Proof.
  simpl. repeat (constructor; [simpl; intuition discriminate|]); constructor.
Defined.

Lemma sample_tokens_unique :
  NoDup (map refreshToken (sessions (db Sample.world))).
Proof. exact (proj2 sample_sessions_unique). Defined.

(** The worlds the sample methods leave behind are healthy. *)
Ltac sample_healthy := unfold healthy; vm_compute; constructor.

(** X2 at work: the sweep at 4000 ms keeps the session of carol and
    drops the revoked session of alice. *)
Lemma cleanExpiredSessions_deletes_only_dead_sessions_witness :
  healthy Sample.world
  /\ fst (AuthService.cleanExpiredSessions Sample.world) = Ok tt
  /\ In Sample.s2
        (sessions (db (snd (AuthService.cleanExpiredSessions Sample.world))))
  /\ ~ In Sample.s3
          (sessions (db (snd (AuthService.cleanExpiredSessions Sample.world)))).
Proof.
  split; [exact sample_world_healthy|].
  destruct (cleanExpiredSessions_deletes_only_dead_sessions Sample.world)
    as [_ [Hkeep [_ Hh]]].
  destruct (Hh sample_world_healthy) as [Hok Hiff].
  split; [exact Hok|]. split.
  - apply Hkeep; [simpl; auto | reflexivity | vm_compute; discriminate].
  - intros Hin. apply Hiff in Hin. destruct Hin as [_ [R _]]. discriminate R.
Defined.

(** X3 at work: carol logs out and her refresh token is refused. *)
Lemma logout_then_refreshToken_is_refused_witness :
  healthy Sample.world
  /\ healthy (snd (AuthService.logout "rt-carol" Sample.world))
  /\ fst (Sample.refreshToken (mkRefreshTokenRequest "rt-carol")
            (snd (AuthService.logout "rt-carol" Sample.world)))
     = Throw (EApi (UnauthorizedError "Invalid or expired token")).
Proof.
  assert (H2 : healthy (snd (AuthService.logout "rt-carol" Sample.world)))
    by sample_healthy.
  split; [exact sample_world_healthy|]. split; [exact H2|].
  exact (logout_then_refreshToken_is_refused
           (J := Reference.codec) Sample.service "rt-carol" Sample.world _
           sample_world_healthy H2 eq_refl).
Defined.

(** X4 at work: the revoked token of alice is refused before the sweep,
    hence after it. *)
Lemma cleanExpiredSessions_keeps_refresh_verdicts_witness :
  NoDup (map refreshToken (sessions (db Sample.world)))
  /\ healthy Sample.world
  /\ clock Sample.world <= clock Sample.world
  /\ is_unauthorized
       (fst (Sample.refreshToken
               (mkRefreshTokenRequest "rt-alice-old")
               (on_tables (db (snd (AuthService.cleanExpiredSessions Sample.world)))
                          Sample.world))).
Proof.
  assert (Hc : clock Sample.world <= clock Sample.world) by (apply Z.le_refl).
  split; [exact sample_tokens_unique|].
  split; [exact sample_world_healthy|]. split; [exact Hc|].
  apply (cleanExpiredSessions_keeps_refresh_verdicts
           (J := Reference.codec) Sample.service "rt-alice-old"
           Sample.world Sample.world
           sample_tokens_unique sample_world_healthy Hc).
  exists "Invalid or expired token". vm_compute. reflexivity.
Defined.

(** X5 at work: alice changes her password and the refresh token of
    her open session is refused. *)
Lemma changePassword_then_refreshToken_is_refused_witness :
  let data := mkChangePasswordRequest "password123!" "a-better-password" in
  fst (Sample.changePassword "u1" data Sample.world) = Ok tt
  /\ In Sample.s1 (sessions (db Sample.world))
  /\ userId Sample.s1 = "u1"
  /\ fst (Sample.refreshToken
            (mkRefreshTokenRequest "rt-alice")
            (snd (Sample.changePassword "u1" data Sample.world)))
     = Throw (EApi (UnauthorizedError "Invalid or expired token")).
Proof.
  intros data.
  assert (Hin : In Sample.s1 (sessions (db Sample.world))) by (simpl; auto).
  split; [vm_compute; reflexivity|]. split; [exact Hin|].
  split; [reflexivity|].
  refine (changePassword_then_refreshToken_is_refused
            (B := Reference.hasher) (J := Reference.codec) Sample.service
            "u1" data Sample.world
            (snd (Sample.changePassword "u1" data Sample.world))
            (snd (Sample.changePassword "u1" data Sample.world))
            Sample.s1 _ sample_tokens_unique Hin eq_refl eq_refl _).
  - vm_compute. reflexivity.
  - sample_healthy.
Defined.


(** X7 at work: carol logs in and refreshes with the token she got. *)
Lemma login_then_refreshToken_succeeds_witness :
  let data := mkLoginRequest "carol@example.com" "correct horse" false in
  NoDup (map id (users (db Sample.world)))
  /\ exists resp w',
       Sample.login data Sample.world = (Ok resp, w')
       /\ healthy w'
       /\ exists resp2,
            fst (Sample.refreshToken
                   (mkRefreshTokenRequest (tok_refreshToken (tokens resp))) w')
              = Ok resp2
            /\ ur_id (user resp2) = "u3".
Proof.
  intros data.
  assert (Hids : NoDup (map id (users (db Sample.world))))
    by exact sample_user_ids_unique.
  split; [exact Hids|].
  eexists. eexists. split; [vm_compute; reflexivity|].
  match goal with |- healthy ?w /\ _ => assert (Hw : healthy w) by sample_healthy end.
  split; [exact Hw|].
  destruct (login_then_refreshToken_succeeds
              (B := Reference.hasher) (J := Reference.codec) Sample.service
              data Sample.world _ _ _ Hids eq_refl eq_refl Hw)
    as [resp2 [Hrun [Hid _]]].
  - vm_compute. discriminate.
  - reflexivity.
  - exists resp2. split; [exact Hrun|]. rewrite Hid. reflexivity.
Defined.

(** X8 at work: carol refreshes, and refreshes again with the token
    the first refresh returned. *)
Lemma refreshToken_then_refreshToken_succeeds_witness :
  sessions_unique (db Sample.world)
  /\ exists resp w',
       Sample.refreshToken (mkRefreshTokenRequest "rt-carol") Sample.world
         = (Ok resp, w')
       /\ healthy w'
       /\ exists resp2,
            fst (Sample.refreshToken
                   (mkRefreshTokenRequest (tok_refreshToken (tokens resp))) w')
              = Ok resp2
            /\ user resp2 = user resp.
Proof.
  split; [exact sample_sessions_unique|].
  eexists. eexists. split; [vm_compute; reflexivity|].
  match goal with |- healthy ?w /\ _ => assert (Hw : healthy w) by sample_healthy end.
  split; [exact Hw|].
  refine (refreshToken_then_refreshToken_succeeds
            (J := Reference.codec) Sample.service "rt-carol" Sample.world _ _ _
            sample_sessions_unique eq_refl eq_refl Hw _ _).
  - intros s Hs. vm_compute in Hs. inversion Hs. vm_compute. discriminate.
  - reflexivity.
Defined.

(** X9 at work: dave registers; the user table and the session table
    each hold one more row. *)
Lemma register_creates_identity_and_session_witness :
  healthy Sample.world
  /\ registration_free Sample.newcomer Sample.world
  /\ exists resp w',
       Sample.register Sample.newcomer Sample.world = (Ok resp, w')
       /\ ur_email (user resp) = "dave@example.com"
       /\ map id (users (db w')) = ["u1"; "u2"; "u3"; "id-0"]
       /\ map refreshToken (sessions (db w'))
          = ["rt-alice"; "rt-carol"; "rt-alice-old"; "rnd-10"].
Proof.
  assert (Hfree : registration_free Sample.newcomer Sample.world)
    by (repeat split).
  split; [exact sample_world_healthy|]. split; [exact Hfree|].
  destruct (register_creates_identity_and_session
              (B := Reference.hasher) (J := Reference.codec) Sample.service
              Sample.newcomer Sample.world sample_world_healthy Hfree)
    as [resp [w' [Hrun [Hresp [_ [Hu [Hs _]]]]]]].
  exists resp, w'. split; [exact Hrun|].
  split; [rewrite Hresp; reflexivity|].
  split; [rewrite Hu; reflexivity | rewrite Hs; reflexivity].
Defined.

(** X10 at work: dave registers and logs in with the same password. *)
Lemma register_then_login_succeeds_witness :
  exists resp w',
    Sample.register Sample.newcomer Sample.world = (Ok resp, w')
    /\ healthy w'
    /\ session_slot_free w'
    /\ exists resp2 w3,
         Sample.login
           (mkLoginRequest "dave@example.com" "davespassword" true) w'
           = (Ok resp2, w3)
         /\ ur_id (user resp2) = ur_id (user resp).
Proof.
  eexists. eexists. split; [vm_compute; reflexivity|].
  match goal with |- healthy ?w /\ _ => assert (Hw : healthy w) by sample_healthy end.
  split; [exact Hw|].
  match goal with
  | |- session_slot_free ?w /\ _ =>
      assert (Hfree : session_slot_free w) by (split; vm_compute; reflexivity)
  end.
  split; [exact Hfree|].
  destruct (register_then_login_succeeds
              (B := Reference.hasher) (J := Reference.codec) Sample.service
              (L := hasher_laws) Sample.newcomer true Sample.world _ _ _
              eq_refl eq_refl Hw Hfree)
    as [resp2 [w3 [Hrun [Hid _]]]].
  exists resp2, w3. split; [exact Hrun | exact Hid].
Defined.

(** X13 at work: a login with a wrong password is answered with 401
    on a store that is up and with 500 on a store that is down. *)
Lemma service_error_taxonomy_witness :
  let data := mkLoginRequest "carol@example.com" "wrong" false in
  exists e1 e2,
    fst (Sample.login data Sample.world) = Throw e1
    /\ fst (Sample.login data (Sample.world_with_faults [true])) = Throw e2
    /\ unauthorized_error e1
    /\ status (errorHandler e1) = 401
    /\ store_error e2
    /\ status (errorHandler e2) = 500.
Proof.
  intros data.
  exists (EApi (UnauthorizedError AUTH_ERRORS.INVALID_CREDENTIALS)), (EPrisma "P1001").
  assert (R1 : fst (Sample.login data Sample.world)
               = Throw (EApi (UnauthorizedError AUTH_ERRORS.INVALID_CREDENTIALS)))
    by (vm_compute; reflexivity).
  assert (R2 : fst (Sample.login data (Sample.world_with_faults [true]))
               = Throw (EPrisma "P1001"))
    by (vm_compute; reflexivity).
  destruct (service_error_taxonomy
              (B := Reference.hasher) (J := Reference.codec) Sample.service)
    as [_ [Hlogin [_ [_ [_ [_ [_ [_ Hanswer]]]]]]]].
  assert (U1 : unauthorized_error
                 (EApi (UnauthorizedError AUTH_ERRORS.INVALID_CREDENTIALS))).
  { destruct (Hlogin data _ _ R1) as [Hu|[c Hc]]; [exact Hu | discriminate Hc]. }
  assert (S2 : store_error (EPrisma "P1001")).
  { destruct (Hlogin data _ _ R2) as [[m Hm]|Hs]; [discriminate Hm | exact Hs]. }
  split; [exact R1|]. split; [exact R2|]. split; [exact U1|].
  split; [exact (proj1 (Hanswer _) U1)|]. split; [exact S2|].
  exact (proj2 (proj2 (Hanswer _)) (or_introl S2)).
Defined.

(** X14 at work: a login with a wrong password leaves the tables as
    they were. *)
Lemma rejections_leave_the_store_unchanged_witness :
  let data := mkLoginRequest "carol@example.com" "wrong" false in
  fst (Sample.login data Sample.world)
    = Throw (EApi (UnauthorizedError AUTH_ERRORS.INVALID_CREDENTIALS))
  /\ db (snd (Sample.login data Sample.world)) = db Sample.world.
Proof.
  intros data.
  assert (Hrun : fst (Sample.login data Sample.world)
                 = Throw (EApi (UnauthorizedError AUTH_ERRORS.INVALID_CREDENTIALS)))
    by (vm_compute; reflexivity).
  split; [exact Hrun|].
  destruct (rejections_leave_the_store_unchanged
              (B := Reference.hasher) (J := Reference.codec) Sample.service
              Sample.world (UnauthorizedError AUTH_ERRORS.INVALID_CREDENTIALS))
    as [_ [Hlogin _]].
  exact (Hlogin data Hrun).
Defined.

(** X16 at work: the access token issued to carol at 4000 ms is
    accepted at 903999 ms and refused at 904000 ms. *)
Lemma access_token_lives_900_seconds_witness :
  exists issuedTokens w1,
    Sample.generateTokens Sample.carol Sample.world = (Ok issuedTokens, w1)
    /\ fst (Sample.verifyToken (accessToken issuedTokens)
                               (at_time 903999 Sample.world))
       = Ok Sample.carol
    /\ fst (Sample.verifyToken (accessToken issuedTokens)
                               (at_time 904000 Sample.world))
       = Throw (EApi (UnauthorizedError "Invalid or expired token")).
Proof.
  eexists. eexists. split; [reflexivity|].
  assert (N : id Sample.carol <> "") by discriminate.
  split.
  - apply (access_token_lives_900_seconds
             (J := Reference.codec) (L := codec_laws) Sample.service
             Sample.carol Sample.carol Sample.world _
             (at_time 903999 Sample.world) _ eq_refl eq_refl eq_refl N).
    + sample_healthy.
    + vm_compute. reflexivity.
  - apply (access_token_lives_900_seconds
             (J := Reference.codec) (L := codec_laws) Sample.service
             Sample.carol Sample.carol Sample.world _
             (at_time 904000 Sample.world) _ eq_refl eq_refl eq_refl N).
    + sample_healthy.
    + vm_compute. discriminate.
Defined.

(** X17 at work: in production the placeholder secret is refused, and
    outside production a missing secret is replaced by it. *)
Lemma constructor_refuses_default_secret_in_production_witness :
  AuthService.new (Some "your-secret-key") (Some "production")
    = Throw (EError "JWT_SECRET must be set in production")
  /\ Some "development" <> Some "production"
  /\ exists svc, AuthService.new None (Some "development") = Ok svc.
Proof.
  assert (Hdev : Some "development" <> Some "production") by discriminate.
  split.
  - apply (constructor_refuses_default_secret_in_production
             (Some "your-secret-key") None).
    right. right. reflexivity.
  - split; [exact Hdev|].
    apply (constructor_refuses_default_secret_in_production
             None (Some "development")).
    exact Hdev.
Defined.

(** X18 at work: the header of carol is handed to [verifyToken], and a
    request without header is turned away. *)
Lemma authenticate_reads_the_bearer_token_witness :
  Sample.carol_token <> ""
  /\ fst (Sample.authenticate (Sample.bearer Sample.carol_token) Sample.world)
     = Ok (mkRequest (Some ("Bearer " ++ Sample.carol_token)) (Some Sample.carol))
  /\ Sample.authenticate (mkRequest None None) Sample.world
     = (Throw (EApi (UnauthorizedError "Unauthorized access")), Sample.world).
Proof.
  assert (N : Sample.carol_token <> "") by (vm_compute; discriminate).
  destruct (authenticate_reads_the_bearer_token
              (J := Reference.codec) Sample.service) as [Hbearer Hnone].
  split; [exact N|]. split.
  - unfold Sample.authenticate, Sample.bearer.
    rewrite (Hbearer Sample.carol_token None Sample.world N).
    vm_compute. reflexivity.
  - apply Hnone. intros t _. discriminate.
Defined.

(** X20 at work: the order of the required roles does not matter. *)
Lemma userHasAnyRole_is_some_userHasRole_witness :
  (forall r, In r ["admin"; "user"] <-> In r ["user"; "admin"])
  /\ userHasAnyRole Sample.carol ["admin"; "user"]
     = userHasAnyRole Sample.carol ["user"; "admin"].
Proof.
  assert (Hsame : forall r, In r ["admin"; "user"] <-> In r ["user"; "admin"])
    by (intros r; simpl; tauto).
  split; [exact Hsame|].
  destruct (userHasAnyRole_is_some_userHasRole Sample.carol ["admin"; "user"])
    as [_ [_ [_ [_ Hperm]]]].
  exact (Hperm ["user"; "admin"] Hsame).
Defined.

(** X21 at work: a request nobody authenticated is turned away from a
    route open to 'user'. *)
Lemma authorize_edges_witness :
  req_user (mkRequest None None) = None
  /\ AuthMiddleware.authorize ["user"] (mkRequest None None)
     = Throw (EApi (UnauthorizedError "Unauthorized access")).
Proof.
  split; [reflexivity|].
  destruct (authorize_edges ["user"] (mkRequest None None)) as [Hnone _].
  exact (Hnone eq_refl).
Defined.

(** X22 at work: the token of carol is accepted while carol is in the
    user table and active. *)
Lemma verifyToken_follows_the_user_table_witness :
  healthy Sample.world
  /\ @jwt_decode Reference.codec Sample.carol_token (jwtSecret Sample.service)
     = Some (Sample.claims_of Sample.carol 4 904)
  /\ fst (Sample.verifyToken Sample.carol_token Sample.world) = Ok Sample.carol.
Proof.
  assert (Hd : @jwt_decode Reference.codec Sample.carol_token
                 (jwtSecret Sample.service)
               = Some (Sample.claims_of Sample.carol 4 904))
    by (vm_compute; reflexivity).
  assert (N : "u3" <> "") by discriminate.
  split; [exact sample_world_healthy|]. split; [exact Hd|].
  refine (proj2 (proj2 (verifyToken_follows_the_user_table
                   (J := Reference.codec) Sample.service Sample.carol_token
                   Sample.world _ "u3" sample_world_healthy Hd _ eq_refl N)
                 Sample.carol) _).
  - intros e He. inversion He. vm_compute. reflexivity.
  - split; reflexivity.
Defined.

(** X23 at work: the token of carol is judged the same with an empty
    session table. *)
Lemma verifyToken_ignores_the_session_ledger_witness :
  users Sample.tables = users (mkDatabase (users Sample.tables) [] [])
  /\ fst (Sample.verifyToken Sample.carol_token
                             (on_tables Sample.tables Sample.world))
     = fst (Sample.verifyToken
              Sample.carol_token
              (on_tables (mkDatabase (users Sample.tables) [] []) Sample.world)).
Proof.
  split; [reflexivity|].
  destruct (verifyToken_ignores_the_session_ledger
              (J := Reference.codec) Sample.service Sample.carol_token
              Sample.world Sample.tables (mkDatabase (users Sample.tables) [] []))
    as [Hsame _].
  exact (Hsame eq_refl).
Defined.

(** X24 at work: alice changes her password and logs in with the new
    one. *)
Lemma changePassword_then_login_with_new_password_witness :
  let data := mkChangePasswordRequest "password123!" "a-better-password" in
  exists w',
    Sample.changePassword "u1" data Sample.world = (Ok tt, w')
    /\ healthy w'
    /\ session_slot_free w'
    /\ exists resp w3,
         Sample.login (mkLoginRequest "alice@example.com" "a-better-password" false)
                      w'
           = (Ok resp, w3)
         /\ ur_id (user resp) = "u1".
Proof.
  intros data.
  eexists. split; [vm_compute; reflexivity|].
  match goal with |- healthy ?w /\ _ => assert (Hw : healthy w) by sample_healthy end.
  split; [exact Hw|].
  match goal with
  | |- session_slot_free ?w /\ _ =>
      assert (Hfree : session_slot_free w) by (split; vm_compute; reflexivity)
  end.
  split; [exact Hfree|].
  exact (changePassword_then_login_with_new_password
           (B := Reference.hasher) (L := hasher_laws) (J := Reference.codec)
           Sample.service "u1" data false Sample.world _ _ Sample.alice
           eq_refl eq_refl eq_refl eq_refl eq_refl Hw Hfree).
Defined.

(** X25 at work: carol logs out twice; the second logout succeeds and
    leaves the session table as the first one left it. *)
Lemma logout_twice_is_logout_once_witness :
  let once := snd (AuthService.logout "rt-carol" Sample.world) in
  healthy Sample.world
  /\ healthy once
  /\ fst (AuthService.logout "rt-carol" once) = Ok tt
  /\ sessions (db (snd (AuthService.logout "rt-carol" once))) = sessions (db once).
Proof.
  intros once.
  assert (H2 : healthy once) by sample_healthy.
  split; [exact sample_world_healthy|]. split; [exact H2|].
  destruct (logout_twice_is_logout_once
              "rt-carol" Sample.world once sample_world_healthy H2 eq_refl)
    as [Hok [Hs _]].
  split; [exact Hok | exact Hs].
Defined.

(** X26 at work: the claims in the access token issued to carol. *)
Lemma generateTokens_issues_consistent_claims_witness :
  exists t claims,
    fst (Sample.generateTokens Sample.carol Sample.world) = Ok t
    /\ @jwt_decode Reference.codec (accessToken t) "s3cret" = Some claims
    /\ sub claims = Some "u3"
    /\ roles claims = ["user"]
    /\ exp claims = Some 904.
Proof.
  destruct (generateTokens_issues_consistent_claims
              (J := Reference.codec) (L := codec_laws) Sample.service
              Sample.carol Sample.world)
    as [claims [Hd [Hsub [_ [Hroles [_ [Hexp [[t Ht] _]]]]]]]].
  exists t, claims. split; [exact Ht|].
  unfold Sample.generateTokens in Ht. rewrite Ht in Hd. cbn iota in Hd.
  split; [exact Hd|]. split; [exact Hsub|]. split; [exact Hroles|].
  destruct (Hexp t Ht) as [He [Hin _]]. rewrite He, Hin. reflexivity.
Defined.

(** X27 at work: carol, authenticated by her own access token, posts the
    refresh token of alice to /auth/logout; the route answers 200 and
    the session of alice is revoked.  With the number 123 in place of
    the token the answer is 500. *)
Lemma logout_route_serves_any_authenticated_caller_witness :
  let body := JsObject [("refreshToken", JsString "rt-alice")] in
  let odd := JsObject [("refreshToken",
                        JsNumber (SpecFloat.S754_finite false 123 0))] in
  let carol_logout (b : JsValue) :=
    AuthRoutes.logout (J := Reference.codec) Sample.service b
                      (Sample.bearer Sample.carol_token) Sample.world in
  healthy Sample.world
  /\ exists req' w1,
       Sample.authenticate (Sample.bearer Sample.carol_token) Sample.world
         = (Ok req', w1)
       /\ req_user req' = Some Sample.carol
       /\ userId Sample.s1 = id Sample.alice
       /\ fst (carol_logout body)
          = AuthRoutes.Sent 200 (AuthRoutes.createSuccessResponse
                                   AuthRoutes.DataNull "Logout successful")
       /\ find (Prisma.refreshTokenIs "rt-alice")
               (sessions (db (snd (carol_logout body))))
          = Some (Prisma.set_isRevoked true Sample.s1)
       /\ fst (carol_logout odd)
          = AuthRoutes.Failed
              (mkHttpResponse 500 (createErrorResponse "Internal server error"
                                                       "INTERNAL_SERVER_ERROR"))
       /\ db (snd (carol_logout odd)) = db Sample.world.
Proof.
  intros body odd carol_logout.
  split; [exact sample_world_healthy|].
  eexists. eexists. split; [vm_compute; reflexivity|].
  split; [reflexivity|]. split; [reflexivity|].
  assert (N : "rt-alice" <> "") by discriminate.
  destruct (logout_route_serves_any_authenticated_caller
              (J := Reference.codec) Sample.service
              (Sample.bearer Sample.carol_token) _ body
              Sample.world _ sample_world_healthy eq_refl)
    as [_ [Hstring _]].
  destruct (Hstring "rt-alice" eq_refl N) as [Hok [_ Hrev]].
  destruct (logout_route_serves_any_authenticated_caller
              (J := Reference.codec) Sample.service
              (Sample.bearer Sample.carol_token) _ odd
              Sample.world _ sample_world_healthy eq_refl)
    as [_ [_ [Hodd _]]].
  destruct (Hodd (JsNumber (SpecFloat.S754_finite false 123 0)) eq_refl eq_refl)
    as [Hfail Hsame]; [discriminate|].
  split; [exact Hok|]. split; [exact (Hrev Sample.s1 eq_refl)|].
  split; [exact Hfail | exact Hsame].
Defined.

(** X28 at work: the reply of /auth/me to carol carries her row, and
    with it the hash of her password. *)
Lemma me_route_sends_the_stored_row_witness :
  exists req' w1,
    Sample.authenticate (Sample.bearer Sample.carol_token) Sample.world
      = (Ok req', w1)
    /\ fst (AuthRoutes.me (J := Reference.codec) Sample.service (Sample.bearer Sample.carol_token)
                          Sample.world)
       = AuthRoutes.Sent 200 (AuthRoutes.createSuccessResponse
                                (AuthRoutes.DataUser Sample.carol)
                                "Profile retrieved successfully")
    /\ password Sample.carol
       = @bcrypt_hash Reference.hasher "correct horse" 12 "sugar".
Proof.
  eexists. eexists. split; [vm_compute; reflexivity|].
  destruct (me_route_sends_the_stored_row
              (J := Reference.codec) Sample.service
              (Sample.bearer Sample.carol_token) _ Sample.world _ eq_refl)
    as [u [_ [_ [Hu [Hrun _]]]]].
  split; [|reflexivity].
  rewrite Hrun. inversion Hu. reflexivity.
Defined.

(** X29 at work: a request without header gets a 401 from both routes
    and no session is revoked. *)
Lemma guarded_routes_refuse_without_identity_witness :
  let body := JsObject [("refreshToken", JsString "rt-alice")] in
  fst (Sample.authenticate (mkRequest None None) Sample.world)
    = Throw (EApi (UnauthorizedError "Unauthorized access"))
  /\ fst (AuthRoutes.logout (J := Reference.codec) Sample.service body
                            (mkRequest None None) Sample.world)
     = AuthRoutes.Failed
         (mkHttpResponse 401 (createErrorResponse "Unauthorized access"
                                                  "UNAUTHORIZED"))
  /\ db (snd (AuthRoutes.logout (J := Reference.codec) Sample.service body
                                (mkRequest None None) Sample.world))
     = db Sample.world.
Proof.
  intros body.
  assert (Hrun : fst (Sample.authenticate (mkRequest None None) Sample.world)
                 = Throw (EApi (UnauthorizedError "Unauthorized access")))
    by reflexivity.
  split; [exact Hrun|].
  destruct (guarded_routes_refuse_without_identity
              (J := Reference.codec) Sample.service (mkRequest None None)
              body Sample.world _ Hrun)
    as [Hlogout [_ [_ [Hdb _]]]].
  split; [rewrite Hlogout; reflexivity | exact Hdb].
Defined.
